(** * Dota2Client: session state, job correlation and message dispatch

    A shallow embedding of [dota2/client.py] (class [Dota2Client]) and the
    properties of its session state machine, job allocator, message router
    and reconnection loop.

    The class mutates one object ([self]) and raises Python exceptions, so the
    methods are written in a state-and-exception monad over the record
    [Client]: a method maps the client before the call to the client after it
    together with either a return value or the exception raised.  Mutations
    made before a [raise] persist, as in Python. *)

From Stdlib Require Import ZArith List String Bool Lia Permutation.
From Stdlib Require Import DecimalString DecimalPos DecimalZ.
Set Warnings "-register-all".
Import ListNotations.
Local Open Scope Z_scope.
Local Open Scope string_scope.
Local Open Scope list_scope.

(** ** Python values that cross the interface *)

(** [dota2.enums.GCConnectionStatus].  The module is not part of the
    sources at hand; the members are those of the coordinator's status
    enumeration.  The class only ever compares a status with [HAVE_SESSION]
    and names [NO_SESSION], every other member behaves alike. *)
Inductive GCConnectionStatus :=
| HAVE_SESSION
| GC_GOING_DOWN
| NO_SESSION
| NO_SESSION_IN_LOGON_QUEUE
| NO_STEAM.

Definition status_eqb (a b : GCConnectionStatus) : bool :=
  match a, b with
  | HAVE_SESSION, HAVE_SESSION
  | GC_GOING_DOWN, GC_GOING_DOWN
  | NO_SESSION, NO_SESSION
  | NO_SESSION_IN_LOGON_QUEUE, NO_SESSION_IN_LOGON_QUEUE
  | NO_STEAM, NO_STEAM => true
  | _, _ => false
  end.

(** A protobuf message class is known by its name. *)
Definition Proto := string.

Definition bytes := list Byte.byte.

(** The values a caller may pass as [data]. *)
Inductive PyVal :=
| PyNone
| PyBool (b : bool)
| PyInt (z : Z)
| PyStr (s : string)
| PyEnum (member : string)
| PyList (items : list PyVal)
| PyDict (items : list (string * PyVal)).

(** [isinstance(data, dict)] *)
Definition isinstance_dict (data : PyVal) : bool :=
  match data with PyDict _ => true | _ => false end.

(** The objects a caller may pass as [proto]. *)
Inductive PyObj :=
| ObjNone                              (* None *)
| ObjMessageClass (p : Proto)          (* a subclass of protobuf's Message *)
| ObjOtherClass (name : string)        (* a class that is not one *)
| ObjNotAClass (v : PyVal).            (* anything else *)

(** A protobuf message object: an instance of its class, filled either from
    the wire ([ParseFromString]) or from a dict ([proto_fill_from_dict]). *)
Inductive ProtoMessage :=
| Parsed (p : Proto) (payload : bytes)
| Filled (p : Proto) (data : PyVal).

(** The "no job" value of [job_id_source] and [job_id_target]. *)
Definition NO_JOB : Z := 18446744073709551615.

(** [GCMsgHdrProto]: message type and the two job ids of its [proto] part. *)
Record GCMsgHdrProto := mkHdr {
  hdr_msg : Z;
  job_id_source : Z;
  job_id_target : Z
}.

(** [GCMsgHdrProto(emsg)]: a fresh header carries no job id. *)
Definition new_header (emsg : Z) : GCMsgHdrProto :=
  {| hdr_msg := emsg; job_id_source := NO_JOB; job_id_target := NO_JOB |}.

Definition set_job_id_source (h : GCMsgHdrProto) (jobid : Z) : GCMsgHdrProto :=
  {| hdr_msg := hdr_msg h; job_id_source := jobid; job_id_target := job_id_target h |}.

(** [GCMsgHdr]: the header of a message that is not a protobuf.  Its job
    ids are attributes of its own and its [proto] is [None]. *)
Record GCMsgHdr := mkPlainHdr {
  plain_msg : Z;
  sourceJobID : Z;
  targetJobID : Z
}.

(** The header the coordinator hands to [_process_gc_message]: one of the
    two classes. *)
Inductive GCHeader :=
| HdrProto (h : GCMsgHdrProto)
| HdrPlain (h : GCMsgHdr).

(** ** Events *)

(** Event identifiers: message types (integer enums) and strings. *)
Inductive Key :=
| KMsg (emsg : Z)
| KStr (name : string).

Definition key_eqb (a b : Key) : bool :=
  match a, b with
  | KMsg x, KMsg y => Z.eqb x y
  | KStr x, KStr y => String.eqb x y
  | _, _ => false
  end.

(** ['job_%d' % jobid] *)
Definition job_key (jobid : Z) : string :=
  ("job_" ++ NilZero.string_of_int (Z.to_int jobid))%string.

(** The positional arguments of an [emit]. *)
Inductive PyArg :=
| ArgMsg (m : ProtoMessage)
| ArgStatus (s : GCConnectionStatus).

Definition Event := (Key * list PyArg)%type.

(** What can be registered for an event: a method of the client, or the
    [AsyncResult] of a greenlet blocked in [wait_event]. *)
Inductive Listener :=
| Handler (method : string)
| AsyncResult (id : nat).

Definition listener_eqb (a b : Listener) : bool :=
  match a, b with
  | Handler x, Handler y => String.eqb x y
  | AsyncResult x, AsyncResult y => Nat.eqb x y
  | _, _ => false
  end.

(** One entry of the emitter's callback table: event, callback, once flag. *)
Record Registration := mkReg {
  reg_event : Key;
  reg_callback : Listener;
  reg_once : bool
}.

(** ** Exceptions and the method monad *)

Inductive PyExc :=
| ValueError (msg : string)
| TypeError (msg : string)
| IndexError
| GeventTimeout
| KeyError (key : string)
| AttributeError (msg : string)
| DecodeError (msg : string).

Inductive Res (A : Type) :=
| Return (a : A)
| Raise (e : PyExc).
Arguments Return {A} a.
Arguments Raise {A} e.

(** ** The client object *)

(** The reconnection greenlet: whether it was killed (or died), the local
    [n] of [_knock_on_gc], and where it is parked. *)
Inductive Parked :=
| AtLoopTop
| AwaitReady (result : nat) (timeout : Z)
| AwaitNotReady (result : nat)
| Sleeping (seconds : Z).

Record Greenlet := mkGreenlet {
  dead : bool;
  knock_n : Z;
  parked : Parked
}.

(** The part of [self.steam] the class touches. *)
Record SteamClient := mkSteam {
  logged_on : bool;
  connected : bool;
  current_games_played : list Z;
  games_played_calls : list (list Z)
}.

Record Client := mkClient {
  current_jobid : Z;
  ready : bool;
  connection_status : GCConnectionStatus;
  _retry_welcome_loop : option Greenlet;
  steam : SteamClient;
  (* EventEmitter *)
  callbacks : list Registration;
  results : list (nat * list PyArg);
  next_result : nat;
  spawned : list (string * list PyArg);
  emitted : list Event;
  (* GameCoordinator.send *)
  sent : list (GCMsgHdrProto * ProtoMessage)
}.

Definition app_id : Z := 570.

Definition M (A : Type) : Type := Client -> Client * Res A.

Definition ret {A} (a : A) : M A := fun c => (c, Return a).
Definition raise {A} (e : PyExc) : M A := fun c => (c, Raise e).
Definition bind {A B} (m : M A) (k : A -> M B) : M B :=
  fun c => match m c with
           | (c', Return a) => k a c'
           | (c', Raise e) => (c', Raise e)
           end.
Definition get : M Client := fun c => (c, Return c).
Definition modify (f : Client -> Client) : M unit := fun c => (f c, Return tt).

Declare Scope py_scope.
Delimit Scope py_scope with py.
Notation "x <- m ;; k" := (bind m (fun x => k))
  (at level 61, m at next level, right associativity) : py_scope.
Notation "m ;; k" := (bind m (fun _ => k))
  (at level 61, right associativity) : py_scope.
Local Open Scope py_scope.

(** Assignment to one attribute of [self]. *)
Definition with_current_jobid (v : Z) (c : Client) : Client :=
  mkClient v (ready c) (connection_status c) (_retry_welcome_loop c) (steam c) (callbacks c) (results c) (next_result c) (spawned c) (emitted c) (sent c).
Definition with_ready (v : bool) (c : Client) : Client :=
  mkClient (current_jobid c) v (connection_status c) (_retry_welcome_loop c) (steam c) (callbacks c) (results c) (next_result c) (spawned c) (emitted c) (sent c).
Definition with_connection_status (v : GCConnectionStatus) (c : Client) : Client :=
  mkClient (current_jobid c) (ready c) v (_retry_welcome_loop c) (steam c) (callbacks c) (results c) (next_result c) (spawned c) (emitted c) (sent c).
Definition with_retry_welcome_loop (v : option Greenlet) (c : Client) : Client :=
  mkClient (current_jobid c) (ready c) (connection_status c) v (steam c) (callbacks c) (results c) (next_result c) (spawned c) (emitted c) (sent c).
Definition with_steam (v : SteamClient) (c : Client) : Client :=
  mkClient (current_jobid c) (ready c) (connection_status c) (_retry_welcome_loop c) v (callbacks c) (results c) (next_result c) (spawned c) (emitted c) (sent c).
Definition with_callbacks (v : list Registration) (c : Client) : Client :=
  mkClient (current_jobid c) (ready c) (connection_status c) (_retry_welcome_loop c) (steam c) v (results c) (next_result c) (spawned c) (emitted c) (sent c).
Definition with_results (v : list (nat * list PyArg)) (c : Client) : Client :=
  mkClient (current_jobid c) (ready c) (connection_status c) (_retry_welcome_loop c) (steam c) (callbacks c) v (next_result c) (spawned c) (emitted c) (sent c).
Definition with_next_result (v : nat) (c : Client) : Client :=
  mkClient (current_jobid c) (ready c) (connection_status c) (_retry_welcome_loop c) (steam c) (callbacks c) (results c) v (spawned c) (emitted c) (sent c).
Definition with_spawned (v : list (string * list PyArg)) (c : Client) : Client :=
  mkClient (current_jobid c) (ready c) (connection_status c) (_retry_welcome_loop c) (steam c) (callbacks c) (results c) (next_result c) v (emitted c) (sent c).
Definition with_emitted (v : list Event) (c : Client) : Client :=
  mkClient (current_jobid c) (ready c) (connection_status c) (_retry_welcome_loop c) (steam c) (callbacks c) (results c) (next_result c) (spawned c) v (sent c).
Definition with_sent (v : list (GCMsgHdrProto * ProtoMessage)) (c : Client) : Client :=
  mkClient (current_jobid c) (ready c) (connection_status c) (_retry_welcome_loop c) (steam c) (callbacks c) (results c) (next_result c) (spawned c) (emitted c) v.

(** ** EventEmitter

    The base class that keeps the callback table.  Its methods are used by
    the client as [self.on], [self.emit], [self.remove_all_listeners] and
    [self.wait_event].

    Modelled from the spec: the emitter class itself is not under src/.
    A key may have several handlers, served in registration order (4.2);
    a wait registers a one-shot association between its key and the caller,
    destroyed on first match or on timeout (3, Pending Wait; 4.3). *)

Definition same_registration (event : Key) (cb : Listener) (r : Registration) : bool :=
  key_eqb (reg_event r) event && listener_eqb (reg_callback r) cb.

(** [self.__callbacks[event][callback] = once] *)
Definition register (event : Key) (cb : Listener) (once : bool)
  (regs : list Registration) : list Registration :=
  if existsb (same_registration event cb) regs
  then map (fun r => if same_registration event cb r then mkReg event cb once else r) regs
  else regs ++ [mkReg event cb once].

Definition on (event : Key) (cb : Listener) (once : bool) : M unit :=
  modify (fun c => with_callbacks (register event cb once (callbacks c)) c).

Definition remove_listener (event : Key) (cb : Listener) : M unit :=
  modify (fun c =>
    with_callbacks (filter (fun r => negb (same_registration event cb r)) (callbacks c)) c).

Definition remove_all_listeners (event : Key) : M unit :=
  modify (fun c =>
    with_callbacks (filter (fun r => negb (key_eqb (reg_event r) event)) (callbacks c)) c).

Definition listeners_of (event : Key) (regs : list Registration) : list Registration :=
  filter (fun r => key_eqb (reg_event r) event) regs.

(** An [AsyncResult] gets the arguments as its value; a method is spawned
    with them in a greenlet of its own, to run later. *)
Definition deliver (args : list PyArg) (c : Client) (r : Registration) : Client :=
  match reg_callback r with
  | AsyncResult w => with_results (results c ++ [(w, args)]) c
  | Handler method => with_spawned (spawned c ++ [(method, args)]) c
  end.

Definition emit (event : Key) (args : list PyArg) : M unit :=
  modify (fun c =>
    let hit := listeners_of event (callbacks c) in
    let c := with_callbacks
               (filter (fun r => negb (key_eqb (reg_event r) event && reg_once r))
                       (callbacks c)) c in
    let c := fold_left (deliver args) hit c in
    with_emitted (emitted c ++ [(event, args)]) c).

Fixpoint lookup_result (w : nat) (rs : list (nat * list PyArg)) : option (list PyArg) :=
  match rs with
  | [] => None
  | (w', args) :: rs => if Nat.eqb w' w then Some args else lookup_result w rs
  end.

(** A blocking call either comes back or is still parked. *)
Inductive Blocking (A : Type) :=
| Done (a : A)
| Blocked.
Arguments Done {A} a.
Arguments Blocked {A}.

(** [wait_event], first half: [result = AsyncResult(); self.once(event, result)]. *)
Definition wait_event_register (event : Key) : M nat :=
  c <- get ;;
  let w := next_result c in
  modify (with_next_result (S w)) ;;
  on event (AsyncResult w) true ;;
  ret w.

(** [wait_event], second half: [result.get(True, timeout)] hands over the
    value once it is set; when instead the timer has [expired] the wait is
    taken out of the table and the [raises] policy applies.  Without a value
    and without an expired timer the caller stays parked. *)
Definition wait_event_wake (event : Key) (w : nat) (raises expired : bool)
  : M (Blocking (option (list PyArg))) :=
  c <- get ;;
  match lookup_result w (results c) with
  | Some args => ret (Done (Some args))
  | None =>
      if expired then
        remove_listener event (AsyncResult w) ;;
        if raises then raise GeventTimeout else ret (Done None)
      else ret Blocked
  end.

(** What goes on while a caller is parked: another greenlet runs a method of
    the client, or the clock advances by one unit. *)
Inductive Occurrence :=
| Runs (other : M unit)
| Tick.

(** The caller is parked on [AsyncResult w] with [timeout] clock units left
    ([None]: no timer).  Tells whether it is woken during [env], and if so
    whether by the timer ([Some true]) or by a value ([Some false]). *)
Fixpoint park (w : nat) (timeout : option nat) (env : list Occurrence) (c : Client)
  : Client * option bool :=
  match lookup_result w (results c) with
  | Some _ => (c, Some false)
  | None =>
      match timeout with
      | Some O => (c, Some true)
      | _ =>
          match env with
          | [] => (c, None)
          | Runs other :: env => park w timeout env (fst (other c))
          | Tick :: env => park w (option_map Nat.pred timeout) env c
          end
      end
  end.

(** The whole call, as seen by a caller that blocks while [env] happens. *)
Definition wait_event (event : Key) (timeout : option nat) (raises : bool)
  (env : list Occurrence) : M (Blocking (option (list PyArg))) :=
  w <- wait_event_register event ;;
  fun c =>
    match park w timeout env c with
    | (c, Some expired) => wait_event_wake event w raises expired c
    | (c, None) => (c, Return Blocked)
    end.

(** The pending waits of a key: the [AsyncResult]s registered for it. *)
Definition pending_waits (event : Key) (c : Client) : list Registration :=
  filter (fun r => match reg_callback r with AsyncResult _ => true | Handler _ => false end)
         (listeners_of event (callbacks c)).

(** ** GameCoordinator and the steam client *)

(** [self.steam.games_played(app_ids)] declares the set of running
    applications, which the steam client also keeps. *)
Definition games_played (app_ids : list Z) : M unit :=
  modify (fun c =>
    with_steam {| logged_on := logged_on (steam c);
                  connected := connected (steam c);
                  current_games_played := app_ids;
                  games_played_calls := games_played_calls (steam c) ++ [app_ids] |} c).

(** [list.remove(x)]: the first occurrence goes. *)
Fixpoint list_remove (x : Z) (l : list Z) : list Z :=
  match l with
  | [] => []
  | y :: l => if Z.eqb y x then l else y :: list_remove x l
  end.

Definition py_in (x : Z) (l : list Z) : bool := existsb (Z.eqb x) l.

(** Truth value of [self._retry_welcome_loop]: a greenlet is true while it
    is started and not dead; [None] is false. *)
Definition greenlet_bool (g : option Greenlet) : bool :=
  match g with
  | Some g => negb (dead g)
  | None => false
  end.

(** [self._retry_welcome_loop.kill()] *)
Definition kill (c : Client) : Client :=
  match _retry_welcome_loop c with
  | Some g => with_retry_welcome_loop (Some (mkGreenlet true (knock_n g) (parked g))) c
  | None => c
  end.

(** [x or y] on integers *)
Definition py_or (x y : Z) : Z := if Z.eqb x 0 then y else x.

(** [issubclass(proto, google.protobuf.message.Message)] *)
Definition issubclass_Message (proto : PyObj) : M bool :=
  match proto with
  | ObjMessageClass _ => ret true
  | ObjOtherClass _ => ret false
  | ObjNone | ObjNotAClass _ => raise (TypeError "issubclass() arg 1 must be a class")
  end.

Fixpoint for_each {A} (l : list A) (body : A -> M unit) : M unit :=
  match l with
  | [] => ret tt
  | x :: l => body x ;; for_each l body
  end.

(** ** Dota2Client *)

Section Dota2Client.

(** [dota2.msg] and the generated protobuf modules are taken as given:
    the enum lookup, the registry of message classes, and the two fields
    read from a welcome message. *)
Variable get_emsg_enum : Z -> Z.
Variable find_proto : Z -> option Proto.

(** The protobuf runtime and the transport are libraries; their calls can
    raise.  [decode_error] is what [ParseFromString] raises on a payload
    for a class, [fill_error] what building the body of an outgoing message
    raises ([proto()], [proto_fill_from_dict] and [SerializeToString]),
    [transport_error] what [GameCoordinator.send] raises for an envelope;
    [None] when the call goes through. *)
Variable decode_error : Proto -> bytes -> option PyExc.
Variable fill_error : Proto -> PyVal -> option PyExc.
Variable transport_error : SteamClient -> GCMsgHdrProto -> ProtoMessage -> option PyExc.

Variable game_data : ProtoMessage -> bytes.
Variable extra_messages : ProtoMessage -> list (Z * bytes).
Variable EMsgGCClientHello : Z.

Definition CMsgDOTAWelcome : Proto := "CMsgDOTAWelcome".

(** [message = proto(); message.ParseFromString(payload)] *)
Definition ParseFromString (proto : Proto) (payload : bytes) : M ProtoMessage :=
  match decode_error proto payload with
  | Some e => raise e
  | None => ret (Parsed proto payload)
  end.

(** [message = proto(); proto_fill_from_dict(message, data)], with the
    [message.SerializeToString()] that follows it. *)
Definition proto_fill_from_dict (proto : Proto) (data : PyVal) : M ProtoMessage :=
  match fill_error proto data with
  | Some e => raise e
  | None => ret (Filled proto data)
  end.

(** [GameCoordinator.send(self, header, body)]: the envelope goes to the
    transport, unless the transport refuses it.  The body is kept as the
    message it serialises. *)
Definition GameCoordinator_send (header : GCMsgHdrProto) (message : ProtoMessage) : M unit :=
  c <- get ;;
  match transport_error (steam c) header message with
  | Some e => raise e
  | None => modify (fun c => with_sent (sent c ++ [(header, message)]) c)
  end.

(** [header.proto.job_id_target]: a header that is not a protobuf has no
    [proto] part to read from. *)
Definition header_job_id_target (header : GCHeader) : M Z :=
  match header with
  | HdrProto h => ret (job_id_target h)
  | HdrPlain _ =>
      raise (AttributeError "'NoneType' object has no attribute 'job_id_target'")
  end.

(** [status] is a member of the enumeration, on which
    [GCConnectionStatus(status)] is the identity. *)
Definition _set_connection_status (status : GCConnectionStatus) : M unit :=
  c <- get ;;
  let prev_status := connection_status c in
  modify (with_connection_status status) ;;
  c <- get ;;
  (if negb (status_eqb (connection_status c) prev_status)
   then emit (KStr "connection_status") [ArgStatus (connection_status c)]
   else ret tt) ;;
  c <- get ;;
  if status_eqb (connection_status c) HAVE_SESSION && negb (ready c) then
    modify (with_ready true) ;;
    emit (KStr "ready") []
  else if negb (status_eqb (connection_status c) HAVE_SESSION) && ready c then
    modify (with_ready false) ;;
    emit (KStr "notready") []
  else ret tt.

(** [message.body.playing_app] is passed as [playing_app]. *)
Definition _handle_play_sess_state (playing_app : Z) : M unit :=
  c <- get ;;
  if ready c && negb (Z.eqb playing_app app_id)
  then _set_connection_status NO_SESSION
  else ret tt.

Definition _handle_disconnect : M unit :=
  c <- get ;;
  (if greenlet_bool (_retry_welcome_loop c) then modify kill else ret tt) ;;
  _set_connection_status NO_SESSION.

Definition _process_gc_message (emsg : Z) (header : GCHeader) (payload : bytes)
  : M unit :=
  let emsg := get_emsg_enum emsg in
  let proto := find_proto emsg in
  match proto with
  | None => ret tt
  | Some proto =>
      message <- ParseFromString proto payload ;;
      emit (KMsg emsg) [ArgMsg message] ;;
      job_id_target <- header_job_id_target header ;;
      if negb (Z.eqb job_id_target 18446744073709551615)
      then emit (KStr (job_key job_id_target)) [ArgMsg message]
      else ret tt
  end.

Definition _handle_client_welcome (message : ProtoMessage) : M unit :=
  _set_connection_status HAVE_SESSION ;;
  submessage <- ParseFromString CMsgDOTAWelcome (game_data message) ;;
  emit (KStr "dota_welcome") [ArgMsg submessage] ;;
  for_each (extra_messages submessage) (fun extra =>
    _process_gc_message (fst extra) (HdrProto (new_header (fst extra))) (snd extra)).

(** [message.status] is passed as [status]. *)
Definition _handle_conn_status (status : GCConnectionStatus) : M unit :=
  _set_connection_status status.

Definition _send (emsg : Z) (data : PyVal) (proto : PyObj) (jobid : option Z) : M unit :=
  if negb (isinstance_dict data) then
    raise (ValueError "data kwarg can only be a dict")
  else
    let proto :=
      match proto with
      | ObjNone => match find_proto emsg with
                   | Some p => ObjMessageClass p
                   | None => ObjNone
                   end
      | _ => proto
      end in
    ok <- issubclass_Message proto ;;
    if negb ok then
      raise (ValueError "Unable to find proto for emsg, or proto kwarg is invalid")
    else
      match proto with
      | ObjMessageClass p =>
          message <- proto_fill_from_dict p data ;;
          let header := new_header emsg in
          let header := match jobid with
                        | Some jobid => set_job_id_source header jobid
                        | None => header
                        end in
          GameCoordinator_send header message
      | _ => ret tt
      end.

Definition send (emsg : Z) (data : PyVal) (proto : PyObj) : M unit :=
  _send emsg data proto None.

Definition send_job (emsg : Z) (data : PyVal) (proto : PyObj) : M string :=
  c <- get ;;
  let jobid := py_or ((current_jobid c + 1) mod 10000) 1 in
  modify (with_current_jobid jobid) ;;
  remove_all_listeners (KStr (job_key jobid)) ;;
  _send emsg data proto (Some jobid) ;;
  ret (job_key jobid).

(** [wait_msg]: the value of the call once [wait_event] has come back. *)
Definition wait_msg_result (resp : Blocking (option (list PyArg)))
  : M (Blocking (option PyArg)) :=
  match resp with
  | Blocked => ret Blocked
  | Done (Some (a :: _)) => ret (Done (Some a))
  | Done (Some []) => raise IndexError
  | Done None => ret (Done None)
  end.

Definition py_bool (raises : option bool) : bool :=
  match raises with Some b => b | None => false end.

Definition wait_msg (event : Key) (timeout : option nat) (raises : option bool)
  (env : list Occurrence) : M (Blocking (option PyArg)) :=
  resp <- wait_event event timeout (py_bool raises) env ;;
  wait_msg_result resp.

Definition send_job_and_wait (emsg : Z) (data : PyVal) (proto : PyObj)
  (timeout : option nat) (raises : bool) (env : list Occurrence)
  : M (Blocking (option PyArg)) :=
  job_id <- send_job emsg data proto ;;
  wait_msg (KStr job_id) timeout (Some raises) env.

Definition hello_data : PyVal :=
  PyDict [("client_session_need", PyEnum "EDOTAGCSessionNeed.UserInUINeverConnected");
          ("engine", PyEnum "ESourceEngine.ESE_Source2")].

Definition set_greenlet (g : Greenlet) : M unit :=
  modify (with_retry_welcome_loop (Some g)).

(** [_knock_on_gc], run by the greenlet in [_retry_welcome_loop].  The loop
    suspends in [wait_event] and in [gevent.sleep]; [knock_begin] runs it
    from the top of the [while] to the next suspension, [knock_wake]
    from a suspension back to the top.  A dead greenlet runs nothing; an
    exception that escapes the loop ends the greenlet. *)
Definition knock_begin : M unit :=
  c <- get ;;
  match _retry_welcome_loop c with
  | Some (mkGreenlet false n AtLoopTop) =>
      if negb (ready c) then
        fun c =>
          match send EMsgGCClientHello hello_data ObjNone c with
          | (c, Raise _) => (with_retry_welcome_loop (Some (mkGreenlet true n AtLoopTop)) c, Return tt)
          | (c, Return _) =>
              (w <- wait_event_register (KStr "ready") ;;
               set_greenlet (mkGreenlet false n (AwaitReady w (3 + 2 ^ n)))) c
          end
      else
        w <- wait_event_register (KStr "notready") ;;
        set_greenlet (mkGreenlet false n (AwaitNotReady w))
  | _ => ret tt
  end.

Definition knock_wake (expired : bool) : M unit :=
  c <- get ;;
  match _retry_welcome_loop c with
  | Some (mkGreenlet false n (AwaitReady w _)) =>
      r <- wait_event_wake (KStr "ready") w false expired ;;
      match r with
      | Done _ => set_greenlet (mkGreenlet false (Z.min (n + 1) 4) AtLoopTop)
      | Blocked => ret tt
      end
  | Some (mkGreenlet false n (AwaitNotReady w)) =>
      r <- wait_event_wake (KStr "notready") w false false ;;
      match r with
      | Done _ => set_greenlet (mkGreenlet false 1 (Sleeping 1))
      | Blocked => ret tt
      end
  | Some (mkGreenlet false n (Sleeping _)) =>
      if expired then set_greenlet (mkGreenlet false n AtLoopTop) else ret tt
  | _ => ret tt
  end.

Definition launch : M unit :=
  c <- get ;;
  if negb (logged_on (steam c)) then ret tt
  else if negb (greenlet_bool (_retry_welcome_loop c))
          && negb (py_in app_id (current_games_played (steam c))) then
    games_played (current_games_played (steam c) ++ [app_id]) ;;
    set_greenlet (mkGreenlet false 1 AtLoopTop)
  else ret tt.

Definition exit : M unit :=
  c <- get ;;
  (if greenlet_bool (_retry_welcome_loop c) then modify kill else ret tt) ;;
  c <- get ;;
  (if py_in app_id (current_games_played (steam c)) then
     games_played (list_remove app_id (current_games_played (steam c)))
   else ret tt) ;;
  _set_connection_status NO_SESSION.

(** [Dota2Client(steam_client)]: the class attributes, and the two
    handlers registered by [__init__]. *)
Variable EMsgGCClientConnectionStatus EMsgGCClientWelcome : Z.

Definition new_client (steam_client : SteamClient) : Client :=
  {| current_jobid := 0;
     ready := false;
     connection_status := NO_SESSION;
     _retry_welcome_loop := None;
     steam := steam_client;
     callbacks :=
       register (KMsg EMsgGCClientWelcome) (Handler "_handle_client_welcome") false
         (register (KMsg EMsgGCClientConnectionStatus) (Handler "_handle_conn_status") false []);
     results := [];
     next_result := 0;
     spawned := [];
     emitted := [];
     sent := [] |}.

End Dota2Client.

(** ** A concrete registry, for running the methods

    Three message types with a class each; every other id is unknown. *)
Module Demo.

Definition EMsgGCClientWelcome : Z := 4004.
Definition EMsgGCClientHello : Z := 4006.
Definition EMsgGCClientConnectionStatus : Z := 4009.

Definition get_emsg_enum (emsg : Z) : Z := emsg.

Definition find_proto (emsg : Z) : option Proto :=
  if Z.eqb emsg EMsgGCClientWelcome then Some "CMsgClientWelcome"
  else if Z.eqb emsg EMsgGCClientHello then Some "CMsgClientHello"
  else if Z.eqb emsg EMsgGCClientConnectionStatus then Some "CMsgConnectionStatus"
  else None.

(** A payload that starts with byte 255 is not a message of any class
    (field number 31 with the wire type 7, which does not exist). *)
Definition decode_error (proto : Proto) (payload : bytes) : option PyExc :=
  match payload with
  | Byte.xff :: _ => Some (DecodeError "Error parsing message")
  | _ => None
  end.

(** The fields a dict may set. *)
Definition fields (proto : Proto) : list string :=
  if String.eqb proto "CMsgClientHello"
  then ["version"; "client_session_need"; "client_launcher"; "secret_key"; "engine"]
  else [].

(** Filling stops at the first key that is not a field of the class. *)
Fixpoint unknown_key (proto : Proto) (items : list (string * PyVal)) : option PyExc :=
  match items with
  | [] => None
  | (key, _) :: items =>
      if existsb (String.eqb key) (fields proto) then unknown_key proto items
      else Some (KeyError key)
  end.

Definition fill_error (proto : Proto) (data : PyVal) : option PyExc :=
  match data with
  | PyDict items => unknown_key proto items
  | _ => None
  end.

(** The envelope's message type is an unsigned 32 bit field. *)
Definition transport_error (s : SteamClient) (header : GCMsgHdrProto)
  (message : ProtoMessage) : option PyExc :=
  if ((0 <=? hdr_msg header)%Z && (hdr_msg header <? 2 ^ 32)%Z)%bool then None
  else Some (ValueError "Value out of range").

(** A welcome message is read here as follows: its [game_data] is its own
    payload, and a decoded [game_data] holds one extra message per byte after
    its first, of the connection status type and with that byte as payload. *)
Definition game_data (message : ProtoMessage) : bytes :=
  match message with
  | Parsed _ payload => payload
  | Filled _ _ => []
  end.

Definition extra_messages (message : ProtoMessage) : list (Z * bytes) :=
  match message with
  | Parsed _ payload => map (fun b => (EMsgGCClientConnectionStatus, [b])) (tl payload)
  | Filled _ _ => []
  end.

Definition steam_client : SteamClient :=
  {| logged_on := true; connected := true;
     current_games_played := []; games_played_calls := [] |}.

Definition client : Client :=
  new_client EMsgGCClientConnectionStatus EMsgGCClientWelcome steam_client.

(** A client in session whose loop is back at the top of its [while]. *)
Definition in_session : Client :=
  fold_left (fun c (m : M unit) => fst (m c))
    [ launch;
      knock_begin find_proto fill_error transport_error EMsgGCClientHello;
      _handle_client_welcome get_emsg_enum find_proto decode_error
        game_data extra_messages (Parsed "CMsgClientWelcome" []);
      knock_wake false ]
    client.

End Demo.

(** ** Observations and runs

    The notions the properties of the client are stated with. *)

(** [c'] differs from [c] at most in the values held by [AsyncResult]s and
    in the greenlets spawned. *)
Definition same_outside_emitter (c c' : Client) : Prop :=
  current_jobid c' = current_jobid c /\ ready c' = ready c /\
  connection_status c' = connection_status c /\
  _retry_welcome_loop c' = _retry_welcome_loop c /\ steam c' = steam c /\
  callbacks c' = callbacks c /\ next_result c' = next_result c /\
  emitted c' = emitted c /\ sent c' = sent c.

(** The registration is that of [AsyncResult w]. *)
Definition is_result (w : nat) (r : Registration) : bool :=
  listener_eqb (reg_callback r) (AsyncResult w).

(** The entries a call of [_set_connection_status] adds to the trace. *)
Definition status_events (prev new : GCConnectionStatus) (was_ready now_ready : bool)
  : list Event :=
  (if status_eqb new prev then [] else [(KStr "connection_status", [ArgStatus new])])
  ++ (if Bool.eqb now_ready was_ready then []
      else [(KStr (if now_ready then "ready" else "notready"), [])]).

(** The reconnection loop as driven by the scheduler: a sequence of its
    two kinds of steps. *)
Inductive LoopStep :=
| Begin
| Wake (expired : bool).

(** The call ended in an exception. *)
Definition raised {A} (out : Client * Res A) : Prop := exists e, snd out = Raise e.

(** The id that follows counter value [cur]. *)
Definition next_jobid (cur : Z) : Z := py_or ((cur + 1) mod 10000) 1.

(** The [i]-th id (from 0) of the cycle that starts with [first]. *)
Definition cycle_from (first : Z) (i : nat) : Z := (first - 1 + Z.of_nat i) mod 9999 + 1.

(** The job ids: 1, 2, ..., 9999. *)
Definition id_range : list Z := map Z.of_nat (seq 1 (Z.to_nat 9999)).

(** Every [AsyncResult] in the tables was made earlier than the next one
    will be: [AsyncResult()] makes a new object each time. *)
Definition fresh (c : Client) : Prop :=
  Forall (fun r => forall w, reg_callback r = AsyncResult w -> (w < next_result c)%nat)
         (callbacks c) /\
  Forall (fun e => (fst e < next_result c)%nat) (results c).

(** The timeout the loop is parked with, when it waits for [ready]. *)
Definition awaited_timeout (c : Client) : option Z :=
  match _retry_welcome_loop c with
  | Some (mkGreenlet false _ (AwaitReady _ timeout)) => Some timeout
  | _ => None
  end.

(** The loop is alive at the top of its [while], with local [n], and the
    client has no session. *)
Definition knocking (n : Z) (c : Client) : Prop :=
  ready c = false /\
  _retry_welcome_loop c = Some (mkGreenlet false n AtLoopTop) /\
  fresh c.

(** What a caller parked in a wait lives through: the coordinator hands an
    inbound message to the router, or a unit of time passes. *)
Inductive Arrival :=
| Inbound (emsg : Z) (header : GCHeader) (payload : bytes)
| Passes.

(** How a wait stands after a while. *)
Inductive Outcome :=
| StillParked
| TimedOut
| Served (args : list PyArg).

(** The units of time among the arrivals. *)
Fixpoint elapsed (arrivals : list Arrival) : nat :=
  match arrivals with
  | [] => O
  | Passes :: arrivals => S (elapsed arrivals)
  | Inbound _ _ _ :: arrivals => elapsed arrivals
  end.

(** The event has the key. *)
Definition on_key (event : Key) (e : Event) : bool := key_eqb (fst e) event.

(** [AsyncResult w] waits for [event]: its one registration is the one-shot
    for this event, and it has no value yet. *)
Definition waiting_for (event : Key) (w : nat) (c : Client) : Prop :=
  In (mkReg event (AsyncResult w) true) (callbacks c) /\
  (forall r, In r (callbacks c) -> is_result w r = true ->
             r = mkReg event (AsyncResult w) true) /\
  lookup_result w (results c) = None.

(** The client after the [events] have been emitted, one after the other. *)
Definition emit_all (events : list Event) (c : Client) : Client :=
  fold_left (fun c e => fst (emit (fst e) (snd e) c)) events c.

(** The methods of the client and the steps of its greenlets, as the
    scheduler may interleave them. *)
Inductive Call :=
| Call_set_connection_status (status : GCConnectionStatus)
| Call_handle_play_sess_state (playing_app : Z)
| Call_handle_disconnect
| Call_handle_client_welcome (message : ProtoMessage)
| Call_handle_conn_status (status : GCConnectionStatus)
| Call_process_gc_message (emsg : Z) (header : GCHeader) (payload : bytes)
| Call_send (emsg : Z) (data : PyVal) (proto : PyObj)
| Call_send_job (emsg : Z) (data : PyVal) (proto : PyObj)
| Call_wait_register (event : Key)
| Call_wait_wake (event : Key) (w : nat) (raises expired : bool)
| Call_knock_begin
| Call_knock_wake (expired : bool)
| Call_launch
| Call_exit.

(** The ready flag says what the status says. *)
Definition ready_matches_status (c : Client) : Prop :=
  ready c = status_eqb (connection_status c) HAVE_SESSION.

(** [c'] has the status and the ready flag of [c]. *)
Definition same_session (c c' : Client) : Prop :=
  ready c' = ready c /\ connection_status c' = connection_status c.

Section Observations.

Variable get_emsg_enum : Z -> Z.
Variable find_proto : Z -> option Proto.
Variable decode_error : Proto -> bytes -> option PyExc.
Variable fill_error : Proto -> PyVal -> option PyExc.
Variable transport_error : SteamClient -> GCMsgHdrProto -> ProtoMessage -> option PyExc.
Variable game_data : ProtoMessage -> bytes.
Variable extra_messages : ProtoMessage -> list (Z * bytes).
Variable EMsgGCClientHello : Z.

(** One step of the retry loop, and a run of them. *)
Definition loop_step (s : LoopStep) : M unit :=
  match s with
  | Begin => knock_begin find_proto fill_error transport_error EMsgGCClientHello
  | Wake expired => knock_wake expired
  end.

Definition run_loop (steps : list LoopStep) : M unit := for_each steps loop_step.

(** The entries one inbound message adds to the trace, and how its dispatch
    ends. *)
Definition dispatch_events (emsg : Z) (header : GCHeader) (payload : bytes)
  : list Event :=
  match find_proto (get_emsg_enum emsg) with
  | None => []
  | Some proto =>
      match decode_error proto payload with
      | Some _ => []
      | None =>
          (KMsg (get_emsg_enum emsg), [ArgMsg (Parsed proto payload)])
          :: match header with
             | HdrProto h =>
                 if Z.eqb (job_id_target h) NO_JOB then []
                 else [(KStr (job_key (job_id_target h)), [ArgMsg (Parsed proto payload)])]
             | HdrPlain _ => []
             end
      end
  end.

Definition dispatch_result (emsg : Z) (header : GCHeader) (payload : bytes) : Res unit :=
  match find_proto (get_emsg_enum emsg) with
  | None => Return tt
  | Some proto =>
      match decode_error proto payload with
      | Some e => Raise e
      | None =>
          match header with
          | HdrProto _ => Return tt
          | HdrPlain _ =>
              Raise (AttributeError "'NoneType' object has no attribute 'job_id_target'")
          end
      end
  end.

(** The same for the extras of a welcome, dispatched one after the other
    until one of them raises. *)
Fixpoint extras_events (extras : list (Z * bytes)) : list Event :=
  match extras with
  | [] => []
  | extra :: extras =>
      dispatch_events (fst extra) (HdrProto (new_header (fst extra))) (snd extra)
      ++ match dispatch_result (fst extra) (HdrProto (new_header (fst extra))) (snd extra) with
         | Return _ => extras_events extras
         | Raise _ => []
         end
  end.

Fixpoint extras_result (extras : list (Z * bytes)) : Res unit :=
  match extras with
  | [] => Return tt
  | extra :: extras =>
      match dispatch_result (fst extra) (HdrProto (new_header (fst extra))) (snd extra) with
      | Return _ => extras_result extras
      | Raise e => Raise e
      end
  end.

(** What one extra adds when it is dispatched: its typed event, if a class
    is registered for its type and its payload decodes. *)
Definition extra_event (extra : Z * bytes) : list Event :=
  match find_proto (get_emsg_enum (fst extra)) with
  | None => []
  | Some proto =>
      match decode_error proto (snd extra) with
      | Some _ => []
      | None => [(KMsg (get_emsg_enum (fst extra)), [ArgMsg (Parsed proto (snd extra))])]
      end
  end.

(** The header of an outgoing message: of its type, with the job id of the
    call if it has one. *)
Definition send_header (emsg : Z) (jobid : option Z) : GCMsgHdrProto :=
  match jobid with
  | Some jobid => set_job_id_source (new_header emsg) jobid
  | None => new_header emsg
  end.

(** What the library calls of a send raise, once the arguments have passed
    the guards of [_send]. *)
Definition send_error (c : Client) (header : GCMsgHdrProto) (p : Proto) (data : PyVal)
  : option PyExc :=
  match fill_error p data with
  | Some e => Some e
  | None => transport_error (steam c) header (Filled p data)
  end.

(** An arrival as the caller of a wait meets it. *)
Definition occurrence (a : Arrival) : Occurrence :=
  match a with
  | Inbound emsg header payload =>
      Runs (_process_gc_message get_emsg_enum find_proto decode_error emsg header payload)
  | Passes => Tick
  end.

(** The events an arrival makes the router emit. *)
Definition arrival_events (a : Arrival) : list Event :=
  match a with
  | Inbound emsg header payload => dispatch_events emsg header payload
  | Passes => []
  end.

(** What an arrival brings to a wait for [event]: the arguments of the
    first of its events that has the key. *)
Definition carried (event : Key) (a : Arrival) : option (list PyArg) :=
  option_map snd (find (on_key event) (arrival_events a)).

(** How a wait for [event] with [timeout] stands after the [arrivals]: it
    is served by the first arrival that brings something for the key, unless
    the timeout has run down before. *)
Fixpoint awaited (event : Key) (timeout : option nat) (arrivals : list Arrival) : Outcome :=
  match timeout with
  | Some O => TimedOut
  | _ =>
      match arrivals with
      | [] => StillParked
      | Passes :: arrivals => awaited event (option_map Nat.pred timeout) arrivals
      | a :: arrivals =>
          match carried event a with
          | Some args => Served args
          | None => awaited event timeout arrivals
          end
      end
  end.

(** A message class can be resolved for a send: one is given as [proto],
    or none is given ([proto] is [None]) and the lookup finds one. *)
Definition proto_resolvable (emsg : Z) (proto : PyObj) : bool :=
  match proto with
  | ObjMessageClass _ => true
  | ObjNone => match find_proto emsg with Some _ => true | None => false end
  | ObjOtherClass _ | ObjNotAClass _ => false
  end.

(** The ids assigned by [k] consecutive calls of [send_job], the [i]-th
    with the arguments [call i]. *)
Fixpoint job_ids (k : nat) (call : nat -> Z * PyVal * PyObj) (c : Client) : list Z :=
  match k with
  | O => []
  | S k =>
      let '(emsg, data, proto) := call O in
      let c := fst (send_job find_proto fill_error transport_error emsg data proto c) in
      current_jobid c :: job_ids k (fun i => call (S i)) c
  end.

(** The timeouts of [k] rounds in which every wait for [ready] times out. *)
Fixpoint retry_timeouts (k : nat) (c : Client) : list Z :=
  match k with
  | O => []
  | S k =>
      let c := fst (knock_begin find_proto fill_error transport_error EMsgGCClientHello c) in
      match awaited_timeout c with
      | Some timeout => timeout :: retry_timeouts k (fst (knock_wake true c))
      | None => []
      end
  end.

(** The client after a call. *)
Definition perform (call : Call) (c : Client) : Client :=
  match call with
  | Call_set_connection_status status => fst (_set_connection_status status c)
  | Call_handle_play_sess_state playing_app => fst (_handle_play_sess_state playing_app c)
  | Call_handle_disconnect => fst (_handle_disconnect c)
  | Call_handle_client_welcome message =>
      fst (_handle_client_welcome get_emsg_enum find_proto decode_error game_data extra_messages message c)
  | Call_handle_conn_status status => fst (_handle_conn_status status c)
  | Call_process_gc_message emsg header payload =>
      fst (_process_gc_message get_emsg_enum find_proto decode_error emsg header payload c)
  | Call_send emsg data proto => fst (send find_proto fill_error transport_error emsg data proto c)
  | Call_send_job emsg data proto => fst (send_job find_proto fill_error transport_error emsg data proto c)
  | Call_wait_register event => fst (wait_event_register event c)
  | Call_wait_wake event w raises expired => fst (wait_event_wake event w raises expired c)
  | Call_knock_begin => fst (knock_begin find_proto fill_error transport_error EMsgGCClientHello c)
  | Call_knock_wake expired => fst (knock_wake expired c)
  | Call_launch => fst (launch c)
  | Call_exit => fst (exit c)
  end.

End Observations.

(** The trace read as a history of the ready flag, which was [was] before
    it: [ready] must find the flag down and raises it, [notready] must find
    it up and lowers it, every other event leaves it.  [None] when an event
    comes out of turn. *)
Fixpoint ready_after (was : bool) (trace : list Event) : option bool :=
  match trace with
  | [] => Some was
  | (event, _) :: trace =>
      if key_eqb event (KStr "ready") then
        if was then None else ready_after true trace
      else if key_eqb event (KStr "notready") then
        if was then ready_after false trace else None
      else ready_after was trace
  end.

(** From [c] to [c'] the trace has grown by events that take the ready
    flag of [c] to that of [c']. *)
Definition ready_history_step (c c' : Client) : Prop :=
  exists events,
    emitted c' = emitted c ++ events /\
    ready_after (ready c) events = Some (ready c').

(** The registration is in the table of listeners. *)
Definition installed (r : Registration) (c : Client) : Prop := In r (callbacks c).

(** A registration that nothing in the class takes out of the table: a
    method registered for good for a message type. *)
Definition persistent (r : Registration) : bool :=
  negb (reg_once r)
  && match reg_callback r with Handler _ => true | AsyncResult _ => false end
  && match reg_event r with KMsg _ => true | KStr _ => false end.

(** * Equality tests *)

Lemma status_eqb_spec a b : reflect (a = b) (status_eqb a b).
Proof. destruct a, b; simpl; constructor; congruence. Qed.

Lemma key_eqb_spec a b : reflect (a = b) (key_eqb a b).
Proof.
  destruct a as [x|x], b as [y|y]; simpl; try (constructor; congruence).
  - destruct (Z.eqb_spec x y); constructor; congruence.
  - destruct (String.eqb_spec x y); constructor; congruence.
Qed.

Lemma key_eqb_refl a : key_eqb a a = true.
Proof. destruct (key_eqb_spec a a); congruence. Qed.

(** * Facts about the emitter *)

Lemma deliver_all_fields args hit : forall c,
  same_outside_emitter c (fold_left (deliver args) hit c).
Proof.
  induction hit as [|r hit IH]; intros c; simpl.
  - repeat split.
  - destruct (IH (deliver args c r)) as (H1 & H2 & H3 & H4 & H5 & H6 & H7 & H8 & H9).
    unfold same_outside_emitter.
    rewrite H1, H2, H3, H4, H5, H6, H7, H8, H9.
    unfold deliver. destruct (reg_callback r); repeat split.
Qed.

(** [emit] returns normally, appends one entry to the trace, and touches
    nothing but the emitter's own tables. *)
Lemma emit_spec event args c :
  exists cbs rs sp,
    emit event args c =
    (mkClient (current_jobid c) (ready c) (connection_status c)
              (_retry_welcome_loop c) (steam c) cbs rs (next_result c) sp
              (emitted c ++ [(event, args)]) (sent c),
     Return tt).
Proof.
  unfold emit, modify.
  set (c1 := with_callbacks _ c).
  destruct (deliver_all_fields args (listeners_of event (callbacks c)) c1)
    as (H1 & H2 & H3 & H4 & H5 & H6 & H7 & H8 & H9).
  set (c2 := fold_left _ _ c1) in *.
  exists (callbacks c2), (results c2), (spawned c2).
  unfold with_emitted. rewrite H1, H2, H3, H4, H5, H7, H8, H9. reflexivity.
Qed.

Lemma lookup_result_app w rs w' args :
  lookup_result w (rs ++ [(w', args)]) =
  match lookup_result w rs with
  | Some x => Some x
  | None => if Nat.eqb w' w then Some args else None
  end.
Proof.
  induction rs as [|[v a] rs IH]; simpl; [reflexivity|].
  destruct (Nat.eqb v w); [reflexivity|exact IH].
Qed.

Lemma deliver_results args w hit : forall c,
  lookup_result w (results (fold_left (deliver args) hit c)) =
  match lookup_result w (results c) with
  | Some x => Some x
  | None => if existsb (is_result w) hit then Some args else None
  end.
Proof.
  induction hit as [|r hit IH]; intros c; simpl.
  - destruct (lookup_result w (results c)); reflexivity.
  - rewrite IH. unfold deliver, is_result.
    destruct (reg_callback r) as [m|w']; simpl.
    + reflexivity.
    + rewrite lookup_result_app.
      destruct (lookup_result w (results c)); [reflexivity|].
      destruct (Nat.eqb w' w); reflexivity.
Qed.

(** An [emit] hands its arguments to every [AsyncResult] registered for
    the event that has no value yet. *)
Lemma emit_delivers event args w once c :
  In (mkReg event (AsyncResult w) once) (callbacks c) ->
  lookup_result w (results c) = None ->
  lookup_result w (results (fst (emit event args c))) = Some args.
Proof.
  intros Hin Hn. unfold emit, modify. cbn [fst].
  unfold with_emitted. cbn [results].
  rewrite deliver_results. cbn [results with_callbacks]. rewrite Hn.
  replace (existsb _ _) with true; [reflexivity|].
  symmetry. apply existsb_exists.
  exists (mkReg event (AsyncResult w) once). split.
  - unfold listeners_of. apply filter_In. split; [exact Hin|]. apply key_eqb_refl.
  - unfold is_result. simpl. apply Nat.eqb_refl.
Qed.

(** An [emit] keeps the registrations of every other event. *)
Lemma emit_keeps_other event args r c :
  key_eqb (reg_event r) event = false ->
  In r (callbacks c) -> In r (callbacks (fst (emit event args c))).
Proof.
  intros Hk Hin. unfold emit, modify. cbn [fst].
  destruct (deliver_all_fields args (listeners_of event (callbacks c))
              (with_callbacks
                 (filter (fun r => negb (key_eqb (reg_event r) event && reg_once r))
                         (callbacks c)) c))
    as (_ & _ & _ & _ & _ & Hc & _).
  unfold with_emitted. cbn [callbacks]. rewrite Hc. cbn [callbacks with_callbacks].
  apply filter_In. split; [exact Hin|]. rewrite Hk. reflexivity.
Qed.

(** An [emit] gives no value to an [AsyncResult] that is not registered
    for the event. *)
Lemma emit_skips w event args c :
  (forall r, In r (callbacks c) -> key_eqb (reg_event r) event = true ->
             is_result w r = false) ->
  lookup_result w (results c) = None ->
  lookup_result w (results (fst (emit event args c))) = None.
Proof.
  intros Hno Hn. unfold emit, modify. cbn [fst].
  unfold with_emitted. cbn [results].
  rewrite deliver_results. cbn [results with_callbacks]. rewrite Hn.
  replace (existsb _ _) with false; [reflexivity|].
  symmetry. apply not_true_is_false. intros E.
  apply existsb_exists in E. destruct E as (r & Hr & E).
  unfold listeners_of in Hr. apply filter_In in Hr. destruct Hr as (Hr & Hk).
  rewrite (Hno r Hr Hk) in E. discriminate.
Qed.

(** The table an [emit] leaves: the one-shot registrations of the event
    are gone, every other registration stays in place. *)
Lemma emit_callbacks event args c :
  callbacks (fst (emit event args c)) =
  filter (fun r => negb (key_eqb (reg_event r) event && reg_once r)) (callbacks c).
Proof.
  unfold emit, modify. cbn [fst].
  destruct (deliver_all_fields args (listeners_of event (callbacks c))
              (with_callbacks
                 (filter (fun r => negb (key_eqb (reg_event r) event && reg_once r))
                         (callbacks c)) c))
    as (_ & _ & _ & _ & _ & Hc & _).
  unfold with_emitted. cbn [callbacks]. rewrite Hc. reflexivity.
Qed.

Lemma emit_next_result event args c :
  next_result (fst (emit event args c)) = next_result c.
Proof.
  unfold emit, modify. cbn [fst].
  destruct (deliver_all_fields args (listeners_of event (callbacks c))
              (with_callbacks
                 (filter (fun r => negb (key_eqb (reg_event r) event && reg_once r))
                         (callbacks c)) c))
    as (_ & _ & _ & _ & _ & _ & Hn & _).
  unfold with_emitted. cbn [next_result]. rewrite Hn. reflexivity.
Qed.

Lemma deliver_results_In args hit : forall c w a,
  In (w, a) (results (fold_left (deliver args) hit c)) ->
  In (w, a) (results c) \/ exists r, In r hit /\ reg_callback r = AsyncResult w.
Proof.
  induction hit as [|r hit IH]; intros c w a H; simpl in H; [left; exact H|].
  apply IH in H. destruct H as [H|(r' & Hr' & E)].
  - unfold deliver in H. destruct (reg_callback r) as [m|w'] eqn:Ec; cbn in H.
    + left. exact H.
    + apply in_app_or in H. destruct H as [H|[[= <- <-]|[]]]; [left; exact H|].
      right. exists r. split; [left; reflexivity | exact Ec].
  - right. exists r'. split; [right; exact Hr' | exact E].
Qed.

(** The values an [emit] adds belong to [AsyncResult]s registered for the
    event. *)
Lemma emit_results_In event args c w a :
  In (w, a) (results (fst (emit event args c))) ->
  In (w, a) (results c) \/
  exists r, In r (callbacks c) /\ reg_callback r = AsyncResult w.
Proof.
  unfold emit, modify. cbn [fst]. unfold with_emitted. cbn [results]. intros H.
  apply deliver_results_In in H. destruct H as [H|(r & Hr & E)].
  - left. exact H.
  - right. exists r. split; [|exact E].
    unfold listeners_of in Hr. apply filter_In in Hr. exact (proj1 Hr).
Qed.

(** A value once given stays. *)
Lemma emit_keeps_result event args w x c :
  lookup_result w (results c) = Some x ->
  lookup_result w (results (fst (emit event args c))) = Some x.
Proof.
  intros H. unfold emit, modify. cbn [fst]. unfold with_emitted. cbn [results].
  rewrite deliver_results. cbn [results with_callbacks]. rewrite H. reflexivity.
Qed.

Lemma deliver_spawned args hit : forall c,
  (forall x, In x (spawned c) -> In x (spawned (fold_left (deliver args) hit c))) /\
  (forall r method, In r hit -> reg_callback r = Handler method ->
     In (method, args) (spawned (fold_left (deliver args) hit c))).
Proof.
  induction hit as [|r hit IH]; intros c; simpl.
  - split; [auto | intros ? ? []].
  - destruct (IH (deliver args c r)) as (IH1 & IH2). split.
    + intros x Hx. apply IH1. unfold deliver.
      destruct (reg_callback r); cbn; [apply in_or_app; left|]; exact Hx.
    + intros r' method [<-|Hr'] E.
      * apply IH1. unfold deliver. rewrite E. cbn. apply in_or_app. right. left. reflexivity.
      * apply (IH2 r' method Hr' E).
Qed.

(** An [emit] spawns every method registered for the event, with the
    arguments of the event; what was spawned before stays spawned. *)
Lemma emit_spawns event args c :
  (forall x, In x (spawned c) -> In x (spawned (fst (emit event args c)))) /\
  (forall method once, In (mkReg event (Handler method) once) (callbacks c) ->
     In (method, args) (spawned (fst (emit event args c)))).
Proof.
  unfold emit, modify. cbn [fst]. unfold with_emitted. cbn [spawned].
  set (c1 := with_callbacks _ c).
  destruct (deliver_spawned args (listeners_of event (callbacks c)) c1) as (H1 & H2).
  split.
  - intros x Hx. apply H1. exact Hx.
  - intros method once Hin. apply (H2 (mkReg event (Handler method) once) method).
    + unfold listeners_of. apply filter_In. split; [exact Hin | apply key_eqb_refl].
    + reflexivity.
Qed.

#[global] Opaque emit.

Lemma emit_returns event args c : emit event args c = (fst (emit event args c), Return tt).
Proof. destruct (emit_spec event args c) as (cbs & rs & sp & E). rewrite E. reflexivity. Qed.


Ltac emit_step :=
  match goal with
  | |- context [emit ?k ?a ?c] =>
      let E := fresh "E" in
      destruct (emit_spec k a c) as (? & ? & ? & E); rewrite E; clear E; simpl
  end.

(** * Session state machine *)

Section SessionStatus.

Lemma _set_connection_status_spec status c :
  exists cbs rs sp,
    _set_connection_status status c =
    (mkClient (current_jobid c) (status_eqb status HAVE_SESSION) status
              (_retry_welcome_loop c) (steam c) cbs rs (next_result c) sp
              (emitted c ++ status_events (connection_status c) status (ready c)
                                          (status_eqb status HAVE_SESSION))
              (sent c),
     Return tt).
Proof.
  unfold _set_connection_status, status_events, bind, get, modify, ret.
  destruct c as [j r st g s cb rs nr sp em se]; simpl.
  destruct (status_eqb status st) eqn:Est; simpl.
  - destruct (status_eqb status HAVE_SESSION) eqn:Eh, r; simpl;
      try emit_step; rewrite ?app_nil_r; do 3 eexists; reflexivity.
  - emit_step.
    destruct (status_eqb status HAVE_SESSION) eqn:Eh, r; simpl;
      try emit_step; rewrite <- ?app_assoc; simpl; rewrite ?app_nil_r;
      do 3 eexists; reflexivity.
Qed.

End SessionStatus.

Ltac status_step :=
  match goal with
  | |- context [_set_connection_status ?s ?c] =>
      let E := fresh "E" in
      destruct (_set_connection_status_spec s c) as (? & ? & ? & E); rewrite E; clear E; simpl
  end.

(** C2.  After every call of [_set_connection_status] the ready flag equals
    [connection_status == HAVE_SESSION]; the call adds a [connection_status]
    event exactly when the stored status changes value, and a [ready] or
    [notready] event exactly when the ready flag flips; setting the status
    once more to the value it now has adds no event. *)
Theorem set_connection_status_edge_triggered (status : GCConnectionStatus) (c : Client) :
  let c' := fst (_set_connection_status status c) in
  snd (_set_connection_status status c) = Return tt /\
  connection_status c' = status /\
  ready c' = status_eqb (connection_status c') HAVE_SESSION /\
  emitted c' =
    emitted c
    ++ (if status_eqb (connection_status c') (connection_status c) then []
        else [(KStr "connection_status", [ArgStatus (connection_status c')])])
    ++ (if Bool.eqb (ready c') (ready c) then []
        else [(KStr (if ready c' then "ready" else "notready"), [])]) /\
  emitted (fst (_set_connection_status (connection_status c') c')) = emitted c'.
Proof.
  destruct (_set_connection_status_spec status c) as (cbs & rs & sp & E).
  rewrite E; simpl. repeat split.
  status_step. unfold status_events; simpl.
  destruct (status_eqb_spec status status) as [_|N]; [|congruence].
  rewrite Bool.eqb_reflx. simpl. now rewrite app_nil_r.
Qed.

(** The same from the state a client is built in: a first [NO_SESSION]
    report changes nothing and is silent. *)
Lemma new_client_set_no_session cs w st :
  emitted (fst (_set_connection_status NO_SESSION (new_client cs w st))) = [].
Proof. status_step. reflexivity. Qed.

(** * Transport disconnect and exit *)

Section Loop.

Variable find_proto : Z -> option Proto.
Variable decode_error : Proto -> bytes -> option PyExc.
Variable fill_error : Proto -> PyVal -> option PyExc.
Variable transport_error : SteamClient -> GCMsgHdrProto -> ProtoMessage -> option PyExc.
Variable EMsgGCClientHello : Z.

(** A greenlet that is dead, or absent, does nothing at all. *)
Lemma run_loop_dead steps c :
  greenlet_bool (_retry_welcome_loop c) = false ->
  run_loop find_proto fill_error transport_error EMsgGCClientHello steps c = (c, Return tt).
Proof.
  intros Hd. induction steps as [|s steps IH]; [reflexivity|].
  unfold run_loop in *; simpl. unfold bind at 1.
  assert (Hs : loop_step find_proto fill_error transport_error EMsgGCClientHello s c = (c, Return tt)).
  { destruct s; simpl; unfold knock_begin, knock_wake, bind, get;
      destruct (_retry_welcome_loop c) as [[[] ? ?]|]; simpl in *;
      try reflexivity; discriminate. }
  rewrite Hs. exact IH.
Qed.

(** C8.  On every disconnect notification, whatever the status was: the
    status becomes [NO_SESSION] and the client is not ready; [notready] is
    emitted exactly once if the client was ready and not otherwise; and the
    retry loop is dead afterwards, so that whatever steps the scheduler
    still gives it change nothing: no hello is sent. *)
Theorem handle_disconnect_spec (c : Client) :
  let c' := fst (_handle_disconnect c) in
  snd (_handle_disconnect c) = Return tt /\
  connection_status c' = NO_SESSION /\
  ready c' = false /\
  emitted c' =
    emitted c
    ++ (if status_eqb NO_SESSION (connection_status c) then []
        else [(KStr "connection_status", [ArgStatus NO_SESSION])])
    ++ (if ready c then [(KStr "notready", [])] else []) /\
  greenlet_bool (_retry_welcome_loop c') = false /\
  (forall steps, run_loop find_proto fill_error transport_error EMsgGCClientHello steps c' = (c', Return tt)).
Proof.
  assert (Hk : forall c0, greenlet_bool (_retry_welcome_loop (kill c0)) = false).
  { intros c0. unfold kill. destruct (_retry_welcome_loop c0) as [g|] eqn:Eg; simpl; rewrite ?Eg; auto. }
  assert (Hgen :
    snd (_handle_disconnect c) = Return tt /\
    connection_status (fst (_handle_disconnect c)) = NO_SESSION /\
    ready (fst (_handle_disconnect c)) = false /\
    emitted (fst (_handle_disconnect c)) =
      emitted c ++ status_events (connection_status c) NO_SESSION (ready c) false /\
    greenlet_bool (_retry_welcome_loop (fst (_handle_disconnect c))) = false).
  { unfold _handle_disconnect, bind, get, modify, ret.
    destruct (greenlet_bool (_retry_welcome_loop c)) eqn:Eg.
    - status_step. repeat split.
      + unfold kill; destruct (_retry_welcome_loop c); reflexivity.
      + apply Hk.
    - status_step. repeat split. exact Eg. }
  destruct Hgen as (H1 & H2 & H3 & H4 & H5).
  repeat split; auto.
  - rewrite H4. unfold status_events. destruct (ready c); reflexivity.
  - intros steps. apply run_loop_dead, H5.
Qed.

End Loop.

Lemma kill_dead c : greenlet_bool (_retry_welcome_loop (kill c)) = false.
Proof.
  unfold kill. destruct (_retry_welcome_loop c) as [g|] eqn:Eg; simpl; rewrite ?Eg; auto.
Qed.

Lemma count_occ_list_remove x l :
  count_occ Z.eq_dec (list_remove x l) x = Nat.pred (count_occ Z.eq_dec l x).
Proof.
  induction l as [|y l IH]; simpl; [reflexivity|].
  destruct (Z.eqb_spec y x) as [->|N].
  - destruct (Z.eq_dec x x); [reflexivity|congruence].
  - simpl. destruct (Z.eq_dec y x); [congruence|exact IH].
Qed.

Lemma py_in_false_count x l : py_in x l = false -> count_occ Z.eq_dec l x = 0%nat.
Proof.
  unfold py_in. induction l as [|y l IH]; simpl; [reflexivity|].
  destruct (Z.eqb_spec x y) as [->|N]; simpl; [discriminate|].
  intros H. destruct (Z.eq_dec y x); [congruence|auto].
Qed.

Lemma py_in_count x l : py_in x l = true <-> (count_occ Z.eq_dec l x > 0)%nat.
Proof.
  unfold py_in. rewrite existsb_exists. rewrite <- count_occ_In. split.
  - intros (y & Hy & E). apply Z.eqb_eq in E. subst. exact Hy.
  - intros H. exists x. split; [exact H | apply Z.eqb_refl].
Qed.

Lemma py_in_after_remove x l :
  (count_occ Z.eq_dec l x <= 1)%nat -> py_in x (list_remove x l) = false.
Proof.
  intros H. apply not_true_is_false. intros E. apply py_in_count in E.
  rewrite count_occ_list_remove in E. lia.
Qed.

Section Exit.

Variable find_proto : Z -> option Proto.
Variable decode_error : Proto -> bytes -> option PyExc.
Variable fill_error : Proto -> PyVal -> option PyExc.
Variable transport_error : SteamClient -> GCMsgHdrProto -> ProtoMessage -> option PyExc.
Variable EMsgGCClientHello : Z.

(** What [exit] does, step by step. *)
Lemma exit_effects (c : Client) :
  let c' := fst (exit c) in
  let played := current_games_played (steam c) in
  snd (exit c) = Return tt /\
  greenlet_bool (_retry_welcome_loop c') = false /\
  (forall steps, run_loop find_proto fill_error transport_error EMsgGCClientHello steps c' = (c', Return tt)) /\
  current_games_played (steam c') =
    (if py_in app_id played then list_remove app_id played else played) /\
  count_occ Z.eq_dec (current_games_played (steam c')) app_id =
    Nat.pred (count_occ Z.eq_dec played app_id) /\
  games_played_calls (steam c') =
    games_played_calls (steam c)
    ++ (if py_in app_id played then [list_remove app_id played] else []) /\
  connection_status c' = NO_SESSION /\
  ready c' = false /\
  emitted c' =
    emitted c
    ++ (if status_eqb NO_SESSION (connection_status c) then []
        else [(KStr "connection_status", [ArgStatus NO_SESSION])])
    ++ (if ready c then [(KStr "notready", [])] else []) /\
  connected (steam c') = connected (steam c) /\
  logged_on (steam c') = logged_on (steam c) /\
  sent c' = sent c.
Proof.
  set (c1 := if greenlet_bool (_retry_welcome_loop c) then kill c else c).
  assert (H1 : greenlet_bool (_retry_welcome_loop c1) = false).
  { unfold c1. destruct (greenlet_bool (_retry_welcome_loop c)) eqn:Eg;
      [apply kill_dead | exact Eg]. }
  assert (H2 : steam c1 = steam c /\ connection_status c1 = connection_status c /\
               ready c1 = ready c /\ emitted c1 = emitted c /\ sent c1 = sent c).
  { unfold c1, kill. destruct (greenlet_bool (_retry_welcome_loop c));
      [destruct (_retry_welcome_loop c)|]; repeat split. }
  destruct H2 as (Hs & Hst & Hr & He & Hse).
  assert (Hx : exit c =
    _set_connection_status NO_SESSION
      (if py_in app_id (current_games_played (steam c1))
       then fst (games_played (list_remove app_id (current_games_played (steam c1))) c1)
       else c1)).
  { unfold exit, bind, get, modify, ret, c1.
    destruct (greenlet_bool (_retry_welcome_loop c));
      match goal with
      | |- context [py_in app_id (current_games_played (steam ?x))] =>
          destruct (py_in app_id (current_games_played (steam x)))
      end; reflexivity. }
  cbv zeta. rewrite Hx, Hs. clear Hx.
  assert (Hloop : forall c0, greenlet_bool (_retry_welcome_loop c0) = false ->
                  forall steps, run_loop find_proto fill_error transport_error EMsgGCClientHello steps c0 = (c0, Return tt)).
  { intros c0 H0 steps. now apply run_loop_dead. }
  destruct (py_in app_id (current_games_played (steam c))) eqn:Ein; status_step.
  all: rewrite ?Hs, ?Hst, ?Hr, ?He, ?Hse; unfold status_events; simpl.
  all: repeat split; try (destruct (ready c); reflexivity); auto.
  all: try (intros; apply Hloop; simpl; exact H1).
  all: try apply count_occ_list_remove.
  all: try (rewrite (py_in_false_count _ _ Ein); reflexivity).
  all: try (rewrite app_nil_r; reflexivity).
Qed.


(** C10, as amended.  On every call of [exit]: the retry loop is dead
    afterwards (and does nothing more); if the app id was among the
    declared applications, its first occurrence is taken out and the
    shortened list is declared to steam, otherwise nothing is declared; so
    the app id is still among the declared applications afterwards exactly
    when it was listed more than once; the status becomes [NO_SESSION] and
    the client is not ready, with [notready] emitted exactly if it was
    ready; the transport stays connected and nothing is sent. *)
Theorem exit_spec (c : Client) :
  let c' := fst (exit c) in
  let played := current_games_played (steam c) in
  snd (exit c) = Return tt /\
  greenlet_bool (_retry_welcome_loop c') = false /\
  (forall steps, run_loop find_proto fill_error transport_error EMsgGCClientHello steps c' = (c', Return tt)) /\
  current_games_played (steam c') =
    (if py_in app_id played then list_remove app_id played else played) /\
  count_occ Z.eq_dec (current_games_played (steam c')) app_id =
    Nat.pred (count_occ Z.eq_dec played app_id) /\
  (py_in app_id (current_games_played (steam c')) = true <->
   (2 <= count_occ Z.eq_dec played app_id)%nat) /\
  games_played_calls (steam c') =
    games_played_calls (steam c)
    ++ (if py_in app_id played then [list_remove app_id played] else []) /\
  connection_status c' = NO_SESSION /\
  ready c' = false /\
  emitted c' =
    emitted c
    ++ (if status_eqb NO_SESSION (connection_status c) then []
        else [(KStr "connection_status", [ArgStatus NO_SESSION])])
    ++ (if ready c then [(KStr "notready", [])] else []) /\
  connected (steam c') = connected (steam c) /\
  logged_on (steam c') = logged_on (steam c) /\
  sent c' = sent c.
Proof.
  cbv zeta.
  destruct (exit_effects c) as (H1 & H2 & H3 & H4 & H5 & H6 & H7 & H8 & H9 & H10 & H11 & H12).
  repeat split; try assumption.
  - intros Hin. apply py_in_count in Hin. rewrite H5 in Hin. lia.
  - intros Htwice. apply py_in_count. rewrite H5. lia.
Qed.

End Exit.

(** C10, as stated, fails: the app id is declared twice; [exit] takes one
    occurrence out, and the app id is still among the declared
    applications. *)
Lemma exit_leaves_second_occurrence :
  let c := with_steam {| logged_on := true; connected := true;
                         current_games_played := [570; 10; 570];
                         games_played_calls := [] |} Demo.client in
  current_games_played (steam (fst (exit c))) = [10; 570] /\
  py_in app_id (current_games_played (steam (fst (exit c)))) = true.
Proof. vm_compute. split; reflexivity. Qed.

(** * Message router *)

(** ['job_%d'] tells the job ids apart. *)
Lemma job_key_inj a b : job_key a = job_key b -> a = b.
Proof.
  unfold job_key. cbn [String.append]. intros [= E].
  apply DecimalZ.to_int_inj.
  assert (Hnn : forall z, Z.to_int z <> Decimal.Pos Decimal.Nil /\
                          Z.to_int z <> Decimal.Neg Decimal.Nil).
  { intros [|p|p]; split; cbn; try discriminate;
      intros [= H]; exact (DecimalPos.Unsigned.to_uint_nonnil p H). }
  destruct (Hnn a) as (Ha1 & Ha2). destruct (Hnn b) as (Hb1 & Hb2).
  pose proof (NilZero.isi _ Ha1 Ha2) as Ia. pose proof (NilZero.isi _ Hb1 Hb2) as Ib.
  rewrite E in Ia. congruence.
Qed.

Section Router.

Variable get_emsg_enum : Z -> Z.
Variable find_proto : Z -> option Proto.
Variable decode_error : Proto -> bytes -> option PyExc.
Variable game_data : ProtoMessage -> bytes.
Variable extra_messages : ProtoMessage -> list (Z * bytes).

Lemma _process_gc_message_spec emsg header payload c :
  exists cbs rs sp,
    _process_gc_message get_emsg_enum find_proto decode_error emsg header payload c =
    (mkClient (current_jobid c) (ready c) (connection_status c)
              (_retry_welcome_loop c) (steam c) cbs rs (next_result c) sp
              (emitted c ++ dispatch_events get_emsg_enum find_proto decode_error emsg header payload) (sent c),
     dispatch_result get_emsg_enum find_proto decode_error emsg header payload).
Proof.
  unfold _process_gc_message, dispatch_events, dispatch_result, ParseFromString,
    header_job_id_target, bind, ret, raise.
  destruct (find_proto (get_emsg_enum emsg)) as [proto|].
  - destruct (decode_error proto payload) as [e|].
    + rewrite app_nil_r. destruct c; simpl. do 3 eexists; reflexivity.
    + emit_step. destruct header as [h|h].
      * change 18446744073709551615 with NO_JOB.
        destruct (Z.eqb (job_id_target h) NO_JOB); simpl.
        -- do 3 eexists; reflexivity.
        -- emit_step. rewrite <- app_assoc. do 3 eexists; reflexivity.
      * do 3 eexists; reflexivity.
  - rewrite app_nil_r. destruct c; simpl. do 3 eexists; reflexivity.
Qed.

(** A message without a class, or with a payload that does not decode,
    leaves the client as it was. *)
Lemma _process_gc_message_dropped emsg header payload c :
  dispatch_events get_emsg_enum find_proto decode_error emsg header payload = [] ->
  fst (_process_gc_message get_emsg_enum find_proto decode_error emsg header payload c) = c.
Proof.
  unfold _process_gc_message, dispatch_events, ParseFromString, bind, ret, raise.
  destruct (find_proto (get_emsg_enum emsg)) as [proto|]; [|reflexivity].
  destruct (decode_error proto payload) as [e|]; [reflexivity|discriminate].
Qed.

(** C6.  For every inbound message.  When no message class is registered
    for its type the call returns normally and leaves the client as it was,
    so nothing is emitted.  When a class is registered and the payload does
    not decode as a message of it, the decode error leaves the call and the
    client is as it was: nothing is emitted.  When the payload decodes, the
    decoded message is emitted under the message type; with a protobuf
    header it is then emitted under ['job_<id>'], the decimal
    [job_id_target] after ["job_"], exactly when [job_id_target] is not
    18446744073709551615, and the call returns normally; with a header that
    is not a protobuf (it has no [proto] part to read the target from) the
    call ends in an [AttributeError] after the typed event.  The job keys of
    different targets differ. *)
Theorem process_gc_message_dispatch (emsg : Z) (header : GCHeader)
  (payload : bytes) (c : Client) :
  let out := _process_gc_message get_emsg_enum find_proto decode_error emsg header payload c in
  match find_proto (get_emsg_enum emsg) with
  | None => out = (c, Return tt)
  | Some proto =>
      match decode_error proto payload with
      | Some e => out = (c, Raise e)
      | None =>
          let message := Parsed proto payload in
          match header with
          | HdrProto h =>
              snd out = Return tt /\
              emitted (fst out) =
                emitted c
                ++ [(KMsg (get_emsg_enum emsg), [ArgMsg message])]
                ++ (if Z.eqb (job_id_target h) 18446744073709551615 then []
                    else [(KStr ("job_" ++ NilZero.string_of_int (Z.to_int (job_id_target h)))%string,
                           [ArgMsg message])])
          | HdrPlain _ =>
              (exists msg, snd out = Raise (AttributeError msg)) /\
              emitted (fst out) =
                emitted c ++ [(KMsg (get_emsg_enum emsg), [ArgMsg message])]
          end
      end
  end /\
  (forall jobid, job_key jobid = ("job_" ++ NilZero.string_of_int (Z.to_int jobid))%string) /\
  job_key 7 = "job_7" /\
  job_key 9999 = "job_9999" /\
  (forall a b, job_key a = job_key b -> a = b).
Proof.
  cbv zeta. split; [|repeat split; exact job_key_inj].
  destruct (_process_gc_message_spec emsg header payload c) as (cbs & rs & sp & E).
  destruct (find_proto (get_emsg_enum emsg)) as [proto|] eqn:Ef.
  - destruct (decode_error proto payload) as [e|] eqn:Ed.
    + unfold _process_gc_message, ParseFromString, bind, raise. rewrite Ef, Ed. reflexivity.
    + rewrite E; simpl. unfold dispatch_events, dispatch_result. rewrite Ef, Ed.
      destruct header as [h|h]; (split; [|reflexivity]); [reflexivity|].
      eexists; reflexivity.
  - unfold _process_gc_message. rewrite Ef. reflexivity.
Qed.

Ltac process_step :=
  match goal with
  | |- context [_process_gc_message _ _ _ ?e ?h ?p ?c] =>
      let E := fresh "E" in
      destruct (_process_gc_message_spec e h p c) as (? & ? & ? & E);
      rewrite E; clear E; simpl
  end.

Lemma for_each_extras_spec extras : forall c,
  exists cbs rs sp,
    for_each extras (fun extra =>
      _process_gc_message get_emsg_enum find_proto decode_error
        (fst extra) (HdrProto (new_header (fst extra))) (snd extra)) c =
    (mkClient (current_jobid c) (ready c) (connection_status c)
              (_retry_welcome_loop c) (steam c) cbs rs (next_result c) sp
              (emitted c ++ extras_events get_emsg_enum find_proto decode_error extras)
              (sent c),
     extras_result get_emsg_enum find_proto decode_error extras).
Proof.
  induction extras as [|extra extras IH]; intros c; simpl.
  - rewrite app_nil_r. destruct c; do 3 eexists; reflexivity.
  - unfold bind at 1. process_step.
    destruct (dispatch_result get_emsg_enum find_proto decode_error (fst extra)
                (HdrProto (new_header (fst extra))) (snd extra)) as [[]|e].
    + match goal with |- context [for_each _ _ ?c1] =>
        destruct (IH c1) as (cbs & rs & sp & E); rewrite E; simpl end.
      rewrite <- app_assoc. do 3 eexists; reflexivity.
    + rewrite app_nil_r. do 3 eexists; reflexivity.
Qed.

Lemma dispatch_events_extra extra :
  dispatch_events get_emsg_enum find_proto decode_error
    (fst extra) (HdrProto (new_header (fst extra))) (snd extra) = extra_event get_emsg_enum find_proto decode_error extra.
Proof.
  unfold dispatch_events, extra_event.
  destruct (find_proto (get_emsg_enum (fst extra))) as [proto|]; [|reflexivity].
  destruct (decode_error proto (snd extra)); reflexivity.
Qed.

Lemma extras_events_dispatched extras :
  extras_result get_emsg_enum find_proto decode_error extras = Return tt ->
  extras_events get_emsg_enum find_proto decode_error extras
  = flat_map (extra_event get_emsg_enum find_proto decode_error) extras.
Proof.
  induction extras as [|extra extras IH]; [reflexivity|].
  cbn [extras_result extras_events flat_map]. rewrite dispatch_events_extra.
  destruct (dispatch_result _ _ _ _ _ _) as [[]|e]; [|discriminate].
  intros H. now rewrite (IH H).
Qed.

Lemma extras_events_aborted done failing rest e :
  extras_result get_emsg_enum find_proto decode_error done = Return tt ->
  dispatch_result get_emsg_enum find_proto decode_error (fst failing)
    (HdrProto (new_header (fst failing))) (snd failing) = Raise e ->
  extras_result get_emsg_enum find_proto decode_error (done ++ failing :: rest) = Raise e /\
  extras_events get_emsg_enum find_proto decode_error (done ++ failing :: rest)
  = flat_map (extra_event get_emsg_enum find_proto decode_error) done.
Proof.
  intros Hd Hf. induction done as [|extra done IH].
  - cbn [app extras_result extras_events flat_map]. rewrite Hf. split; [reflexivity|].
    rewrite app_nil_r, dispatch_events_extra.
    revert Hf. unfold dispatch_result, extra_event.
    destruct (find_proto (get_emsg_enum (fst failing))) as [proto|]; [|discriminate].
    destruct (decode_error proto (snd failing)); [reflexivity|discriminate].
  - revert Hd. rewrite <- app_comm_cons.
    cbn [extras_result extras_events flat_map]. rewrite dispatch_events_extra.
    destruct (dispatch_result _ _ _ (fst extra) _ _) as [[]|e']; [|discriminate].
    intros H. destruct (IH H) as (I1 & I2). now rewrite I1, I2.
Qed.

(** Whatever the message, the handler leaves a client in session and
    touches nothing else but the emitter's tables and the trace. *)
Lemma _handle_client_welcome_frame message c :
  exists cbs rs sp events res,
    _handle_client_welcome get_emsg_enum find_proto decode_error game_data
      extra_messages message c =
    (mkClient (current_jobid c) true HAVE_SESSION
              (_retry_welcome_loop c) (steam c) cbs rs (next_result c) sp
              (emitted c ++ events) (sent c),
     res).
Proof.
  unfold _handle_client_welcome, ParseFromString, bind, raise, ret.
  destruct (_set_connection_status_spec HAVE_SESSION c) as (cbs & rs & sp & E).
  rewrite E; simpl.
  destruct (decode_error CMsgDOTAWelcome (game_data message)) as [e|].
  - do 5 eexists; reflexivity.
  - emit_step.
    match goal with |- context [for_each ?l ?f ?c1] =>
      destruct (for_each_extras_spec l c1) as (cbs' & rs' & sp' & E'); rewrite E'; simpl end.
    rewrite <- !app_assoc. do 5 eexists; reflexivity.
Qed.

(** C9.  For every welcome message.  First the status is set to
    [HAVE_SESSION] (with the events of that change), whatever follows.
    Then the [game_data] of the message is decoded as a DOTAWelcome: when
    that fails the decode error leaves the handler and nothing more is
    emitted.  Otherwise [dota_welcome] is emitted with the decoded
    DOTAWelcome, and the extra messages go through [_process_gc_message] in
    order, each with a fresh protobuf header and each adding its typed event
    if a class is registered for its type.  When every extra decodes the
    handler returns normally after the last; the first extra that does not
    decode ends the handler with its decode error, and the extras after it
    are not dispatched. *)
Theorem handle_client_welcome_spec (message : ProtoMessage) (c : Client) :
  let out := _handle_client_welcome get_emsg_enum find_proto decode_error game_data
               extra_messages message c in
  let c1 := fst (_set_connection_status HAVE_SESSION c) in
  connection_status (fst out) = HAVE_SESSION /\
  ready (fst out) = true /\
  match decode_error CMsgDOTAWelcome (game_data message) with
  | Some e => out = (c1, Raise e)
  | None =>
      let submessage := Parsed CMsgDOTAWelcome (game_data message) in
      let extras := extra_messages submessage in
      let typed := fun extra : Z * bytes =>
        match find_proto (get_emsg_enum (fst extra)) with
        | None => []
        | Some proto =>
            match decode_error proto (snd extra) with
            | Some _ => []
            | None => [(KMsg (get_emsg_enum (fst extra)), [ArgMsg (Parsed proto (snd extra))])]
            end
        end in
      let welcome := [(KStr "dota_welcome", [ArgMsg submessage])] in
      snd out = extras_result get_emsg_enum find_proto decode_error extras /\
      (extras_result get_emsg_enum find_proto decode_error extras = Return tt ->
       emitted (fst out) = emitted c1 ++ welcome ++ flat_map typed extras) /\
      (forall done failing rest e,
         extras = done ++ failing :: rest ->
         extras_result get_emsg_enum find_proto decode_error done = Return tt ->
         find_proto (get_emsg_enum (fst failing)) <> None ->
         (forall proto, find_proto (get_emsg_enum (fst failing)) = Some proto ->
                        decode_error proto (snd failing) = Some e) ->
         snd out = Raise e /\
         emitted (fst out) = emitted c1 ++ welcome ++ flat_map typed done) /\
      fst out =
        fst (for_each extras (fun extra =>
               _process_gc_message get_emsg_enum find_proto decode_error
                 (fst extra) (HdrProto (new_header (fst extra))) (snd extra))
             (fst (emit (KStr "dota_welcome") [ArgMsg submessage] c1)))
  end.
Proof.
  cbv zeta. unfold _handle_client_welcome, ParseFromString, bind, raise, ret.
  destruct (_set_connection_status_spec HAVE_SESSION c) as (cbs & rs & sp & E).
  rewrite E; simpl.
  destruct (decode_error CMsgDOTAWelcome (game_data message)) as [e|] eqn:Ed.
  - repeat split.
  - emit_step.
    match goal with |- context [for_each ?l ?f ?c1] =>
      destruct (for_each_extras_spec l c1) as (cbs' & rs' & sp' & E'); rewrite E'; simpl end.
    split; [reflexivity|]. split; [reflexivity|]. split; [reflexivity|].
    split; [|split; [|reflexivity]].
    + intros Hok. rewrite (extras_events_dispatched _ Hok), <- app_assoc. reflexivity.
    + intros done failing rest e Hsplit Hdone Hreg Hfail.
      assert (Hf : dispatch_result get_emsg_enum find_proto decode_error (fst failing)
                     (HdrProto (new_header (fst failing))) (snd failing) = Raise e).
      { unfold dispatch_result.
        destruct (find_proto (get_emsg_enum (fst failing))) as [proto|]; [|congruence].
        now rewrite (Hfail proto eq_refl). }
      destruct (extras_events_aborted done failing rest e Hdone Hf) as (R1 & R2).
      rewrite Hsplit, R1, R2, <- app_assoc. split; reflexivity.
Qed.

End Router.

(** A welcome whose [game_data] does not decode: the status is set and the
    handler raises, [dota_welcome] is not emitted.  And a welcome whose
    second extra does not decode: the third extra is never dispatched. *)
Lemma handle_client_welcome_undecodable :
  let welcome := _handle_client_welcome Demo.get_emsg_enum Demo.find_proto Demo.decode_error
                   Demo.game_data Demo.extra_messages in
  let bad := welcome (Parsed "CMsgClientWelcome" [Byte.xff]) Demo.client in
  let cut := welcome (Parsed "CMsgClientWelcome" [Byte.x00; Byte.x01; Byte.xff; Byte.x02])
               Demo.client in
  (snd bad = Raise (DecodeError "Error parsing message") /\
   emitted (fst bad) =
     [(KStr "connection_status", [ArgStatus HAVE_SESSION]); (KStr "ready", [])]) /\
  (Demo.extra_messages (Parsed CMsgDOTAWelcome [Byte.x00; Byte.x01; Byte.xff; Byte.x02])
   = [(4009, [Byte.x01]); (4009, [Byte.xff]); (4009, [Byte.x02])] /\
   snd cut = Raise (DecodeError "Error parsing message") /\
   emitted (fst cut) =
     [(KStr "connection_status", [ArgStatus HAVE_SESSION]); (KStr "ready", []);
      (KStr "dota_welcome",
       [ArgMsg (Parsed CMsgDOTAWelcome [Byte.x00; Byte.x01; Byte.xff; Byte.x02])]);
      (KMsg 4009, [ArgMsg (Parsed "CMsgConnectionStatus" [Byte.x01])])]).
Proof. vm_compute. repeat split. Qed.


(** An undecodable payload for a type that has a class: the decode error
    leaves [_process_gc_message], and neither the typed event nor the job
    event is emitted. *)
Lemma process_gc_message_undecodable :
  let header := HdrProto (mkHdr Demo.EMsgGCClientConnectionStatus NO_JOB 7) in
  let out := _process_gc_message Demo.get_emsg_enum Demo.find_proto Demo.decode_error
               Demo.EMsgGCClientConnectionStatus header [Byte.xff] Demo.client in
  Demo.find_proto (Demo.get_emsg_enum Demo.EMsgGCClientConnectionStatus)
    = Some "CMsgConnectionStatus" /\
  snd out = Raise (DecodeError "Error parsing message") /\
  emitted (fst out) = [].
Proof. vm_compute. repeat split. Qed.


(** * Sending *)

Section Send.

Variable find_proto : Z -> option Proto.
Variable fill_error : Proto -> PyVal -> option PyExc.
Variable transport_error : SteamClient -> GCMsgHdrProto -> ProtoMessage -> option PyExc.

Lemma _send_cases emsg data proto jobid c :
  (isinstance_dict data = false /\
   _send find_proto fill_error transport_error emsg data proto jobid c =
     (c, Raise (ValueError "data kwarg can only be a dict"))) \/
  (isinstance_dict data = true /\ proto_resolvable find_proto emsg proto = false /\
   exists e, _send find_proto fill_error transport_error emsg data proto jobid c = (c, Raise e)) \/
  (isinstance_dict data = true /\ proto_resolvable find_proto emsg proto = true /\
   exists p,
     (proto = ObjMessageClass p \/ proto = ObjNone /\ find_proto emsg = Some p) /\
     _send find_proto fill_error transport_error emsg data proto jobid c =
       match send_error fill_error transport_error c (send_header emsg jobid) p data with
       | Some e => (c, Raise e)
       | None =>
           (with_sent (sent c ++ [(send_header emsg jobid, Filled p data)]) c, Return tt)
       end).
Proof.
  assert (Hp : forall p,
    (message <- proto_fill_from_dict fill_error p data ;;
     GameCoordinator_send transport_error (send_header emsg jobid) message) c =
    match send_error fill_error transport_error c (send_header emsg jobid) p data with
    | Some e => (c, Raise e)
    | None => (with_sent (sent c ++ [(send_header emsg jobid, Filled p data)]) c, Return tt)
    end).
  { intros p. unfold proto_fill_from_dict, GameCoordinator_send, send_error,
      bind, get, modify, ret, raise.
    destruct (fill_error p data); [reflexivity|].
    destruct (transport_error (steam c) _ _); reflexivity. }
  unfold _send, proto_resolvable.
  destruct (isinstance_dict data); simpl; [right | left; auto].
  destruct proto as [|p|name|v]; simpl.
  - destruct (find_proto emsg) as [p|]; simpl.
    + right. repeat split. exists p. split; [right; auto | apply Hp].
    + left. repeat split. eexists; reflexivity.
  - right. repeat split. exists p. split; [left; auto | apply Hp].
  - left. repeat split. eexists; reflexivity.
  - left. repeat split. eexists; reflexivity.
Qed.

(** Whatever the arguments, [_send] touches nothing but the log of the
    transport. *)
Lemma _send_frame emsg data proto jobid c :
  exists snt r,
    _send find_proto fill_error transport_error emsg data proto jobid c = (with_sent snt c, r).
Proof.
  destruct (_send_cases emsg data proto jobid c)
    as [(Hd & E) | [(Hd & Hp & e & E) | (Hd & Hp & p & _ & E)]]; rewrite E.
  1, 2: exists (sent c); eexists; destruct c; reflexivity.
  destruct (send_error _ _ _ _ _ _).
  - exists (sent c); eexists; destruct c; reflexivity.
  - do 2 eexists; reflexivity.
Qed.

(** C5.  [_send] raises to its caller exactly in these cases: [data] is not
    a dict ([ValueError]); or the class it works with is not a message
    class, which is the [proto] argument when one is given and the result of
    the lookup only when [proto] is [None] ([ValueError] for a class that is
    not a message class, [TypeError] from [issubclass] for [None] and for
    what is no class); or, both guards passed, one of the library calls that
    follow raises: building and serialising the body, or the transport's
    send.  When it raises the client is untouched, so nothing has gone to the
    transport; otherwise it returns normally having handed exactly one
    envelope to the transport, with the message type and the job id of the
    call. *)
Theorem send_raises_iff (emsg : Z) (data : PyVal) (proto : PyObj)
  (jobid : option Z) (c : Client) :
  let out := _send find_proto fill_error transport_error emsg data proto jobid c in
  let header := {| hdr_msg := emsg;
                   job_id_source := match jobid with Some j => j | None => NO_JOB end;
                   job_id_target := NO_JOB |} in
  let class := match proto with
               | ObjNone => find_proto emsg
               | ObjMessageClass p => Some p
               | ObjOtherClass _ | ObjNotAClass _ => None
               end in
  let library_raises := fun p =>
    match fill_error p data with
    | Some e => Some e
    | None => transport_error (steam c) header (Filled p data)
    end in
  (raised out <->
   isinstance_dict data = false \/ class = None \/
   exists p, class = Some p /\ library_raises p <> None) /\
  (isinstance_dict data = false ->
   snd out = Raise (ValueError "data kwarg can only be a dict")) /\
  (isinstance_dict data = true -> class = None ->
   snd out = Raise (match proto with
                    | ObjOtherClass _ =>
                        ValueError "Unable to find proto for emsg, or proto kwarg is invalid"
                    | _ => TypeError "issubclass() arg 1 must be a class"
                    end)) /\
  (isinstance_dict data = true ->
   forall p e, class = Some p -> library_raises p = Some e -> snd out = Raise e) /\
  (raised out -> fst out = c) /\
  (~ raised out ->
     snd out = Return tt /\
     exists p, class = Some p /\
       fst out = with_sent (sent c ++ [(header, Filled p data)]) c).
Proof.
  cbv zeta.
  assert (Hh : send_header emsg jobid =
               {| hdr_msg := emsg;
                  job_id_source := match jobid with Some j => j | None => NO_JOB end;
                  job_id_target := NO_JOB |}).
  { unfold send_header. destruct jobid; reflexivity. }
  rewrite <- Hh. clear Hh.
  change (fun p => match fill_error p data with
                   | Some e => Some e
                   | None => transport_error (steam c) (send_header emsg jobid) (Filled p data)
                   end)
    with (fun p => send_error fill_error transport_error c (send_header emsg jobid) p data).
  cbv beta. unfold raised.
  destruct (_send_cases emsg data proto jobid c)
    as [(Hd & E) | [(Hd & Hp & e & E) | (Hd & Hp & p & Hc & E)]].
  - rewrite E; simpl. rewrite Hd.
    split; [split; [intros _; left; reflexivity | intros _; eexists; reflexivity]|].
    split; [reflexivity|]. split; [discriminate|]. split; [discriminate|].
    split; [reflexivity|]. intros N; exfalso; apply N; eexists; reflexivity.
  - assert (Hcl : match proto with
                  | ObjNone => find_proto emsg
                  | ObjMessageClass p => Some p
                  | ObjOtherClass _ | ObjNotAClass _ => None
                  end = None).
    { revert Hp. unfold proto_resolvable.
      destruct proto; try reflexivity; try discriminate.
      destruct (find_proto emsg); [discriminate|reflexivity]. }
    rewrite Hcl, Hd.
    split; [split; [intros _; right; left; reflexivity | intros _; rewrite E; eexists; reflexivity]|].
    split; [discriminate|].
    split.
    { intros _ _. clear E. unfold _send. rewrite Hd. simpl.
      revert Hcl. destruct proto as [|q|name|v]; try discriminate; intros Hcl;
        try reflexivity.
      rewrite Hcl. reflexivity. }
    split; [discriminate|].
    rewrite E; simpl.
    split; [reflexivity|]. intros N; exfalso; apply N; eexists; reflexivity.
  - assert (Hcl : match proto with
                  | ObjNone => find_proto emsg
                  | ObjMessageClass p => Some p
                  | ObjOtherClass _ | ObjNotAClass _ => None
                  end = Some p).
    { destruct Hc as [-> | (-> & ->)]; reflexivity. }
    rewrite Hcl, Hd, E.
    destruct (send_error fill_error transport_error c (send_header emsg jobid) p data)
      as [e|] eqn:Ee; simpl; unfold send_error in Ee.
    + split; [split; [|intros _; eexists; reflexivity]|].
      { intros _. right; right. exists p. split; [reflexivity|]. rewrite Ee. discriminate. }
      split; [discriminate|]. split; [discriminate|].
      split; [intros _ p' e' [= <-] He'; congruence|].
      split; [reflexivity|]. intros N; exfalso; apply N; eexists; reflexivity.
    + split; [split|].
      { intros (e & He); discriminate. }
      { intros [H | [H | (p' & [= <-] & H)]]; congruence. }
      split; [discriminate|]. split; [discriminate|].
      split; [intros _ p' e' [= <-] He'; congruence|].
      split; [intros (e & He); discriminate|].
      intros _. split; [reflexivity|]. exists p. split; reflexivity.
Qed.

End Send.

(** Arguments that pass both guards of [_send], and still the call raises
    and nothing is sent: a dict with a key that is no field of the class;
    and a [proto] argument that is a class but not a message class, for a
    message type whose class the lookup would find. *)
Lemma send_raises_past_the_guards :
  let send := _send Demo.find_proto Demo.fill_error Demo.transport_error
                Demo.EMsgGCClientHello in
  let bogus := send (PyDict [("bogus", PyInt 1)]) ObjNone None Demo.client in
  let int_class := send (PyDict []) (ObjOtherClass "int") None Demo.client in
  isinstance_dict (PyDict [("bogus", PyInt 1)]) = true /\
  Demo.find_proto Demo.EMsgGCClientHello = Some "CMsgClientHello" /\
  (snd bogus = Raise (KeyError "bogus") /\ sent (fst bogus) = []) /\
  (snd int_class =
     Raise (ValueError "Unable to find proto for emsg, or proto kwarg is invalid") /\
   sent (fst int_class) = []).
Proof. vm_compute. repeat split. Qed.

(** * Job allocator *)

Lemma next_jobid_range cur : 1 <= next_jobid cur <= 9999.
Proof.
  unfold next_jobid, py_or.
  pose proof (Z.mod_pos_bound (cur + 1) 10000 ltac:(lia)).
  destruct (Z.eqb_spec ((cur + 1) mod 10000) 0); lia.
Qed.

(** Inside the range the allocator is the successor on the cycle 1..9999. *)
Lemma next_jobid_cycle j : 1 <= j <= 9999 -> next_jobid j = j mod 9999 + 1.
Proof.
  intros Hj. unfold next_jobid, py_or.
  destruct (Z.eq_dec j 9999) as [->|N]; [reflexivity|].
  rewrite (Z.mod_small (j + 1) 10000) by lia.
  rewrite (Z.mod_small j 9999) by lia.
  destruct (Z.eqb_spec (j + 1) 0); lia.
Qed.

Lemma cycle_from_range first i : 1 <= cycle_from first i <= 9999.
Proof.
  unfold cycle_from.
  pose proof (Z.mod_pos_bound (first - 1 + Z.of_nat i) 9999 ltac:(lia)). lia.
Qed.

Lemma cycle_from_inj first i j :
  Z.of_nat i < 9999 -> Z.of_nat j < 9999 ->
  cycle_from first i = cycle_from first j -> i = j.
Proof.
  unfold cycle_from. intros Hi Hj H.
  pose proof (Z.div_mod (first - 1 + Z.of_nat i) 9999 ltac:(lia)) as Di.
  pose proof (Z.div_mod (first - 1 + Z.of_nat j) 9999 ltac:(lia)) as Dj.
  set (a := (first - 1 + Z.of_nat i) / 9999) in *.
  set (b := (first - 1 + Z.of_nat j) / 9999) in *.
  lia.
Qed.

Lemma cycle_from_NoDup first k :
  Z.of_nat k <= 9999 -> NoDup (map (cycle_from first) (seq 0 k)).
Proof.
  intros Hk. apply NoDup_map_NoDup_ForallPairs; [|apply seq_NoDup].
  intros i j Hi Hj. apply in_seq in Hi. apply in_seq in Hj.
  apply cycle_from_inj; lia.
Qed.

Lemma in_id_range v : In v id_range <-> 1 <= v <= 9999.
Proof.
  unfold id_range. rewrite in_map_iff. split.
  - intros (i & <- & Hi). apply in_seq in Hi. lia.
  - intros Hv. exists (Z.to_nat v). split; [lia|]. apply in_seq. lia.
Qed.

Lemma cycle_from_Permutation first :
  Permutation (map (cycle_from first) (seq 0 (Z.to_nat 9999))) id_range.
Proof.
  apply NoDup_Permutation_bis.
  - apply cycle_from_NoDup. lia.
  - unfold id_range. rewrite !length_map, !length_seq. lia.
  - intros v Hv. apply in_map_iff in Hv. destruct Hv as (i & <- & _).
    apply in_id_range, cycle_from_range.
Qed.

Section JobAllocator.

Variable find_proto : Z -> option Proto.
Variable decode_error : Proto -> bytes -> option PyExc.
Variable fill_error : Proto -> PyVal -> option PyExc.
Variable transport_error : SteamClient -> GCMsgHdrProto -> ProtoMessage -> option PyExc.

(** What [send_job] leaves behind, whether or not [_send] raises: the
    counter holds the new id, the listeners of the job key are gone, and
    the value returned is that key. *)
Lemma send_job_cases emsg data proto c :
  let jobid := next_jobid (current_jobid c) in
  let out := send_job find_proto fill_error transport_error emsg data proto c in
  current_jobid (fst out) = jobid /\
  callbacks (fst out) =
    filter (fun r => negb (key_eqb (reg_event r) (KStr (job_key jobid)))) (callbacks c) /\
  (snd out = Return (job_key jobid) \/ exists e, snd out = Raise e) /\
  ready (fst out) = ready c /\ connection_status (fst out) = connection_status c /\
  next_result (fst out) = next_result c /\ results (fst out) = results c.
Proof.
  cbv zeta. unfold send_job, remove_all_listeners, bind, get, modify, ret.
  cbv beta iota zeta. fold (next_jobid (current_jobid c)).
  match goal with |- context [_send _ _ _ ?e ?d ?p ?j ?c1] =>
    destruct (_send_frame find_proto fill_error transport_error e d p j c1)
      as (snt & [[]|x] & E); rewrite E; simpl end.
  - repeat split; eauto.
  - repeat split; eauto.
Qed.

Lemma job_ids_cycle k : forall call c,
  job_ids find_proto fill_error transport_error k call c = map (cycle_from (next_jobid (current_jobid c))) (seq 0 k).
Proof.
  induction k as [|k IH]; intros call c; [reflexivity|].
  cbn [job_ids]. destruct (call O) as [[emsg data] proto].
  destruct (send_job_cases emsg data proto c) as (Hj & _).
  rewrite IH, Hj. cbn [seq map]. f_equal.
  - unfold cycle_from. pose proof (next_jobid_range (current_jobid c)).
    rewrite Z.mod_small; lia.
  - rewrite <- seq_shift, map_map. apply map_ext. intros i.
    pose proof (next_jobid_range (current_jobid c)) as Hr.
    rewrite (next_jobid_cycle _ Hr). unfold cycle_from.
    replace (next_jobid (current_jobid c) mod 9999 + 1 - 1 + Z.of_nat i)
      with (next_jobid (current_jobid c) mod 9999 + Z.of_nat i) by lia.
    rewrite Zplus_mod_idemp_l. f_equal. f_equal. lia.
Qed.

(** C1, as amended.  Whatever the counter holds, the id [send_job] assigns
    lies in 1..9999 and is the one in the key it returns; 9999 consecutive
    calls assign the ids of one turn of the cycle 1, 2, ..., 9999, 1, ...
    starting at the first of them, so every value of 1..9999 is assigned
    exactly once. *)
Theorem send_job_ids_cycle (call : nat -> Z * PyVal * PyObj) (c : Client) :
  let '(emsg, data, proto) := call O in
  let out := send_job find_proto fill_error transport_error emsg data proto c in
  let ids := job_ids find_proto fill_error transport_error (Z.to_nat 9999) call c in
  1 <= current_jobid (fst out) <= 9999 /\
  (snd out = Return (job_key (current_jobid (fst out))) \/ exists e, snd out = Raise e) /\
  ids = map (cycle_from (current_jobid (fst out))) (seq 0 (Z.to_nat 9999)) /\
  Permutation ids id_range /\
  Forall (fun v => count_occ Z.eq_dec ids v = 1%nat) id_range.
Proof.
  destruct (call O) as [[emsg data] proto] eqn:Ec. cbv zeta.
  destruct (send_job_cases emsg data proto c) as (Hj & _ & Hr & _).
  rewrite Hj. rewrite job_ids_cycle.
  pose proof (cycle_from_Permutation (next_jobid (current_jobid c))) as HP.
  repeat split; try apply next_jobid_range; auto.
  apply Forall_forall. intros v Hv.
  apply NoDup_count_occ'.
  - apply cycle_from_NoDup. lia.
  - eapply Permutation_in; [symmetry; exact HP | exact Hv].
Qed.

End JobAllocator.

(** C1, as stated, fails: 10000 consecutive calls on a new client assign the
    id 1 twice (first and last). *)
Lemma send_job_10000_repeats :
  count_occ Z.eq_dec
    (job_ids Demo.find_proto Demo.fill_error Demo.transport_error (Z.to_nat 10000)
       (fun _ => (Demo.EMsgGCClientHello, PyDict [], ObjNone)) Demo.client) 1 = 2%nat.
Proof.
  rewrite job_ids_cycle.
  change (next_jobid (current_jobid Demo.client)) with 1.
  replace (Z.to_nat 10000) with (Z.to_nat 9999 + 1)%nat by lia.
  rewrite seq_app, map_app, count_occ_app.
  assert (H1 : count_occ Z.eq_dec (map (cycle_from 1) (seq 0 (Z.to_nat 9999))) 1 = 1%nat).
  { apply NoDup_count_occ'.
    - apply cycle_from_NoDup. lia.
    - eapply Permutation_in; [symmetry; apply cycle_from_Permutation|].
      apply in_id_range. lia. }
  rewrite H1. cbn [seq map Nat.add].
  assert (H2 : cycle_from 1 (Z.to_nat 9999) = 1).
  { unfold cycle_from. rewrite Z2Nat.id by lia. reflexivity. }
  rewrite H2. reflexivity.
Qed.

(** * Pending waits *)

Lemma new_client_fresh cs w st : fresh (new_client cs w st).
Proof.
  split; [|constructor].
  unfold new_client; cbn [callbacks next_result]. unfold register. cbn [existsb].
  match goal with |- context [existsb ?f ?l] => destruct (existsb f l) end;
    cbn [map app]; repeat constructor;
    try (destruct (same_registration _ _ _)); cbn; intros; discriminate.
Qed.

Lemma lookup_result_fresh c : fresh c -> lookup_result (next_result c) (results c) = None.
Proof.
  intros (_ & H). induction (results c) as [|[w a] rs IH]; [reflexivity|].
  inversion H as [|? ? Hw Hrs]; subst. simpl in *.
  destruct (Nat.eqb_spec w (next_result c)); [lia|auto].
Qed.

Lemma register_fresh event c :
  fresh c ->
  register event (AsyncResult (next_result c)) true (callbacks c) =
  callbacks c ++ [mkReg event (AsyncResult (next_result c)) true].
Proof.
  intros (H & _). unfold register.
  replace (existsb _ (callbacks c)) with false; [reflexivity|].
  symmetry. apply not_true_is_false. intros E.
  apply existsb_exists in E. destruct E as (r & Hr & E).
  rewrite Forall_forall in H. specialize (H r Hr).
  unfold same_registration in E. apply andb_true_iff in E. destruct E as (_ & E).
  destruct (reg_callback r) as [m|w'] eqn:Ec; simpl in E; [discriminate|].
  apply Nat.eqb_eq in E. specialize (H w' eq_refl). lia.
Qed.

(** The first half of a wait adds its registration behind those present. *)
Lemma wait_event_register_spec event c :
  fresh c ->
  wait_event_register event c =
  (with_callbacks (callbacks c ++ [mkReg event (AsyncResult (next_result c)) true])
     (with_next_result (S (next_result c)) c),
   Return (next_result c)).
Proof.
  intros Hf. unfold wait_event_register, on, bind, get, modify, ret.
  cbv beta iota. cbn [callbacks with_next_result]. rewrite (register_fresh event c Hf).
  reflexivity.
Qed.

Lemma wait_event_register_fresh event c :
  fresh c -> fresh (fst (wait_event_register event c)).
Proof.
  intros Hf. rewrite (wait_event_register_spec event c Hf). destruct Hf as (H1 & H2).
  split; cbn.
  - apply Forall_app. split.
    + eapply Forall_impl; [|exact H1]. cbv beta. intros r Hr w Hw.
      specialize (Hr w Hw). lia.
    + constructor; [|constructor]. cbn. intros w0 [= <-]. lia.
  - eapply Forall_impl; [|exact H2]. cbv beta. intros e He. lia.
Qed.

Lemma park_nothing_happens w timeout c :
  lookup_result w (results c) = None -> timeout <> Some O ->
  park w timeout [] c = (c, None).
Proof.
  intros H Ht. simpl. rewrite H. destruct timeout as [[|t]|]; congruence.
Qed.

Lemma listeners_of_removed event regs :
  listeners_of event (filter (fun r => negb (key_eqb (reg_event r) event)) regs) = [].
Proof.
  unfold listeners_of. induction regs as [|r l IH]; simpl; [reflexivity|].
  destruct (key_eqb (reg_event r) event) eqn:E; simpl; rewrite ?E; exact IH.
Qed.

Lemma filter_all {A} (p : A -> bool) l :
  (forall x, In x l -> p x = true) -> filter p l = l.
Proof.
  induction l as [|x l IH]; intros H; simpl; [reflexivity|].
  rewrite (H x (or_introl eq_refl)). f_equal. apply IH. intros y Hy. apply H. right. exact Hy.
Qed.

(** Taking the newest wait out of the table leaves the table as it was
    before that wait was registered. *)
Lemma filter_new_registration event c :
  fresh c ->
  filter (fun r => negb (same_registration event (AsyncResult (next_result c)) r))
         (callbacks c ++ [mkReg event (AsyncResult (next_result c)) true]) =
  callbacks c.
Proof.
  intros (H & _). rewrite filter_app. cbn [filter].
  unfold same_registration at 2. cbn [reg_event reg_callback listener_eqb].
  rewrite key_eqb_refl, Nat.eqb_refl. cbn [andb negb]. rewrite app_nil_r.
  apply filter_all. intros r Hr. rewrite Forall_forall in H. specialize (H r Hr).
  apply negb_true_iff. unfold same_registration.
  destruct (reg_callback r) as [m|w] eqn:E; cbn [listener_eqb].
  - apply andb_false_r.
  - specialize (H w eq_refl).
    replace (Nat.eqb w (next_result c)) with false; [apply andb_false_r|].
    symmetry. apply Nat.eqb_neq. lia.
Qed.

(** Only the wait just registered has the newest [AsyncResult]. *)
Lemma newest_result_only event c r :
  fresh c ->
  In r (callbacks c ++ [mkReg event (AsyncResult (next_result c)) true]) ->
  is_result (next_result c) r = true -> reg_event r = event.
Proof.
  intros (H & _) Hin Hres. apply in_app_or in Hin. destruct Hin as [Hin|[<-|[]]].
  - rewrite Forall_forall in H. specialize (H r Hin). unfold is_result in Hres.
    destruct (reg_callback r) as [m|w] eqn:E; cbn in Hres; [discriminate|].
    apply Nat.eqb_eq in Hres. specialize (H w eq_refl). lia.
  - reflexivity.
Qed.

(** * Waiting for a message *)

Lemma park_only_ticks w c :
  lookup_result w (results c) = None ->
  forall k timeout,
    park w timeout (repeat Tick k) c =
    (c, match timeout with
        | Some t => if (t <=? k)%nat then Some true else None
        | None => None
        end).
Proof.
  intros Hn. induction k as [|k IH]; intros timeout; simpl; rewrite Hn.
  - destruct timeout as [[|t]|]; reflexivity.
  - destruct timeout as [[|t]|]; [reflexivity| |]; rewrite IH; reflexivity.
Qed.


(** The call in one piece: registration, what [park] reports, and the value
    [wait_msg] makes of it. *)
Lemma wait_msg_unfold event timeout raises env c :
  fresh c ->
  wait_msg event timeout raises env c =
  let w := next_result c in
  match park w timeout env (fst (wait_event_register event c)) with
  | (c1, None) => (c1, Return Blocked)
  | (c1, Some expired) =>
      match lookup_result w (results c1) with
      | Some (a :: _) => (c1, Return (Done (Some a)))
      | Some [] => (c1, Raise IndexError)
      | None =>
          if expired then
            (with_callbacks
               (filter (fun r => negb (same_registration event (AsyncResult w) r))
                       (callbacks c1)) c1,
             if py_bool raises then Raise GeventTimeout else Return (Done None))
          else (c1, Return Blocked)
      end
  end.
Proof.
  intros Hf. unfold wait_msg, wait_event. unfold bind at 1 2.
  rewrite (wait_event_register_spec event c Hf). cbn [fst]. cbv zeta.
  destruct (park (next_result c) timeout env _) as [c1 [expired|]]; [|reflexivity].
  unfold wait_event_wake, remove_listener, bind, get, modify, ret, raise.
  destruct (lookup_result (next_result c) (results c1)) as [[|a args]|]; try reflexivity.
  destruct expired; [|reflexivity]. destruct (py_bool raises); reflexivity.
Qed.

Lemma park_value w timeout env c x :
  lookup_result w (results c) = Some x -> park w timeout env c = (c, Some false).
Proof. intros H. destruct env; simpl; rewrite H; reflexivity. Qed.


Lemma listeners_of_other event key regs :
  key <> event ->
  listeners_of key (filter (fun r => negb (key_eqb (reg_event r) event)) regs) =
  listeners_of key regs.
Proof.
  intros Hk. unfold listeners_of. induction regs as [|r l IH]; simpl; [reflexivity|].
  destruct (key_eqb_spec (reg_event r) event) as [E|N]; simpl.
  - destruct (key_eqb_spec (reg_event r) key) as [E'|N']; [congruence|exact IH].
  - destruct (key_eqb (reg_event r) key); [f_equal|]; exact IH.
Qed.

Section Waits.

Variable find_proto : Z -> option Proto.
Variable fill_error : Proto -> PyVal -> option PyExc.
Variable transport_error : SteamClient -> GCMsgHdrProto -> ProtoMessage -> option PyExc.

(** C3, as amended.  [send_job] takes every listener of the job key it
    allocates out of the table before it sends, whether or not the send
    then raises: no wait is pending for the key it returns, and the waits of
    every other key are as they were.  A wait ([wait_msg], through
    [wait_event]) clears nothing, whatever its timeout: the call starts by
    adding its registration behind the waits already pending for the key,
    which all stay, and goes on from there whatever happens while it waits;
    with nothing but time passing the caller is parked with all of them
    pending, and when its timeout runs down only its own wait is taken out
    again. *)
Theorem waits_per_key (emsg : Z) (data : PyVal) (proto : PyObj) (event : Key)
  (timeout : option nat) (raises : option bool) (k : nat) (c : Client)
  (Hfresh : fresh c) :
  let sent_job := send_job find_proto fill_error transport_error emsg data proto c in
  let jobkey := KStr (job_key (current_jobid (fst sent_job))) in
  let w := next_result c in
  let new := mkReg event (AsyncResult w) true in
  let registered := fst (wait_event_register event c) in
  let waiting := wait_msg event timeout raises (repeat Tick k) c in
  let timed_out := match timeout with Some t => (t <=? k)%nat | None => false end in
  (listeners_of jobkey (callbacks (fst sent_job)) = [] /\
   pending_waits jobkey (fst sent_job) = [] /\
   (forall key, key <> jobkey -> pending_waits key (fst sent_job) = pending_waits key c) /\
   (snd sent_job = Return (job_key (current_jobid (fst sent_job)))
    \/ exists e, snd sent_job = Raise e)) /\
  (callbacks registered = callbacks c ++ [new] /\
   (forall key, pending_waits key registered =
                pending_waits key c ++ (if key_eqb key event then [new] else [])) /\
   (forall env,
      wait_msg event timeout raises env c =
      match park w timeout env registered with
      | (c1, Some expired) =>
          (resp <- wait_event_wake event w (py_bool raises) expired ;;
           wait_msg_result resp) c1
      | (c1, None) => (c1, Return Blocked)
      end)) /\
  (snd waiting =
     (if timed_out
      then if py_bool raises then Raise GeventTimeout else Return (Done None)
      else Return Blocked) /\
   (forall key, pending_waits key (fst waiting) =
                pending_waits key c
                ++ (if key_eqb key event && negb timed_out then [new] else [])) /\
   fresh (fst waiting)).
Proof.
  cbv zeta.
  destruct (send_job_cases find_proto fill_error transport_error emsg data proto c)
    as (Hj & Hc & Hr & _).
  assert (Hl : listeners_of (KStr (job_key (current_jobid
                 (fst (send_job find_proto fill_error transport_error emsg data proto c)))))
                 (callbacks (fst (send_job find_proto fill_error transport_error emsg data proto c))) = []).
  { rewrite Hc, Hj. apply listeners_of_removed. }
  pose proof (wait_event_register_spec event c Hfresh) as Hreg.
  pose proof (lookup_result_fresh _ Hfresh) as Hn.
  assert (Hpend : forall key cbs,
    filter (fun r => match reg_callback r with AsyncResult _ => true | Handler _ => false end)
      (listeners_of key (cbs ++ [mkReg event (AsyncResult (next_result c)) true])) =
    filter (fun r => match reg_callback r with AsyncResult _ => true | Handler _ => false end)
      (listeners_of key cbs)
    ++ (if key_eqb key event then [mkReg event (AsyncResult (next_result c)) true] else [])).
  { intros key cbs. unfold listeners_of. rewrite !filter_app. cbn.
    destruct (key_eqb_spec event key) as [->|N].
    - rewrite key_eqb_refl. reflexivity.
    - destruct (key_eqb_spec key event); [congruence|reflexivity]. }
  split; [|split].
  - split; [exact Hl|]. split; [unfold pending_waits; rewrite Hl; reflexivity|].
    split; [|rewrite Hj; exact Hr].
    intros key Hk. rewrite Hj in Hk. unfold pending_waits. rewrite Hc.
    rewrite (listeners_of_other _ _ _ Hk). reflexivity.
  - rewrite Hreg. cbn [fst callbacks with_callbacks with_next_result].
    split; [reflexivity|]. split.
    + intros key. unfold pending_waits. cbn [callbacks with_callbacks]. apply Hpend.
    + intros env. unfold wait_msg, wait_event. unfold bind at 1 2. rewrite Hreg.
      cbn [fst]. destruct (park _ _ _ _) as [c1 [expired|]]; reflexivity.
  - rewrite (wait_msg_unfold _ _ _ _ _ Hfresh). cbv zeta. rewrite Hreg. cbn [fst].
    rewrite park_only_ticks by exact Hn.
    pose proof (wait_event_register_fresh event c Hfresh) as Hfr.
    rewrite Hreg in Hfr. cbn [fst] in Hfr.
    destruct timeout as [t|]; [destruct (t <=? k)%nat|].
    + cbn [results with_callbacks with_next_result]. rewrite Hn.
      cbn [callbacks with_callbacks fst snd].
      rewrite (filter_new_registration event c Hfresh).
      split; [reflexivity|]. split.
      * intros key. rewrite andb_false_r, app_nil_r. reflexivity.
      * destruct Hfresh as (H1 & H2). split; cbn.
        -- eapply Forall_impl; [|exact H1]. cbv beta. intros r Hr' w Hw.
           specialize (Hr' w Hw). lia.
        -- eapply Forall_impl; [|exact H2]. cbv beta. intros e He. lia.
    + cbn [fst snd]. split; [reflexivity|]. split; [|exact Hfr].
      intros key. rewrite andb_true_r. unfold pending_waits.
      cbn [callbacks with_callbacks]. apply Hpend.
    + cbn [fst snd]. split; [reflexivity|]. split; [|exact Hfr].
      intros key. rewrite andb_true_r. unfold pending_waits.
      cbn [callbacks with_callbacks]. apply Hpend.
Qed.

End Waits.

(** C3 at a client on which one caller already waits for the key
    ['job_1'], with a timeout still running: the first [send_job] allocates
    that key and clears the wait; a second wait for the key leaves both
    pending, and is taken out alone when its timeout has run down. *)
Lemma waits_per_key_witness :
  let c := fst (wait_msg (KStr "job_1") (Some 9%nat) None [] Demo.client) in
  let old := mkReg (KStr "job_1") (AsyncResult 0) true in
  let new := mkReg (KStr "job_1") (AsyncResult 1) true in
  let sent_job := send_job Demo.find_proto Demo.fill_error Demo.transport_error
                    Demo.EMsgGCClientHello (PyDict []) ObjNone c in
  let waiting k := wait_msg (KStr "job_1") (Some 3%nat) None (repeat Tick k) c in
  pending_waits (KStr "job_1") c = [old] /\
  (snd sent_job = Return "job_1" /\ pending_waits (KStr "job_1") (fst sent_job) = []) /\
  (snd (waiting 2%nat) = Return Blocked /\
   pending_waits (KStr "job_1") (fst (waiting 2%nat)) = [old; new]) /\
  (snd (waiting 3%nat) = Return (Done None) /\
   pending_waits (KStr "job_1") (fst (waiting 3%nat)) = [old]).
Proof.
  set (c := fst (wait_msg (KStr "job_1") (Some 9%nat) None [] Demo.client)).
  assert (Hf : fresh c).
  { exact (proj2 (proj2 (proj2 (proj2
      (waits_per_key Demo.find_proto Demo.fill_error Demo.transport_error
         Demo.EMsgGCClientHello (PyDict []) ObjNone (KStr "job_1")
         (Some 9%nat) None 0 Demo.client (new_client_fresh _ _ _)))))). }
  pose proof (waits_per_key Demo.find_proto Demo.fill_error Demo.transport_error
                Demo.EMsgGCClientHello (PyDict []) ObjNone (KStr "job_1")
                (Some 3%nat) None 2 c Hf) as H2.
  pose proof (waits_per_key Demo.find_proto Demo.fill_error Demo.transport_error
                Demo.EMsgGCClientHello (PyDict []) ObjNone (KStr "job_1")
                (Some 3%nat) None 3 c Hf) as H3.
  cbv zeta in H2, H3. cbv zeta.
  destruct H2 as ((_ & S2 & _ & _) & _ & (W2 & P2 & _)).
  destruct H3 as (_ & _ & (W3 & P3 & _)).
  split; [reflexivity|]. split; [split; [reflexivity|exact S2]|].
  split; split.
  - exact W2.
  - exact (P2 (KStr "job_1")).
  - exact W3.
  - exact (P3 (KStr "job_1")).
Defined.

(** C3, as stated, fails: two callers waiting for one message type, or for
    one job key, are both pending. *)
Lemma two_pending_waits_one_key :
  let wait k c := fst (wait_msg k None None [] c) in
  List.length (pending_waits (KMsg Demo.EMsgGCClientConnectionStatus)
            (wait (KMsg Demo.EMsgGCClientConnectionStatus)
               (wait (KMsg Demo.EMsgGCClientConnectionStatus) Demo.client))) = 2%nat /\
  List.length (pending_waits (KStr "job_1")
            (wait (KStr "job_1") (wait (KStr "job_1")
               (fst (send_job Demo.find_proto Demo.fill_error Demo.transport_error Demo.EMsgGCClientHello (PyDict []) ObjNone
                       Demo.client))))) = 2%nat.
Proof. vm_compute. split; reflexivity. Qed.

(** ** A wait and the messages that arrive *)

Lemma find_split {A} (f : A -> bool) l x :
  find f l = Some x ->
  exists pre post, l = pre ++ x :: post /\ existsb f pre = false /\ f x = true.
Proof.
  induction l as [|y l IH]; simpl; [discriminate|].
  destruct (f y) eqn:E.
  - intros [= <-]. exists [], l. auto.
  - intros H. destruct (IH H) as (pre & post & -> & Hp & Hx).
    exists (y :: pre), post. simpl. rewrite E. auto.
Qed.

Lemma find_none_existsb {A} (f : A -> bool) l : find f l = None -> existsb f l = false.
Proof.
  induction l as [|y l IH]; simpl; [reflexivity|].
  destruct (f y); [discriminate|exact IH].
Qed.

(** An [emit] and a wait: an event of the key serves it and takes its
    registration out; any other event leaves it waiting. *)
Lemma emit_waiting key args event w c :
  waiting_for event w c ->
  if key_eqb key event
  then lookup_result w (results (fst (emit key args c))) = Some args /\
       (forall r, In r (callbacks (fst (emit key args c))) -> is_result w r = false)
  else waiting_for event w (fst (emit key args c)).
Proof.
  intros (Hin & Honly & Hn).
  destruct (key_eqb_spec key event) as [->|N].
  - split; [exact (emit_delivers _ _ _ _ _ Hin Hn)|].
    intros r Hr. rewrite emit_callbacks in Hr. apply filter_In in Hr.
    destruct Hr as (Hr & Hk).
    destruct (is_result w r) eqn:E; [|reflexivity].
    rewrite (Honly r Hr E) in Hk. cbn in Hk. rewrite key_eqb_refl in Hk. discriminate.
  - assert (Hk : key_eqb event key = false).
    { destruct (key_eqb_spec event key); congruence. }
    split; [|split].
    + apply emit_keeps_other; [exact Hk | exact Hin].
    + intros r Hr. rewrite emit_callbacks in Hr. apply filter_In in Hr. apply Honly, Hr.
    + apply emit_skips; [|exact Hn]. intros r Hr Hkr.
      destruct (is_result w r) eqn:E; [|reflexivity].
      rewrite (Honly r Hr E) in Hkr. cbn in Hkr. congruence.
Qed.

Lemma emit_all_cons e events c :
  emit_all (e :: events) c = emit_all events (fst (emit (fst e) (snd e) c)).
Proof. reflexivity. Qed.

Lemma emit_all_emitted events : forall c,
  emitted (emit_all events c) = emitted c ++ events.
Proof.
  induction events as [|[k a] events IH]; intros c.
  - cbn. now rewrite app_nil_r.
  - rewrite emit_all_cons, IH. cbn [fst snd].
    destruct (emit_spec k a c) as (cbs & rs & sp & E). rewrite E. cbn.
    now rewrite <- app_assoc.
Qed.

Lemma emit_all_sent events : forall c, sent (emit_all events c) = sent c.
Proof.
  induction events as [|[k a] events IH]; intros c; [reflexivity|].
  rewrite emit_all_cons, IH. cbn [fst snd].
  destruct (emit_spec k a c) as (cbs & rs & sp & E). rewrite E. reflexivity.
Qed.

(** A wait that was served stays served, and out of the table. *)
Lemma emit_all_served w x events : forall c,
  lookup_result w (results c) = Some x ->
  (forall r, In r (callbacks c) -> is_result w r = false) ->
  lookup_result w (results (emit_all events c)) = Some x /\
  (forall r, In r (callbacks (emit_all events c)) -> is_result w r = false).
Proof.
  induction events as [|[k a] events IH]; intros c H1 H2; [split; assumption|].
  rewrite emit_all_cons. apply IH.
  - apply emit_keeps_result, H1.
  - intros r Hr. cbn [fst snd] in Hr. rewrite emit_callbacks in Hr.
    apply filter_In in Hr. apply H2, Hr.
Qed.

Lemma emit_all_waiting event w events : forall c,
  waiting_for event w c ->
  match find (on_key event) events with
  | Some e =>
      lookup_result w (results (emit_all events c)) = Some (snd e) /\
      (forall r, In r (callbacks (emit_all events c)) -> is_result w r = false)
  | None => waiting_for event w (emit_all events c)
  end.
Proof.
  induction events as [|[k a] events IH]; intros c Hw; [exact Hw|].
  rewrite emit_all_cons. cbn [find fst snd]. unfold on_key at 1. cbn [fst].
  pose proof (emit_waiting k a event w c Hw) as H.
  destruct (key_eqb k event).
  - cbn [snd]. destruct H as (H1 & H2). apply emit_all_served; assumption.
  - apply IH, H.
Qed.

(** The wait a call has just registered. *)
Lemma registered_waiting event c :
  fresh c -> waiting_for event (next_result c) (fst (wait_event_register event c)).
Proof.
  intros Hf. rewrite (wait_event_register_spec event c Hf).
  cbn [fst callbacks results with_callbacks with_next_result].
  split; [apply in_or_app; right; left; reflexivity|].
  split; [|apply (lookup_result_fresh _ Hf)].
  intros r Hr Hres. apply in_app_or in Hr. destruct Hr as [Hr|[<-|[]]]; [|reflexivity].
  destruct Hf as (H & _). rewrite Forall_forall in H. specialize (H r Hr).
  unfold is_result in Hres.
  destruct (reg_callback r) as [m|w] eqn:E; cbn in Hres; [discriminate|].
  apply Nat.eqb_eq in Hres. specialize (H w eq_refl). lia.
Qed.

Section Arrivals.

Variable get_emsg_enum : Z -> Z.
Variable find_proto : Z -> option Proto.
Variable decode_error : Proto -> bytes -> option PyExc.

(** A dispatch is the emits of its events. *)
Lemma process_emit_all emsg header payload c :
  fst (_process_gc_message get_emsg_enum find_proto decode_error emsg header payload c) =
  emit_all (dispatch_events get_emsg_enum find_proto decode_error emsg header payload) c.
Proof.
  unfold _process_gc_message, dispatch_events, ParseFromString, header_job_id_target,
    emit_all, bind, ret, raise.
  destruct (find_proto (get_emsg_enum emsg)) as [proto|]; [|reflexivity].
  destruct (decode_error proto payload); [reflexivity|].
  cbn [fold_left fst snd]. emit_step. destruct header as [h|h]; [|reflexivity].
  change 18446744073709551615 with NO_JOB.
  destruct (Z.eqb (job_id_target h) NO_JOB); cbn [negb fold_left fst snd]; [reflexivity|].
  emit_step. reflexivity.
Qed.


(** The caller of a wait through the arrivals: [park] reports what
    [awaited] says, the trace has grown by the events of the arrivals the
    caller has lived through, and a wait that was served was served by the
    first of them that has the key. *)
Lemma park_arrivals event w : forall arrivals timeout c0,
  waiting_for event w c0 ->
  exists c1 events,
    (emitted c1 = emitted c0 ++ events /\ sent c1 = sent c0) /\
    match awaited get_emsg_enum find_proto decode_error event timeout arrivals with
    | StillParked =>
        park w timeout (map (occurrence get_emsg_enum find_proto decode_error) arrivals) c0
        = (c1, None) /\
        waiting_for event w c1 /\ existsb (on_key event) events = false
    | TimedOut =>
        park w timeout (map (occurrence get_emsg_enum find_proto decode_error) arrivals) c0
        = (c1, Some true) /\
        waiting_for event w c1 /\ existsb (on_key event) events = false
    | Served args =>
        park w timeout (map (occurrence get_emsg_enum find_proto decode_error) arrivals) c0
        = (c1, Some false) /\
        lookup_result w (results c1) = Some args /\
        (forall r, In r (callbacks c1) -> is_result w r = false) /\
        exists pre post,
          events = pre ++ (event, args) :: post /\ existsb (on_key event) pre = false
    end.
Proof.
  induction arrivals as [|a arrivals IH]; intros timeout c0 Hw.
  - exists c0, []. rewrite app_nil_r. split; [split; reflexivity|].
    destruct Hw as (Hin & Honly & Hn).
    cbn [map park awaited]. rewrite Hn.
    destruct timeout as [[|t]|]; repeat split; assumption.
  - pose proof Hw as (Hin & Honly & Hn).
    destruct timeout as [[|t]|] eqn:Et.
    + exists c0, []. rewrite app_nil_r. split; [split; reflexivity|].
      cbn [map park awaited]. rewrite Hn. repeat split; assumption.
    + destruct a as [emsg header payload|].
      * cbn [map occurrence park awaited]. rewrite Hn, process_emit_all.
        unfold carried. cbn [arrival_events].
        set (events := dispatch_events get_emsg_enum find_proto decode_error emsg header payload).
        pose proof (emit_all_waiting event w events c0 Hw) as H.
        destruct (find (on_key event) events) as [[k args]|] eqn:Ef; cbn [option_map snd] in *.
        -- destruct H as (H1 & H2).
           exists (emit_all events c0), events. rewrite emit_all_emitted, emit_all_sent.
           split; [split; reflexivity|]. split; [apply (park_value _ _ _ _ args H1)|].
           split; [exact H1|]. split; [exact H2|].
           destruct (find_split _ _ _ Ef) as (pre & post & Hs & Hp & Hk).
           unfold on_key in Hk. cbn [fst] in Hk.
           destruct (key_eqb_spec k event) as [->|]; [|discriminate].
           exists pre, post. split; assumption.
        -- destruct (IH (Some (S t)) (emit_all events c0) H) as (c1 & evs & (He & Hse) & Hrest).
           exists c1, (events ++ evs).
           rewrite He, Hse, emit_all_emitted, emit_all_sent, <- app_assoc.
           split; [split; reflexivity|].
           pose proof (find_none_existsb _ _ Ef) as Hnone.
           destruct (awaited _ _ _ _ _ _); rewrite ?existsb_app, ?Hnone; cbn [orb].
           ++ exact Hrest.
           ++ exact Hrest.
           ++ destruct Hrest as (R1 & R2 & R3 & pre & post & -> & Hp).
              split; [exact R1|]. split; [exact R2|]. split; [exact R3|].
              exists (events ++ pre), post. rewrite <- app_assoc, existsb_app, Hnone.
              split; [reflexivity|exact Hp].
      * cbn [map occurrence park awaited option_map Nat.pred]. rewrite Hn.
        exact (IH (Some t) c0 Hw).
    + destruct a as [emsg header payload|].
      * cbn [map occurrence park awaited]. rewrite Hn, process_emit_all.
        unfold carried. cbn [arrival_events].
        set (events := dispatch_events get_emsg_enum find_proto decode_error emsg header payload).
        pose proof (emit_all_waiting event w events c0 Hw) as H.
        destruct (find (on_key event) events) as [[k args]|] eqn:Ef; cbn [option_map snd] in *.
        -- destruct H as (H1 & H2).
           exists (emit_all events c0), events. rewrite emit_all_emitted, emit_all_sent.
           split; [split; reflexivity|]. split; [apply (park_value _ _ _ _ args H1)|].
           split; [exact H1|]. split; [exact H2|].
           destruct (find_split _ _ _ Ef) as (pre & post & Hs & Hp & Hk).
           unfold on_key in Hk. cbn [fst] in Hk.
           destruct (key_eqb_spec k event) as [->|]; [|discriminate].
           exists pre, post. split; assumption.
        -- destruct (IH None (emit_all events c0) H) as (c1 & evs & (He & Hse) & Hrest).
           exists c1, (events ++ evs).
           rewrite He, Hse, emit_all_emitted, emit_all_sent, <- app_assoc.
           split; [split; reflexivity|].
           pose proof (find_none_existsb _ _ Ef) as Hnone.
           destruct (awaited _ _ _ _ _ _); rewrite ?existsb_app, ?Hnone; cbn [orb].
           ++ exact Hrest.
           ++ exact Hrest.
           ++ destruct Hrest as (R1 & R2 & R3 & pre & post & -> & Hp).
              split; [exact R1|]. split; [exact R2|]. split; [exact R3|].
              exists (events ++ pre), post. rewrite <- app_assoc, existsb_app, Hnone.
              split; [reflexivity|exact Hp].
      * cbn [map occurrence park awaited option_map]. rewrite Hn.
        exact (IH None c0 Hw).
Qed.



(** The first arrival that brings something for the key serves the wait,
    wherever it stands, if it comes before the timeout has run down. *)
Lemma awaited_first event arrival post args : forall pre timeout,
  (forall a, In a pre -> carried get_emsg_enum find_proto decode_error event a = None) ->
  carried get_emsg_enum find_proto decode_error event arrival = Some args ->
  match timeout with Some t => (elapsed pre < t)%nat | None => True end ->
  awaited get_emsg_enum find_proto decode_error event timeout (pre ++ arrival :: post)
  = Served args.
Proof.
  induction pre as [|a pre IH]; intros timeout Hpre Hc Ht.
  - cbn [app awaited]. destruct timeout as [[|t]|]; cbn [elapsed] in Ht; [lia| |].
    + destruct arrival; [rewrite Hc; reflexivity|discriminate].
    + destruct arrival; [rewrite Hc; reflexivity|discriminate].
  - pose proof (Hpre a (or_introl eq_refl)) as Ha.
    assert (Hpre' : forall x, In x pre ->
              carried get_emsg_enum find_proto decode_error event x = None).
    { intros x Hx. apply Hpre. right. exact Hx. }
    rewrite <- app_comm_cons. cbn [awaited].
    destruct timeout as [[|t]|]; cbn [elapsed] in Ht.
    + destruct a; lia.
    + destruct a as [emsg header payload|].
      * rewrite Ha. apply IH; assumption.
      * cbn [option_map Nat.pred]. apply IH; [assumption|assumption|]. cbn. lia.
    + destruct a as [emsg header payload|].
      * rewrite Ha. apply IH; assumption.
      * cbn [option_map]. apply IH; assumption.
Qed.

(** The value of a [wait_msg] call through the arrivals; the call sends
    nothing. *)
Lemma wait_msg_awaited event timeout raises arrivals c :
  fresh c ->
  let out := wait_msg event timeout raises
               (map (occurrence get_emsg_enum find_proto decode_error) arrivals) c in
  snd out =
    match awaited get_emsg_enum find_proto decode_error event timeout arrivals with
    | StillParked => Return Blocked
    | TimedOut => if py_bool raises then Raise GeventTimeout else Return (Done None)
    | Served (a :: _) => Return (Done (Some a))
    | Served [] => Raise IndexError
    end /\
  sent (fst out) = sent c.
Proof.
  intros Hfresh. cbv zeta.
  pose proof (registered_waiting event c Hfresh) as Hw0.
  destruct (park_arrivals event (next_result c) arrivals timeout _ Hw0)
    as (c1 & events & (_ & Hse) & Hpark).
  rewrite (wait_event_register_spec event c Hfresh) in Hse. cbn in Hse.
  rewrite (wait_msg_unfold _ _ _ _ _ Hfresh). cbv zeta.
  destruct (awaited get_emsg_enum find_proto decode_error event timeout arrivals)
    as [| |args].
  - destruct Hpark as (Hp & _). rewrite Hp. split; [reflexivity|exact Hse].
  - destruct Hpark as (Hp & (_ & _ & Hn1) & _). rewrite Hp, Hn1.
    split; [reflexivity|exact Hse].
  - destruct Hpark as (Hp & Hv & _). rewrite Hp, Hv.
    destruct args; split; try reflexivity; exact Hse.
Qed.


End Arrivals.



(** * Reconnection loop *)

Section Knock.

Variable find_proto : Z -> option Proto.
Variable decode_error : Proto -> bytes -> option PyExc.
Variable fill_error : Proto -> PyVal -> option PyExc.
Variable transport_error : SteamClient -> GCMsgHdrProto -> ProtoMessage -> option PyExc.
Variable EMsgGCClientHello : Z.
Variable CMsgClientHello : Proto.

(** The hello of the loop goes out: a class is registered for it, the dict
    of [_knock_on_gc] fills a message of that class, and the transport
    takes the envelope. *)
Hypothesis hello_registered : find_proto EMsgGCClientHello = Some CMsgClientHello.
Hypothesis hello_fills : fill_error CMsgClientHello hello_data = None.
Hypothesis hello_accepted : forall s,
  transport_error s (new_header EMsgGCClientHello) (Filled CMsgClientHello hello_data) = None.

Lemma hello_sent c :
  send find_proto fill_error transport_error EMsgGCClientHello hello_data ObjNone c =
  (with_sent (sent c ++ [(new_header EMsgGCClientHello, Filled CMsgClientHello hello_data)]) c,
   Return tt).
Proof.
  unfold send, _send. cbn [isinstance_dict hello_data negb]. rewrite hello_registered.
  unfold issubclass_Message, proto_fill_from_dict, GameCoordinator_send,
    bind, get, modify, ret.
  cbv beta iota. cbn [negb]. rewrite hello_fills. cbv beta iota.
  rewrite hello_accepted. reflexivity.
Qed.

Lemma knock_begin_no_session n c :
  knocking n c ->
  knock_begin find_proto fill_error transport_error EMsgGCClientHello c =
  (with_retry_welcome_loop
     (Some (mkGreenlet false n (AwaitReady (next_result c) (3 + 2 ^ n))))
     (with_callbacks
        (callbacks c ++ [mkReg (KStr "ready") (AsyncResult (next_result c)) true])
        (with_next_result (S (next_result c))
           (with_sent (sent c ++ [(new_header EMsgGCClientHello,
                                   Filled CMsgClientHello hello_data)]) c))),
   Return tt).
Proof.
  intros (Hr & Hl & Hf).
  unfold knock_begin. unfold bind at 1. unfold get at 1. cbv beta iota.
  rewrite Hl, Hr. cbn [negb]. rewrite hello_sent.
  set (c1 := with_sent _ c).
  assert (Hf1 : fresh c1) by exact Hf.
  unfold bind. rewrite (wait_event_register_spec (KStr "ready") c1 Hf1).
  reflexivity.
Qed.

Lemma knock_wake_timed_out n w timeout c :
  _retry_welcome_loop c = Some (mkGreenlet false n (AwaitReady w timeout)) ->
  lookup_result w (results c) = None ->
  knock_wake true c =
  (with_retry_welcome_loop (Some (mkGreenlet false (Z.min (n + 1) 4) AtLoopTop))
     (with_callbacks
        (filter (fun r => negb (same_registration (KStr "ready") (AsyncResult w) r))
                (callbacks c)) c),
   Return tt).
Proof.
  intros Hl Hn. unfold knock_wake. unfold bind at 1. unfold get at 1. cbv beta iota.
  rewrite Hl. unfold wait_event_wake, remove_listener, bind, get, modify, ret, set_greenlet.
  cbv beta iota. rewrite Hn. reflexivity.
Qed.

Lemma knock_wake_served n w timeout args expired c :
  _retry_welcome_loop c = Some (mkGreenlet false n (AwaitReady w timeout)) ->
  lookup_result w (results c) = Some args ->
  knock_wake expired c =
  (with_retry_welcome_loop (Some (mkGreenlet false (Z.min (n + 1) 4) AtLoopTop)) c,
   Return tt).
Proof.
  intros Hl Hn. unfold knock_wake. unfold bind at 1. unfold get at 1. cbv beta iota.
  rewrite Hl. unfold wait_event_wake, bind, get, modify, ret, set_greenlet.
  cbv beta iota. rewrite Hn. reflexivity.
Qed.

Lemma knock_wake_session_lost n w args expired c :
  _retry_welcome_loop c = Some (mkGreenlet false n (AwaitNotReady w)) ->
  lookup_result w (results c) = Some args ->
  knock_wake expired c =
  (with_retry_welcome_loop (Some (mkGreenlet false 1 (Sleeping 1))) c, Return tt).
Proof.
  intros Hl Hn. unfold knock_wake. unfold bind at 1. unfold get at 1. cbv beta iota.
  rewrite Hl. unfold wait_event_wake, bind, get, modify, ret, set_greenlet.
  cbv beta iota. rewrite Hn. reflexivity.
Qed.

Lemma knock_wake_slept n seconds c :
  _retry_welcome_loop c = Some (mkGreenlet false n (Sleeping seconds)) ->
  knock_wake true c =
  (with_retry_welcome_loop (Some (mkGreenlet false n AtLoopTop)) c, Return tt).
Proof.
  intros Hl. unfold knock_wake. unfold bind at 1. unfold get at 1. cbv beta iota.
  rewrite Hl. reflexivity.
Qed.

(** One round without an answer: hello, the timeout [3 + 2^n], and back
    at the top with [n] one higher, at most 4. *)
Lemma knock_round n c :
  knocking n c ->
  let c1 := fst (knock_begin find_proto fill_error transport_error EMsgGCClientHello c) in
  let c2 := fst (knock_wake true c1) in
  awaited_timeout c1 = Some (3 + 2 ^ n) /\
  sent c2 = sent c ++ [(new_header EMsgGCClientHello, Filled CMsgClientHello hello_data)] /\
  knocking (Z.min (n + 1) 4) c2.
Proof.
  intros Hk. cbv zeta. rewrite (knock_begin_no_session n c Hk). cbn [fst].
  destruct Hk as (Hr & Hl & Hf).
  split; [reflexivity|].
  erewrite knock_wake_timed_out;
    [ | reflexivity | cbn; apply (lookup_result_fresh _ Hf) ].
  cbn [fst]. split; [reflexivity|]. split; [exact Hr|]. split; [reflexivity|].
  destruct Hf as (H1 & H2). split; cbn.
  - apply Forall_forall. intros r Hin. apply filter_In in Hin. destruct Hin as (Hin & _).
    apply in_app_or in Hin. destruct Hin as [Hin|[<-|[]]].
    + rewrite Forall_forall in H1. intros w Hw. specialize (H1 r Hin w Hw). lia.
    + cbn. intros w [= <-]. lia.
  - eapply Forall_impl; [|exact H2]. cbv beta. intros e He. lia.
Qed.

Lemma retry_timeouts_spec k : forall n c,
  n <= 4 -> knocking n c ->
  retry_timeouts find_proto fill_error transport_error EMsgGCClientHello k c = map (fun i => 3 + 2 ^ Z.min (n + Z.of_nat i) 4) (seq 0 k).
Proof.
  induction k as [|k IH]; intros n c Hn Hk; [reflexivity|].
  destruct (knock_round n c Hk) as (Ht & _ & Hk2).
  cbn [retry_timeouts]. rewrite Ht.
  rewrite (IH (Z.min (n + 1) 4) _ ltac:(lia) Hk2). cbn [seq map]. f_equal.
  - do 2 f_equal. lia.
  - rewrite <- seq_shift, map_map. apply map_ext. intros i. do 2 f_equal. lia.
Qed.

Lemma knock_begin_session n c :
  ready c = true ->
  _retry_welcome_loop c = Some (mkGreenlet false n AtLoopTop) ->
  fresh c ->
  knock_begin find_proto fill_error transport_error EMsgGCClientHello c =
  (with_retry_welcome_loop (Some (mkGreenlet false n (AwaitNotReady (next_result c))))
     (with_callbacks
        (callbacks c ++ [mkReg (KStr "notready") (AsyncResult (next_result c)) true])
        (with_next_result (S (next_result c)) c)),
   Return tt).
Proof.
  intros Hr Hl Hf.
  unfold knock_begin. unfold bind at 1. unfold get at 1. cbv beta iota.
  rewrite Hl, Hr. cbn [negb].
  unfold bind. rewrite (wait_event_register_spec (KStr "notready") c Hf).
  reflexivity.
Qed.

(** C4, as amended.  The greenlet [launch] starts has [n = 1].  While the
    client has no session every round sends a hello and waits for [ready]
    with timeout [3 + 2^n]; when that wait comes back, served or timed
    out, [n] becomes [min(n + 1, 4)], so rounds that all time out wait
    5, 7, 11, 19, 19, ...  With a session the loop waits for [notready]
    and sends nothing; when that wait is served [n] is 1 again and the
    loop sleeps a second, after which the first hello waits [3 + 2^1].
    The hello is one that goes out: its class is registered, the dict of
    the loop fills it and the transport takes it. *)
Theorem knock_on_gc_backoff (c : Client) (Hknock : knocking 1 c) :
  (forall c',
     _retry_welcome_loop (fst (launch c')) = _retry_welcome_loop c' \/
     _retry_welcome_loop (fst (launch c')) = Some (mkGreenlet false 1 AtLoopTop)) /\
  (forall k,
     retry_timeouts find_proto fill_error transport_error EMsgGCClientHello k c = map (fun i => 3 + 2 ^ Z.min (1 + Z.of_nat i) 4) (seq 0 k)) /\
  retry_timeouts find_proto fill_error transport_error EMsgGCClientHello 6 c = [5; 7; 11; 19; 19; 19] /\
  (forall c' n w timeout,
     _retry_welcome_loop c' = Some (mkGreenlet false n (AwaitReady w timeout)) ->
     _retry_welcome_loop (fst (knock_wake true c')) =
       Some (mkGreenlet false (Z.min (n + 1) 4) AtLoopTop) /\
     (forall args, lookup_result w (results c') = Some args ->
        _retry_welcome_loop (fst (knock_wake false c')) =
          Some (mkGreenlet false (Z.min (n + 1) 4) AtLoopTop))) /\
  (forall c' n,
     ready c' = true -> _retry_welcome_loop c' = Some (mkGreenlet false n AtLoopTop) ->
     fresh c' ->
     let c1 := fst (knock_begin find_proto fill_error transport_error EMsgGCClientHello c') in
     _retry_welcome_loop c1 = Some (mkGreenlet false n (AwaitNotReady (next_result c'))) /\
     sent c1 = sent c') /\
  (forall c' n w args expired,
     _retry_welcome_loop c' = Some (mkGreenlet false n (AwaitNotReady w)) ->
     lookup_result w (results c') = Some args ->
     _retry_welcome_loop (fst (knock_wake expired c')) =
       Some (mkGreenlet false 1 (Sleeping 1))) /\
  (forall c' n seconds,
     _retry_welcome_loop c' = Some (mkGreenlet false n (Sleeping seconds)) ->
     _retry_welcome_loop (fst (knock_wake true c')) = Some (mkGreenlet false n AtLoopTop)) /\
  awaited_timeout (fst (knock_begin find_proto fill_error transport_error EMsgGCClientHello c)) = Some (3 + 2 ^ 1).
Proof.
  split; [|split; [|split; [|split; [|split; [|split; [|split]]]]]].
  - intros c'. unfold launch, bind, get, games_played, set_greenlet, modify, ret.
    cbv beta iota.
    destruct (negb (logged_on (steam c'))); [left; reflexivity|].
    destruct (_ && _); [right|left]; reflexivity.
  - intros k. apply retry_timeouts_spec; [lia|exact Hknock].
  - rewrite (retry_timeouts_spec 6 1 c ltac:(lia) Hknock). reflexivity.
  - intros c' n w timeout Hl. split.
    + destruct (lookup_result w (results c')) as [args|] eqn:E.
      * rewrite (knock_wake_served _ _ _ _ _ _ Hl E). reflexivity.
      * rewrite (knock_wake_timed_out _ _ _ _ Hl E). reflexivity.
    + intros args E. rewrite (knock_wake_served _ _ _ _ _ _ Hl E). reflexivity.
  - intros c' n Hr Hl Hf. cbv zeta.
    rewrite (knock_begin_session n c' Hr Hl Hf). split; reflexivity.
  - intros c' n w args expired Hl E.
    rewrite (knock_wake_session_lost _ _ _ _ _ Hl E). reflexivity.
  - intros c' n seconds Hl. rewrite (knock_wake_slept _ _ _ Hl). reflexivity.
  - apply (knock_round 1 c Hknock).
Qed.

End Knock.

Lemma launched_knocking : knocking 1 (fst (launch Demo.client)).
Proof.
  split; [reflexivity|]. split; [reflexivity|].
  split; cbn; repeat constructor; cbn; intros; discriminate.
Qed.

(** C4 on a freshly launched client whose hellos are never answered. *)
Lemma knock_on_gc_backoff_witness :
  retry_timeouts Demo.find_proto Demo.fill_error Demo.transport_error Demo.EMsgGCClientHello 6 (fst (launch Demo.client))
  = [5; 7; 11; 19; 19; 19].
Proof.
  exact (proj1 (proj2 (proj2
    (knock_on_gc_backoff Demo.find_proto Demo.fill_error Demo.transport_error
       Demo.EMsgGCClientHello "CMsgClientHello" eq_refl eq_refl (fun _ => eq_refl)
       (fst (launch Demo.client)) launched_knocking)))).
Defined.

(** C4, as stated, fails: the first hello of a launched client is answered
    by a welcome, and when the wait for [ready] comes back served the loop
    goes on with [n = 2], not 1. *)
Lemma knock_success_does_not_reset :
  let c1 := fst (knock_begin Demo.find_proto Demo.fill_error Demo.transport_error Demo.EMsgGCClientHello
                   (fst (launch Demo.client))) in
  let c2 := fst (_handle_client_welcome Demo.get_emsg_enum Demo.find_proto Demo.decode_error
                   Demo.game_data Demo.extra_messages
                   (Parsed "CMsgClientWelcome" []) c1) in
  let c3 := fst (knock_wake false c2) in
  awaited_timeout c1 = Some 5 /\
  ready c2 = true /\
  _retry_welcome_loop c3 = Some (mkGreenlet false 2 AtLoopTop).
Proof. vm_compute. repeat split. Qed.

(** The whole cycle on the same client: after the welcome the loop waits
    for [notready]; a status report that ends the session wakes it, it
    sleeps, and its next hello waits 5 again. *)
Example knock_after_session_loss :
  let run := fold_left (fun c (m : M unit) => fst (m c)) in
  let c :=
    run [ launch;
          knock_begin Demo.find_proto Demo.fill_error Demo.transport_error Demo.EMsgGCClientHello;
          _handle_client_welcome Demo.get_emsg_enum Demo.find_proto Demo.decode_error
            Demo.game_data Demo.extra_messages (Parsed "CMsgClientWelcome" []);
          knock_wake false;
          knock_begin Demo.find_proto Demo.fill_error Demo.transport_error Demo.EMsgGCClientHello;
          _handle_conn_status NO_SESSION;
          knock_wake false;
          knock_wake true;
          knock_begin Demo.find_proto Demo.fill_error Demo.transport_error Demo.EMsgGCClientHello ]
        Demo.client in
  awaited_timeout c = Some 5 /\ List.length (sent c) = 2%nat /\
  emitted c =
    [ (KStr "connection_status", [ArgStatus HAVE_SESSION]);
      (KStr "ready", []);
      (KStr "dota_welcome", [ArgMsg (Parsed CMsgDOTAWelcome [])]);
      (KStr "connection_status", [ArgStatus NO_SESSION]);
      (KStr "notready", []) ].
Proof. vm_compute. repeat split. Qed.

(** * Further properties *)

(** X4.  A play-session report ends the session exactly when the client is ready
    and another application is being played; otherwise it changes nothing. *)
Theorem handle_play_sess_state_spec (playing_app : Z) (c : Client) :
  let out := _handle_play_sess_state playing_app c in
  snd out = Return tt /\
  if ready c && negb (Z.eqb playing_app 570) then
    connection_status (fst out) = NO_SESSION /\
    ready (fst out) = false /\
    emitted (fst out) =
      emitted c
      ++ (if status_eqb NO_SESSION (connection_status c) then []
          else [(KStr "connection_status", [ArgStatus NO_SESSION])])
      ++ [(KStr "notready", [])]
  else fst out = c.
Proof.
  cbv zeta. unfold _handle_play_sess_state, bind, get. cbv beta iota.
  change app_id with 570.
  destruct (ready c && negb (Z.eqb playing_app 570)) eqn:E; [|split; reflexivity].
  apply andb_true_iff in E. destruct E as (Hr & _).
  status_step. unfold status_events. rewrite Hr. repeat split.
Qed.

(** X3.  [launch] acts only on a logged-on steam client whose retry loop is not
    running and which does not play the application yet: it then declares
    the application to steam and starts the loop with [n = 1]; in every
    other case it leaves the client as it is.  It never raises. *)
Theorem launch_spec (c : Client) :
  let out := launch c in
  let played := current_games_played (steam c) in
  snd out = Return tt /\
  if logged_on (steam c) && negb (greenlet_bool (_retry_welcome_loop c))
     && negb (py_in 570 played)
  then
    _retry_welcome_loop (fst out) = Some (mkGreenlet false 1 AtLoopTop) /\
    current_games_played (steam (fst out)) = played ++ [570] /\
    games_played_calls (steam (fst out)) = games_played_calls (steam c) ++ [played ++ [570]] /\
    sent (fst out) = sent c /\ emitted (fst out) = emitted c /\
    ready (fst out) = ready c /\ connection_status (fst out) = connection_status c
  else fst out = c.
Proof.
  cbv zeta. unfold launch, bind, get, games_played, set_greenlet, modify, ret.
  cbv beta iota. change app_id with 570.
  destruct (logged_on (steam c)); cbn [negb andb]; [|split; reflexivity].
  destruct (negb (greenlet_bool (_retry_welcome_loop c))
            && negb (py_in 570 (current_games_played (steam c))));
    repeat split.
Qed.

(** ** The ready flag over whole runs *)

Section Runs.

Variable get_emsg_enum : Z -> Z.
Variable find_proto : Z -> option Proto.
Variable decode_error : Proto -> bytes -> option PyExc.
Variable fill_error : Proto -> PyVal -> option PyExc.
Variable transport_error : SteamClient -> GCMsgHdrProto -> ProtoMessage -> option PyExc.
Variable game_data : ProtoMessage -> bytes.
Variable extra_messages : ProtoMessage -> list (Z * bytes).
Variable EMsgGCClientHello EMsgGCClientConnectionStatus EMsgGCClientWelcome : Z.

Lemma set_status_matches status c :
  ready_matches_status (fst (_set_connection_status status c)).
Proof. unfold ready_matches_status. status_step. reflexivity. Qed.

Lemma wait_event_register_same event c :
  same_session c (fst (wait_event_register event c)).
Proof. split; reflexivity. Qed.

Lemma wait_event_wake_same event w raises expired c :
  same_session c (fst (wait_event_wake event w raises expired c)).
Proof.
  unfold wait_event_wake, remove_listener, bind, get, modify, ret, raise. cbv beta iota.
  destruct (lookup_result w (results c)); [split; reflexivity|].
  destruct expired; [|split; reflexivity]. destruct raises; split; reflexivity.
Qed.

Lemma send_same emsg data proto jobid c :
  same_session c (fst (_send find_proto fill_error transport_error emsg data proto jobid c)).
Proof.
  destruct (_send_frame find_proto fill_error transport_error emsg data proto jobid c)
    as (snt & [[]|?] & E); rewrite E; split; reflexivity.
Qed.

Lemma knock_begin_same c :
  same_session c (fst (knock_begin find_proto fill_error transport_error EMsgGCClientHello c)).
Proof.
  unfold knock_begin, bind at 1, get at 1. cbv beta iota.
  destruct (_retry_welcome_loop c) as [[[] n p]|]; try (split; reflexivity).
  destruct p; try (split; reflexivity).
  destruct (negb (ready c)); [|split; reflexivity].
  unfold send.
  destruct (_send_frame find_proto fill_error transport_error EMsgGCClientHello hello_data ObjNone None c)
    as (snt & [[]|?] & E); rewrite E; split; reflexivity.
Qed.

Lemma knock_wake_same expired c : same_session c (fst (knock_wake expired c)).
Proof.
  unfold knock_wake, bind at 1, get at 1. cbv beta iota.
  destruct (_retry_welcome_loop c) as [[[] n p]|]; try (split; reflexivity).
  destruct p as [|w t|w|s]; try (split; reflexivity).
  - unfold bind.
    pose proof (wait_event_wake_same (KStr "ready") w false expired c) as H.
    destruct (wait_event_wake (KStr "ready") w false expired c) as [c1 [[r|]|e]];
      exact H.
  - unfold bind.
    pose proof (wait_event_wake_same (KStr "notready") w false false c) as H.
    destruct (wait_event_wake (KStr "notready") w false false c) as [c1 [[r|]|e]];
      exact H.
  - destruct expired; split; reflexivity.
Qed.

Lemma same_session_matches c c' :
  same_session c c' -> ready_matches_status c -> ready_matches_status c'.
Proof. unfold ready_matches_status. intros (-> & ->) H. exact H. Qed.

Lemma perform_matches call c :
  ready_matches_status c -> ready_matches_status (perform get_emsg_enum find_proto decode_error fill_error transport_error game_data extra_messages EMsgGCClientHello call c).
Proof.
  intros Hc. destruct call; cbn [perform].
  - apply set_status_matches.
  - unfold _handle_play_sess_state, bind, get. cbv beta iota.
    destruct (_ && _); [apply set_status_matches | exact Hc].
  - unfold _handle_disconnect, bind, get, modify, ret. cbv beta iota.
    destruct (greenlet_bool _); apply set_status_matches.
  - destruct (_handle_client_welcome_frame get_emsg_enum find_proto decode_error
                game_data extra_messages message c) as (cbs & rs & sp & evs & res & E).
    rewrite E. reflexivity.
  - apply set_status_matches.
  - destruct (_process_gc_message_spec get_emsg_enum find_proto decode_error emsg header payload c)
      as (cbs & rs & sp & E). rewrite E. exact Hc.
  - eapply same_session_matches; [apply send_same | exact Hc].
  - destruct (send_job_cases find_proto fill_error transport_error emsg data proto c) as (_ & _ & _ & Hr & Hs & _).
    eapply same_session_matches; [split; eassumption | exact Hc].
  - eapply same_session_matches; [apply wait_event_register_same | exact Hc].
  - eapply same_session_matches; [apply wait_event_wake_same | exact Hc].
  - eapply same_session_matches; [apply knock_begin_same | exact Hc].
  - eapply same_session_matches; [apply knock_wake_same | exact Hc].
  - unfold launch, bind, get, games_played, set_greenlet, modify, ret. cbv beta iota.
    destruct (negb (logged_on (steam c))); [exact Hc|].
    destruct (_ && _); exact Hc.
  - unfold exit, bind, get, modify, ret, games_played. cbv beta iota.
    destruct (greenlet_bool _);
      match goal with |- context [py_in app_id ?l] => destruct (py_in app_id l) end;
      apply set_status_matches.
Qed.

(** X2.  Whatever the client has gone through since it was built, calls of its
    methods and steps of its greenlets in any order, its ready flag is true
    exactly when its status is [HAVE_SESSION]. *)
Theorem ready_flag_follows_status (calls : list Call) (steam_client : SteamClient) :
  let c := fold_left (fun c call => perform get_emsg_enum find_proto decode_error fill_error transport_error game_data extra_messages EMsgGCClientHello call c) calls
             (new_client EMsgGCClientConnectionStatus EMsgGCClientWelcome steam_client) in
  ready c = status_eqb (connection_status c) HAVE_SESSION.
Proof.
  cbv zeta.
  assert (H : ready_matches_status
                (new_client EMsgGCClientConnectionStatus EMsgGCClientWelcome steam_client))
    by reflexivity.
  revert H. generalize (new_client EMsgGCClientConnectionStatus EMsgGCClientWelcome steam_client).
  induction calls as [|call calls IH]; intros c Hc; [exact Hc|].
  cbn [fold_left]. apply IH. apply perform_matches. exact Hc.
Qed.

End Runs.

(** ** A job and its response *)

Section JobReply.

Variable get_emsg_enum : Z -> Z.
Variable find_proto : Z -> option Proto.
Variable decode_error : Proto -> bytes -> option PyExc.
Variable fill_error : Proto -> PyVal -> option PyExc.
Variable transport_error : SteamClient -> GCMsgHdrProto -> ProtoMessage -> option PyExc.

(** A [send_job] whose arguments pass the guards of [_send] and whose
    message is built and taken by the transport. *)
Lemma send_job_sends emsg data proto p c :
  isinstance_dict data = true ->
  (proto = ObjMessageClass p \/ proto = ObjNone /\ find_proto emsg = Some p) ->
  let jobid := next_jobid (current_jobid c) in
  send_error fill_error transport_error c (send_header emsg (Some jobid)) p data = None ->
  send_job find_proto fill_error transport_error emsg data proto c =
  (with_sent (sent c ++ [(send_header emsg (Some jobid), Filled p data)])
     (with_callbacks
        (filter (fun r => negb (key_eqb (reg_event r) (KStr (job_key jobid)))) (callbacks c))
        (with_current_jobid jobid c)),
   Return (job_key jobid)).
Proof.
  intros Hd Hc. cbv zeta. intros Hs.
  unfold send_job, remove_all_listeners, bind, get, modify, ret.
  cbv beta iota zeta. fold (next_jobid (current_jobid c)).
  match goal with |- context [_send _ _ _ ?e ?d ?p ?j ?c1] =>
    destruct (_send_cases find_proto fill_error transport_error e d p j c1)
      as [(Hd' & _) | [(_ & Hp' & _) | (_ & _ & x & Hx & E)]] end.
  - congruence.
  - exfalso. revert Hp'. unfold proto_resolvable.
    destruct Hc as [-> | (-> & ->)]; discriminate.
  - assert (x = p) as ->.
    { destruct Hc as [-> | (-> & Hf)], Hx as [Hx | (Hx & Hf')]; congruence. }
    rewrite E. unfold send_error in *. cbn [steam with_callbacks with_current_jobid].
    rewrite Hs. reflexivity.
Qed.

(** A job leaves the tables as new as they were. *)
Lemma send_job_fresh emsg data proto c :
  fresh c -> fresh (fst (send_job find_proto fill_error transport_error emsg data proto c)).
Proof.
  intros (H1 & H2).
  destruct (send_job_cases find_proto fill_error transport_error emsg data proto c)
    as (_ & Hc & _ & _ & _ & Hn & Hr).
  split; rewrite Hn; [rewrite Hc | rewrite Hr; exact H2].
  apply Forall_forall. intros r Hr'. apply filter_In in Hr'.
  rewrite Forall_forall in H1. exact (H1 r (proj1 Hr')).
Qed.

(** X1.  A caller sends a job and waits for its key while inbound messages
    are dispatched and time passes.  When the arguments pass the guards and
    the message is built and taken by the transport, the envelope goes out
    with the job id, and the call ends as a wait for the job key does: it
    returns the first message that arrives for the key before the timeout
    has run down.  So a reply of a registered type, whose payload decodes
    and whose protobuf header targets the job, is returned wherever it
    stands among the arrivals, if nothing before it is for the job. *)
Theorem job_response_reaches_waiter (emsg : Z) (data : PyVal) (proto : PyObj)
  (timeout : option nat) (raises : bool) (arrivals : list Arrival) (p : Proto)
  (c : Client)
  (Hfresh : fresh c)
  (Hdata : isinstance_dict data = true)
  (Hclass : proto = ObjMessageClass p \/ proto = ObjNone /\ find_proto emsg = Some p)
  (Hsend : send_error fill_error transport_error c
             (send_header emsg (Some (next_jobid (current_jobid c)))) p data = None) :
  let jobid := next_jobid (current_jobid c) in
  let key := KStr (job_key jobid) in
  let out := send_job_and_wait find_proto fill_error transport_error emsg data proto
               timeout raises
               (map (occurrence get_emsg_enum find_proto decode_error) arrivals) c in
  sent (fst out) = sent c ++ [(send_header emsg (Some jobid), Filled p data)] /\
  snd out =
    match awaited get_emsg_enum find_proto decode_error key timeout arrivals with
    | StillParked => Return Blocked
    | TimedOut => if raises then Raise GeventTimeout else Return (Done None)
    | Served (a :: _) => Return (Done (Some a))
    | Served [] => Raise IndexError
    end /\
  (forall pre reply header payload post q,
     arrivals = pre ++ Inbound reply (HdrProto header) payload :: post ->
     (forall x, In x pre ->
                carried get_emsg_enum find_proto decode_error key x = None) ->
     find_proto (get_emsg_enum reply) = Some q ->
     decode_error q payload = None ->
     job_id_target header = jobid ->
     match timeout with Some t => (elapsed pre < t)%nat | None => True end ->
     snd out = Return (Done (Some (ArgMsg (Parsed q payload))))).
Proof.
  cbv zeta. set (jobid := next_jobid (current_jobid c)) in *.
  pose proof (send_job_fresh emsg data proto c Hfresh) as Hf1.
  pose proof (send_job_sends emsg data proto p c Hdata Hclass Hsend) as Es.
  fold jobid in Es. unfold send_job_and_wait, bind. rewrite Es in *. cbn [fst] in Hf1.
  set (c1 := with_sent _ _) in *.
  destruct (wait_msg_awaited get_emsg_enum find_proto decode_error (KStr (job_key jobid))
              timeout (Some raises) arrivals c1 Hf1) as (Hout & Hsent).
  cbn [py_bool] in Hout.
  split; [rewrite Hsent; reflexivity|]. split; [exact Hout|].
  intros pre reply header payload post q -> Hpre Hq Hdec Htarget Ht.
  rewrite Hout.
  rewrite (awaited_first get_emsg_enum find_proto decode_error (KStr (job_key jobid))
             (Inbound reply (HdrProto header) payload) post
             [ArgMsg (Parsed q payload)] pre timeout Hpre); [reflexivity| |exact Ht].
  unfold carried. cbn [arrival_events]. unfold dispatch_events. rewrite Hq, Hdec, Htarget.
  replace (Z.eqb jobid NO_JOB) with false.
  - cbn [find]. unfold on_key. cbn [fst key_eqb]. rewrite String.eqb_refl. reflexivity.
  - symmetry. apply Z.eqb_neq. pose proof (next_jobid_range (current_jobid c)).
    unfold jobid, NO_JOB. lia.
Qed.

End JobReply.

(** The first job of a new client: the hello, sent as a job, is answered
    by a status message that targets job 1, after a status message that
    targets no job and a unit of time. *)
Lemma job_response_reaches_waiter_witness :
  let status := Demo.EMsgGCClientConnectionStatus in
  let arrivals :=
    [ Inbound status (HdrProto (new_header status)) [Byte.x01];
      Passes;
      Inbound status (HdrProto (mkHdr status NO_JOB 1)) [Byte.x07];
      Passes ] in
  let out := send_job_and_wait Demo.find_proto Demo.fill_error Demo.transport_error
               Demo.EMsgGCClientHello hello_data ObjNone (Some 2%nat) false
               (map (occurrence Demo.get_emsg_enum Demo.find_proto Demo.decode_error) arrivals)
               Demo.client in
  sent (fst out) =
    [(mkHdr Demo.EMsgGCClientHello 1 NO_JOB, Filled "CMsgClientHello" hello_data)] /\
  snd out = Return (Done (Some (ArgMsg (Parsed "CMsgConnectionStatus" [Byte.x07])))).
Proof.
  pose proof (job_response_reaches_waiter Demo.get_emsg_enum Demo.find_proto
                Demo.decode_error Demo.fill_error Demo.transport_error
                Demo.EMsgGCClientHello hello_data ObjNone (Some 2%nat) false
                [ Inbound Demo.EMsgGCClientConnectionStatus
                    (HdrProto (new_header Demo.EMsgGCClientConnectionStatus)) [Byte.x01];
                  Passes;
                  Inbound Demo.EMsgGCClientConnectionStatus
                    (HdrProto (mkHdr Demo.EMsgGCClientConnectionStatus NO_JOB 1)) [Byte.x07];
                  Passes ]
                "CMsgClientHello" Demo.client
                (new_client_fresh _ _ _) eq_refl (or_intror (conj eq_refl eq_refl)) eq_refl)
    as (H1 & H2 & _).
  split; [exact H1 | exact H2].
Defined.

(** ** Leaving and launching again *)

(** [exit] is the status change on the client left by its first two
    steps. *)
Lemma exit_unfold c :
  let c1 := if greenlet_bool (_retry_welcome_loop c) then kill c else c in
  exit c =
  _set_connection_status NO_SESSION
    (if py_in app_id (current_games_played (steam c1))
     then fst (games_played (list_remove app_id (current_games_played (steam c1))) c1)
     else c1).
Proof.
  cbv zeta. unfold exit, bind, get, modify, ret.
  destruct (greenlet_bool (_retry_welcome_loop c));
    match goal with
    | |- context [py_in app_id (current_games_played (steam ?x))] =>
        destruct (py_in app_id (current_games_played (steam x)))
    end; reflexivity.
Qed.

Lemma kill_steam c : steam (kill c) = steam c.
Proof. unfold kill. destruct (_retry_welcome_loop c); reflexivity. Qed.

(** Setting the status a consistent client already has changes nothing. *)
Lemma set_same_status_noop j st g s cb rs nr sp em se :
  _set_connection_status st
    (mkClient j (status_eqb st HAVE_SESSION) st g s cb rs nr sp em se) =
  (mkClient j (status_eqb st HAVE_SESSION) st g s cb rs nr sp em se, Return tt).
Proof.
  unfold _set_connection_status, bind, get, modify, ret. simpl.
  destruct (status_eqb_spec st st) as [_|N]; [|congruence]. simpl.
  destruct (status_eqb st HAVE_SESSION); reflexivity.
Qed.

(** X5.  A second [exit] in a row does nothing: it declares nothing to
    steam, emits nothing and leaves the client as the first left it,
    provided the app id was listed at most once among the games played. *)
Theorem exit_idempotent (c : Client)
  (Honce : (count_occ Z.eq_dec (current_games_played (steam c)) 570%Z <= 1)%nat) :
  exit (fst (exit c)) = (fst (exit c), Return tt).
Proof.
  rewrite (exit_unfold c). cbv zeta.
  set (c1 := if greenlet_bool (_retry_welcome_loop c) then kill c else c).
  assert (Hd : greenlet_bool (_retry_welcome_loop c1) = false).
  { unfold c1. destruct (greenlet_bool (_retry_welcome_loop c)) eqn:E;
      [apply kill_dead | exact E]. }
  assert (Hs : steam c1 = steam c).
  { unfold c1. destruct (greenlet_bool _); [apply kill_steam | reflexivity]. }
  set (c2 := if py_in app_id (current_games_played (steam c1)) then _ else c1).
  assert (Hd2 : greenlet_bool (_retry_welcome_loop c2) = false).
  { unfold c2. destruct (py_in _ _); exact Hd. }
  assert (Hp2 : py_in app_id (current_games_played (steam c2)) = false).
  { unfold c2. rewrite Hs. destruct (py_in app_id (current_games_played (steam c))) eqn:E.
    - cbn. apply py_in_after_remove. exact Honce.
    - rewrite Hs. exact E. }
  destruct (_set_connection_status_spec NO_SESSION c2) as (cbs & rs & sp & E).
  rewrite E. cbn [fst]. rewrite exit_unfold. cbv zeta. cbn [_retry_welcome_loop].
  rewrite Hd2. cbn [steam]. rewrite Hp2. apply (set_same_status_noop _ NO_SESSION).
Qed.

Lemma exit_idempotent_witness :
  exit (fst (exit (fst (launch Demo.client)))) = (fst (exit (fst (launch Demo.client))), Return tt).
Proof.
  apply (exit_idempotent (fst (launch Demo.client))). vm_compute. lia.
Defined.

(** X6.  A second [launch] in a row does nothing: it starts no second
    loop and declares nothing more to steam. *)
Theorem launch_idempotent (c : Client) :
  launch (fst (launch c)) = (fst (launch c), Return tt).
Proof.
  unfold launch, bind, get, games_played, set_greenlet, modify, ret. cbv beta iota.
  destruct (logged_on (steam c)) eqn:El; cbn [negb fst].
  - destruct (negb (greenlet_bool (_retry_welcome_loop c))
              && negb (py_in app_id (current_games_played (steam c)))) eqn:Ec;
      cbn [fst].
    + cbn. rewrite El. reflexivity.
    + rewrite El. cbn [negb]. rewrite Ec. reflexivity.
  - rewrite El. reflexivity.
Qed.

(** X7.  After [exit], [launch] on a logged-on steam client starts a new
    loop with [n = 1] and declares the app again, behind the games that
    remained; the client has no session. *)
Theorem exit_then_launch (c : Client)
  (Hlogged : logged_on (steam c) = true)
  (Honce : (count_occ Z.eq_dec (current_games_played (steam c)) 570%Z <= 1)%nat) :
  let c' := fst (launch (fst (exit c))) in
  let remained := current_games_played (steam (fst (exit c))) in
  _retry_welcome_loop c' = Some (mkGreenlet false 1 AtLoopTop) /\
  count_occ Z.eq_dec remained 570 = 0%nat /\
  current_games_played (steam c') = remained ++ [570] /\
  connection_status c' = NO_SESSION /\ ready c' = false.
Proof.
  cbv zeta. rewrite (exit_unfold c). cbv zeta.
  set (c1 := if greenlet_bool (_retry_welcome_loop c) then kill c else c).
  assert (Hd : greenlet_bool (_retry_welcome_loop c1) = false).
  { unfold c1. destruct (greenlet_bool (_retry_welcome_loop c)) eqn:E;
      [apply kill_dead | exact E]. }
  assert (Hs : steam c1 = steam c).
  { unfold c1. destruct (greenlet_bool _); [apply kill_steam | reflexivity]. }
  set (c2 := if py_in app_id (current_games_played (steam c1)) then _ else c1).
  assert (Hd2 : greenlet_bool (_retry_welcome_loop c2) = false).
  { unfold c2. destruct (py_in _ _); exact Hd. }
  assert (Hp2 : py_in app_id (current_games_played (steam c2)) = false).
  { unfold c2. rewrite Hs. destruct (py_in app_id (current_games_played (steam c))) eqn:E.
    - cbn. apply py_in_after_remove. exact Honce.
    - rewrite Hs. exact E. }
  assert (Hl2 : logged_on (steam c2) = true).
  { unfold c2. destruct (py_in app_id (current_games_played (steam c1)));
      cbn; rewrite Hs; exact Hlogged. }
  destruct (_set_connection_status_spec NO_SESSION c2) as (cbs & rs & sp & E).
  rewrite E. cbn [fst steam].
  unfold launch, bind, get, games_played, set_greenlet, modify, ret. cbv beta iota.
  cbn [steam _retry_welcome_loop]. rewrite Hl2, Hd2, Hp2. cbn.
  repeat split. apply py_in_false_count. exact Hp2.
Qed.

Lemma exit_then_launch_witness :
  _retry_welcome_loop (fst (launch (fst (exit (fst (launch Demo.client))))))
  = Some (mkGreenlet false 1 AtLoopTop).
Proof.
  exact (proj1 (exit_then_launch (fst (launch Demo.client)) eq_refl
                  ltac:(vm_compute; lia))).
Defined.

(** ** What a send leaves behind *)

Section Sends.

Variable find_proto : Z -> option Proto.
Variable decode_error : Proto -> bytes -> option PyExc.
Variable fill_error : Proto -> PyVal -> option PyExc.
Variable transport_error : SteamClient -> GCMsgHdrProto -> ProtoMessage -> option PyExc.

(** X8.  [send_job] takes the next id whether or not the message goes
    out.  With arguments that pass the guards, and the message built and
    taken by the transport, it returns the key of that id and has handed
    the transport one envelope whose [job_id_source] is the id; when a
    library call raises past the guards that exception leaves [send_job];
    with arguments that fail a guard it raises as well.  Whenever it raises
    nothing is sent, and the id is spent all the same: the counter has
    moved on. *)
Theorem send_job_envelope (emsg : Z) (data : PyVal) (proto : PyObj) (c : Client) :
  let out := send_job find_proto fill_error transport_error emsg data proto c in
  let jobid := next_jobid (current_jobid c) in
  let header := {| hdr_msg := emsg; job_id_source := jobid; job_id_target := NO_JOB |} in
  current_jobid (fst out) = jobid /\
  if isinstance_dict data && proto_resolvable find_proto emsg proto then
    exists p,
      (proto = ObjMessageClass p \/ proto = ObjNone /\ find_proto emsg = Some p) /\
      match fill_error p data with
      | Some e => snd out = Raise e /\ sent (fst out) = sent c
      | None =>
          match transport_error (steam c) header (Filled p data) with
          | Some e => snd out = Raise e /\ sent (fst out) = sent c
          | None =>
              snd out = Return (job_key jobid) /\
              sent (fst out) = sent c ++ [(header, Filled p data)]
          end
      end
  else
    raised out /\ sent (fst out) = sent c.
Proof.
  cbv zeta. unfold raised, send_job, remove_all_listeners, bind, get, modify, ret.
  cbv beta iota zeta. fold (next_jobid (current_jobid c)).
  match goal with |- context [_send _ _ _ ?e ?d ?p ?j ?c1] =>
    destruct (_send_cases find_proto fill_error transport_error e d p j c1)
      as [(Hd & E) | [(Hd & Hp & x & E) | (Hd & Hp & x & Hx & E)]] end.
  1, 2: rewrite E, Hd, ?Hp; cbn [andb fst snd current_jobid with_sent sent
                                   with_callbacks with_current_jobid];
        (split; [reflexivity|]); (split; [eexists; reflexivity | reflexivity]).
  unfold send_error, send_header, set_job_id_source, new_header in E.
  cbn [steam sent with_callbacks with_current_jobid hdr_msg job_id_target] in E.
  rewrite Hd, Hp. cbn [andb].
  split; [|exists x; split; [exact Hx|]].
  all: destruct (fill_error x data) as [e|];
         [|destruct (transport_error (steam c) _ _) as [e|]];
         rewrite E; try split; reflexivity.
Qed.

(** X9.  [send] takes no job id: the counter and the listeners stay as
    they are, and the one envelope it hands to the transport, when its
    arguments pass the guards and the message is built and taken by the
    transport, carries no job id in either direction.  When it raises, at a
    guard or from a library call past them, the client is untouched. *)
Theorem send_takes_no_job (emsg : Z) (data : PyVal) (proto : PyObj) (c : Client) :
  let out := send find_proto fill_error transport_error emsg data proto c in
  let header := {| hdr_msg := emsg; job_id_source := NO_JOB; job_id_target := NO_JOB |} in
  current_jobid (fst out) = current_jobid c /\
  callbacks (fst out) = callbacks c /\
  emitted (fst out) = emitted c /\
  if isinstance_dict data && proto_resolvable find_proto emsg proto then
    exists p,
      (proto = ObjMessageClass p \/ proto = ObjNone /\ find_proto emsg = Some p) /\
      match fill_error p data with
      | Some e => out = (c, Raise e)
      | None =>
          match transport_error (steam c) header (Filled p data) with
          | Some e => out = (c, Raise e)
          | None => out = (with_sent (sent c ++ [(header, Filled p data)]) c, Return tt)
          end
      end
  else
    raised out /\ fst out = c.
Proof.
  cbv zeta. unfold raised, send.
  destruct (_send_cases find_proto fill_error transport_error emsg data proto None c)
    as [(Hd & E) | [(Hd & Hp & x & E) | (Hd & Hp & x & Hx & E)]];
    rewrite E, Hd, ?Hp; cbn [andb fst snd].
  - repeat split. eexists; reflexivity.
  - repeat split. eexists; reflexivity.
  - unfold send_error, send_header, new_header.
    split; [|split; [|split]]; try (exists x; split; [exact Hx|]);
      destruct (fill_error x data) as [e|];
      [| destruct (transport_error (steam c) _ _) as [e|] | |
         destruct (transport_error (steam c) _ _) as [e|] | |
         destruct (transport_error (steam c) _ _) as [e|] | |
         destruct (transport_error (steam c) _ _) as [e|]];
      reflexivity.
Qed.

(** X10.  Distinct job ids have distinct keys, so the keys of 9999
    consecutive [send_job] calls are pairwise distinct: no two jobs of one
    turn of the cycle share an event. *)
Theorem job_keys_distinct (call : nat -> Z * PyVal * PyObj) (c : Client) :
  (forall a b, job_key a = job_key b -> a = b) /\
  NoDup (map (fun jobid => KStr (job_key jobid))
             (job_ids find_proto fill_error transport_error (Z.to_nat 9999) call c)).
Proof.
  split; [exact job_key_inj|].
  rewrite job_ids_cycle.
  apply NoDup_map_NoDup_ForallPairs.
  - intros a b _ _ E. apply job_key_inj.
    exact (f_equal (fun k => match k with KStr name => name | KMsg _ => EmptyString end) E).
  - apply cycle_from_NoDup. lia.
Qed.

(** X11.  With arguments that do not pass the guards of [_send],
    [send_job_and_wait] raises at once: it does not wait, no wait is
    registered and nothing is sent. *)
Theorem send_job_and_wait_bad_arguments (emsg : Z) (data : PyVal) (proto : PyObj)
  (timeout : option nat) (raises : bool) (env : list Occurrence) (c : Client)
  (Hbad : isinstance_dict data && proto_resolvable find_proto emsg proto = false) :
  let out := send_job_and_wait find_proto fill_error transport_error emsg data proto timeout raises env c in
  raised out /\
  fst out = fst (send_job find_proto fill_error transport_error emsg data proto c) /\
  sent (fst out) = sent c /\
  next_result (fst out) = next_result c /\
  pending_waits (KStr (job_key (current_jobid (fst out)))) (fst out) = [].
Proof.
  cbv zeta. unfold raised.
  destruct (send_job_cases find_proto fill_error transport_error emsg data proto c) as (Hj & Hc & _ & _ & _ & Hn & _).
  assert (Hr : exists e, snd (send_job find_proto fill_error transport_error emsg data proto c) = Raise e /\
                         sent (fst (send_job find_proto fill_error transport_error emsg data proto c)) = sent c).
  { unfold send_job, remove_all_listeners, bind, get, modify, ret.
    cbv beta iota zeta.
    match goal with |- context [_send _ _ _ ?e ?d ?p ?j ?c1] =>
      destruct (_send_cases find_proto fill_error transport_error e d p j c1)
        as [(Hd & E) | [(Hd & Hp & x & E) | (Hd & Hp & x & _ & E)]] end.
    - rewrite E. eexists. split; reflexivity.
    - rewrite E. eexists. split; reflexivity.
    - rewrite Hd, Hp in Hbad. discriminate. }
  destruct Hr as (e & Er & Hs).
  unfold send_job_and_wait, bind.
  destruct (send_job find_proto fill_error transport_error emsg data proto c) as [c1 r]. cbn [fst snd] in *.
  subst r. cbn [fst snd].
  split; [eexists; reflexivity|]. split; [reflexivity|]. split; [exact Hs|].
  split; [exact Hn|]. unfold pending_waits. rewrite Hc, Hj.
  rewrite listeners_of_removed. reflexivity.
Qed.

End Sends.

Lemma send_job_and_wait_bad_arguments_witness :
  raised (send_job_and_wait Demo.find_proto Demo.fill_error Demo.transport_error Demo.EMsgGCClientHello (PyList []) ObjNone
            None false [] Demo.client).
Proof.
  exact (proj1 (send_job_and_wait_bad_arguments Demo.find_proto Demo.fill_error
                  Demo.transport_error Demo.EMsgGCClientHello
                  (PyList []) ObjNone None false [] Demo.client eq_refl)).
Defined.

(** ** What the emitter's tables keep through a status change *)

(** [_set_connection_status] as the emits it makes. *)
Lemma set_status_unfold status c :
  _set_connection_status status c =
  let c1 := with_connection_status status c in
  let c2 := if status_eqb status (connection_status c) then c1
            else fst (emit (KStr "connection_status") [ArgStatus status] c1) in
  if status_eqb status HAVE_SESSION && negb (ready c)
  then emit (KStr "ready") [] (with_ready true c2)
  else if negb (status_eqb status HAVE_SESSION) && ready c
       then emit (KStr "notready") [] (with_ready false c2)
       else (c2, Return tt).
Proof.
  unfold _set_connection_status, bind, get, modify, ret.
  destruct c as [j r st g s cb rs nr sp em se]; simpl.
  destruct (status_eqb status st); simpl.
  - destruct (status_eqb status HAVE_SESSION), r; reflexivity.
  - emit_step.
    destruct (status_eqb status HAVE_SESSION), r; reflexivity.
Qed.

Section EmitStable.

Variable get_emsg_enum : Z -> Z.
Variable find_proto : Z -> option Proto.
Variable decode_error : Proto -> bytes -> option PyExc.
Variable fill_error : Proto -> PyVal -> option PyExc.
Variable transport_error : SteamClient -> GCMsgHdrProto -> ProtoMessage -> option PyExc.
Variable game_data : ProtoMessage -> bytes.
Variable extra_messages : ProtoMessage -> list (Z * bytes).

(** A property of the emitter's tables that every [emit] keeps. *)
Variable P : Client -> Prop.
Hypothesis P_emit : forall event args c, P c -> P (fst (emit event args c)).
Hypothesis P_tables : forall c c',
  callbacks c' = callbacks c -> results c' = results c ->
  next_result c' = next_result c -> P c -> P c'.

Lemma stable_set_status status c : P c -> P (fst (_set_connection_status status c)).
Proof.
  intros H. rewrite set_status_unfold. cbv zeta.
  set (c1 := with_connection_status status c).
  assert (H1 : P c1) by (apply (P_tables c); auto).
  set (c2 := if status_eqb status (connection_status c) then c1 else _).
  assert (H2 : P c2).
  { unfold c2. destruct (status_eqb status (connection_status c)); [exact H1|].
    apply P_emit. exact H1. }
  destruct (_ && _).
  - apply P_emit. apply (P_tables c2); auto.
  - destruct (_ && _); [|exact H2].
    apply P_emit. apply (P_tables c2); auto.
Qed.

Lemma stable_process emsg header payload c :
  P c -> P (fst (_process_gc_message get_emsg_enum find_proto decode_error emsg header payload c)).
Proof.
  intros H. rewrite process_emit_all.
  revert c H. generalize (dispatch_events get_emsg_enum find_proto decode_error
                            emsg header payload).
  induction l as [|e l IH]; intros c H; [exact H|].
  rewrite emit_all_cons. apply IH, P_emit, H.
Qed.

Lemma stable_extras extras : forall c,
  P c ->
  P (fst (for_each extras (fun extra =>
            _process_gc_message get_emsg_enum find_proto decode_error
              (fst extra) (HdrProto (new_header (fst extra))) (snd extra)) c)).
Proof.
  induction extras as [|extra extras IH]; intros c H; [exact H|].
  cbn [for_each]. unfold bind at 1.
  pose proof (stable_process (fst extra) (HdrProto (new_header (fst extra))) (snd extra) c H) as H1.
  destruct (_process_gc_message_spec get_emsg_enum find_proto decode_error
              (fst extra) (HdrProto (new_header (fst extra))) (snd extra) c) as (cbs & rs & sp & E).
  rewrite E in *. cbn [fst] in H1.
  destruct (dispatch_result _ _ _ _ _ _); [apply IH|]; exact H1.
Qed.

Lemma stable_welcome message c :
  P c ->
  P (fst (_handle_client_welcome get_emsg_enum find_proto decode_error game_data extra_messages
            message c)).
Proof.
  intros H. unfold _handle_client_welcome. unfold bind at 1.
  pose proof (stable_set_status HAVE_SESSION c H) as H1.
  destruct (_set_connection_status_spec HAVE_SESSION c) as (cbs & rs & sp & E).
  rewrite E in *. cbn [fst] in H1. unfold ParseFromString, bind at 1.
  destruct (decode_error CMsgDOTAWelcome (game_data message)); [exact H1|].
  unfold ret at 1. cbv beta iota. unfold bind at 1. rewrite emit_returns.
  apply stable_extras. apply P_emit. exact H1.
Qed.

End EmitStable.

Lemma emit_fresh event args c : fresh c -> fresh (fst (emit event args c)).
Proof.
  intros (H1 & H2). rewrite Forall_forall in H1, H2. split.
  - rewrite emit_callbacks, emit_next_result. apply Forall_forall.
    intros r Hr. apply filter_In in Hr. exact (H1 r (proj1 Hr)).
  - rewrite emit_next_result. apply Forall_forall. intros [w a] Hin.
    apply emit_results_In in Hin. destruct Hin as [Hin|(r & Hr & E)].
    + exact (H2 _ Hin).
    + exact (H1 r Hr w E).
Qed.

Lemma fresh_tables c c' :
  callbacks c' = callbacks c -> results c' = results c ->
  next_result c' = next_result c -> fresh c -> fresh c'.
Proof. unfold fresh. intros -> -> ->. auto. Qed.

Lemma result_tables w x c c' :
  callbacks c' = callbacks c -> results c' = results c ->
  next_result c' = next_result c ->
  lookup_result w (results c) = Some x -> lookup_result w (results c') = Some x.
Proof. intros _ -> _. auto. Qed.

(** A status change that flips the ready flag serves the wait registered
    for the event of that flip. *)
Lemma set_status_serves status w c :
  let flip := KStr (if status_eqb status HAVE_SESSION then "ready" else "notready") in
  ready c = negb (status_eqb status HAVE_SESSION) ->
  In (mkReg flip (AsyncResult w) true) (callbacks c) ->
  (forall r, In r (callbacks c) -> is_result w r = true -> reg_event r = flip) ->
  lookup_result w (results c) = None ->
  lookup_result w (results (fst (_set_connection_status status c))) = Some [].
Proof.
  cbv zeta. intros Hr Hin Honly Hn. rewrite set_status_unfold. cbv zeta.
  set (flip := KStr (if status_eqb status HAVE_SESSION then "ready" else "notready")) in *.
  set (c1 := with_connection_status status c).
  set (c2 := if status_eqb status (connection_status c) then c1 else _).
  assert (H2 : In (mkReg flip (AsyncResult w) true) (callbacks c2) /\
               lookup_result w (results c2) = None).
  { unfold c2. destruct (status_eqb status (connection_status c)); [split; assumption|].
    split.
    - apply emit_keeps_other; [|exact Hin].
      unfold flip. destruct (status_eqb status HAVE_SESSION); reflexivity.
    - apply emit_skips; [|exact Hn].
      intros r Hin' Hk.
      destruct (is_result w r) eqn:Eres; [|reflexivity].
      pose proof (Honly r Hin' Eres) as Ev. rewrite Ev in Hk.
      unfold flip in Hk. destruct (status_eqb status HAVE_SESSION); discriminate. }
  destruct H2 as (Hin2 & Hn2). rewrite Hr.
  destruct (status_eqb status HAVE_SESSION) eqn:Eh; cbn [negb andb].
  - apply (emit_delivers (KStr "ready") [] w true); assumption.
  - apply (emit_delivers (KStr "notready") [] w true); assumption.
Qed.

(** ** The retry loop and the session *)

Lemma registered_fresh event g c :
  fresh c ->
  fresh (with_retry_welcome_loop g
           (with_callbacks (callbacks c ++ [mkReg event (AsyncResult (next_result c)) true])
              (with_next_result (S (next_result c)) c))).
Proof.
  intros Hf. apply (fresh_tables (fst (wait_event_register event c))).
  - rewrite (wait_event_register_spec event c Hf). reflexivity.
  - rewrite (wait_event_register_spec event c Hf). reflexivity.
  - rewrite (wait_event_register_spec event c Hf). reflexivity.
  - apply wait_event_register_fresh. exact Hf.
Qed.

Section Reconnect.

Variable get_emsg_enum : Z -> Z.
Variable find_proto : Z -> option Proto.
Variable decode_error : Proto -> bytes -> option PyExc.
Variable fill_error : Proto -> PyVal -> option PyExc.
Variable transport_error : SteamClient -> GCMsgHdrProto -> ProtoMessage -> option PyExc.
Variable game_data : ProtoMessage -> bytes.
Variable extra_messages : ProtoMessage -> list (Z * bytes).
Variable EMsgGCClientHello : Z.
Variable CMsgClientHello : Proto.

(** As before, the hello of the loop goes out. *)
Hypothesis hello_registered : find_proto EMsgGCClientHello = Some CMsgClientHello.
Hypothesis hello_fills : fill_error CMsgClientHello hello_data = None.
Hypothesis hello_accepted : forall s,
  transport_error s (new_header EMsgGCClientHello) (Filled CMsgClientHello hello_data) = None.

(** One unanswered round, step by step. *)
Lemma unanswered_round n rest c :
  knocking n c ->
  let c2 :=
    with_retry_welcome_loop (Some (mkGreenlet false (Z.min (n + 1) 4) AtLoopTop))
      (with_callbacks (callbacks c)
         (with_retry_welcome_loop
            (Some (mkGreenlet false n (AwaitReady (next_result c) (3 + 2 ^ n))))
            (with_callbacks
               (callbacks c ++ [mkReg (KStr "ready") (AsyncResult (next_result c)) true])
               (with_next_result (S (next_result c))
                  (with_sent (sent c ++ [(new_header EMsgGCClientHello,
                                          Filled CMsgClientHello hello_data)]) c))))) in
  run_loop find_proto fill_error transport_error EMsgGCClientHello (Begin :: Wake true :: rest) c =
  run_loop find_proto fill_error transport_error EMsgGCClientHello rest c2 /\
  knocking (Z.min (n + 1) 4) c2.
Proof.
  intros Hk. cbv zeta. unfold run_loop. cbn [for_each loop_step]. unfold bind at 1.
  rewrite (knock_begin_no_session find_proto fill_error transport_error EMsgGCClientHello
             CMsgClientHello hello_registered hello_fills hello_accepted n c Hk).
  destruct Hk as (Hr & Hl & Hf). unfold bind at 1.
  erewrite knock_wake_timed_out;
    [ | reflexivity | cbn; apply (lookup_result_fresh _ Hf) ].
  cbn [callbacks with_retry_welcome_loop with_callbacks with_next_result with_sent].
  rewrite (filter_new_registration (KStr "ready") c Hf).
  split; [reflexivity|]. split; [exact Hr|]. split; [reflexivity|].
  destruct Hf as (H1 & H2). split; cbn.
  - eapply Forall_impl; [|exact H1]. cbv beta. intros r Hr' w Hw.
    specialize (Hr' w Hw). lia.
  - eapply Forall_impl; [|exact H2]. cbv beta. intros e He. lia.
Qed.

(** X12.  [k] rounds of the retry loop in which no answer comes send
    exactly [k] hellos, each the same envelope without a job id, and leave
    no trace besides: nothing is emitted, the job counter and the status
    stay, and no listener of a timed-out wait remains in the table.  The
    hello is one that goes out. *)
Theorem unanswered_rounds (k : nat) : forall (n : Z) (c : Client) (Hknock : knocking n c),
  let c' := fst (run_loop find_proto fill_error transport_error EMsgGCClientHello
                   (List.concat (repeat [Begin; Wake true] k)) c) in
  sent c' = sent c ++ repeat (new_header EMsgGCClientHello,
                              Filled CMsgClientHello hello_data) k /\
  emitted c' = emitted c /\
  current_jobid c' = current_jobid c /\
  callbacks c' = callbacks c /\
  ready c' = false /\
  connection_status c' = connection_status c.
Proof.
  induction k as [|k IH]; intros n c Hknock; cbv zeta.
  - cbn. rewrite app_nil_r. destruct Hknock as (Hr & _). repeat split. exact Hr.
  - cbn [repeat List.concat app].
    destruct (unanswered_round n (List.concat (repeat [Begin; Wake true] k)) c Hknock)
      as (E & Hk2).
    rewrite E. specialize (IH _ _ Hk2). cbv zeta in IH.
    destruct IH as (I1 & I2 & I3 & I4 & I5 & I6).
    rewrite I1, I2, I3, I4, I5, I6. cbn. rewrite <- app_assoc. repeat split.
Qed.

(** X14.  A welcome that arrives while the loop waits for [ready] ends
    the knocking: the client is ready, the loop comes back from its wait
    without having timed out, goes on to wait for [notready], and the one
    hello of that round is all it has sent.  This holds whether or not the
    welcome then decodes; the hello is one that goes out. *)
Theorem welcome_stops_knocking (n : Z) (message : ProtoMessage) (c : Client)
  (Hknock : knocking n c) :
  let c1 := fst (knock_begin find_proto fill_error transport_error EMsgGCClientHello c) in
  let c2 := fst (_handle_client_welcome get_emsg_enum find_proto decode_error game_data
                   extra_messages message c1) in
  let c3 := fst (knock_wake false c2) in
  let c4 := fst (knock_begin find_proto fill_error transport_error EMsgGCClientHello c3) in
  ready c2 = true /\
  _retry_welcome_loop c3 = Some (mkGreenlet false (Z.min (n + 1) 4) AtLoopTop) /\
  _retry_welcome_loop c4 =
    Some (mkGreenlet false (Z.min (n + 1) 4) (AwaitNotReady (next_result c3))) /\
  sent c4 = sent c ++ [(new_header EMsgGCClientHello, Filled CMsgClientHello hello_data)].
Proof.
  cbv zeta.
  rewrite (knock_begin_no_session find_proto fill_error transport_error EMsgGCClientHello
             CMsgClientHello hello_registered hello_fills hello_accepted n c Hknock). cbn [fst].
  destruct Hknock as (Hr & Hl & Hf).
  set (w := next_result c).
  set (c1 := with_retry_welcome_loop _ _).
  assert (Hf1 : fresh c1).
  { unfold c1. apply (fresh_tables
      (with_retry_welcome_loop None
         (with_callbacks (callbacks c ++ [mkReg (KStr "ready") (AsyncResult (next_result c)) true])
            (with_next_result (S (next_result c)) c)))); try reflexivity.
    apply registered_fresh. exact Hf. }
  set (welcome := _handle_client_welcome get_emsg_enum find_proto decode_error game_data
                    extra_messages message).
  (* the value of the wait *)
  assert (Hv : lookup_result w (results (fst (welcome c1))) = Some []).
  { unfold welcome, _handle_client_welcome. unfold bind at 1.
    assert (Hs : lookup_result w (results (fst (_set_connection_status HAVE_SESSION c1)))
                 = Some []).
    { apply (set_status_serves HAVE_SESSION w c1).
      - exact Hr.
      - unfold c1. cbn. apply in_or_app. right. left. reflexivity.
      - intros r Hin Hres. unfold c1 in Hin. cbn in Hin.
        apply (newest_result_only (KStr "ready") c r Hf Hin Hres).
      - unfold c1. cbn. apply (lookup_result_fresh _ Hf). }
    destruct (_set_connection_status_spec HAVE_SESSION c1) as (cbs & rs & sp & E).
    rewrite E in *. cbn [fst] in Hs. unfold ParseFromString, bind at 1.
    destruct (decode_error CMsgDOTAWelcome (game_data message)); [exact Hs|].
    unfold ret at 1. cbv beta iota. unfold bind at 1. rewrite emit_returns.
    apply (stable_extras get_emsg_enum find_proto decode_error
             (fun c => lookup_result w (results c) = Some [])).
    - intros event args c0. apply emit_keeps_result.
    - apply emit_keeps_result. exact Hs. }
  (* the rest of the client after the welcome *)
  assert (Hf2 : fresh (fst (welcome c1))).
  { apply (stable_welcome get_emsg_enum find_proto decode_error game_data extra_messages fresh
             emit_fresh fresh_tables). exact Hf1. }
  assert (Hc2 : ready (fst (welcome c1)) = true /\
                _retry_welcome_loop (fst (welcome c1)) = _retry_welcome_loop c1 /\
                sent (fst (welcome c1)) = sent c1).
  { unfold welcome.
    destruct (_handle_client_welcome_frame get_emsg_enum find_proto decode_error
                game_data extra_messages message c1) as (cbs & rs & sp & evs & res & E).
    rewrite E. repeat split. }
  destruct Hc2 as (Hr2 & Hl2 & Hs2).
  set (c2 := fst (welcome c1)) in *.
  assert (Hl2' : _retry_welcome_loop c2 =
                 Some (mkGreenlet false n (AwaitReady w (3 + 2 ^ n)))).
  { rewrite Hl2. reflexivity. }
  rewrite (knock_wake_served n w (3 + 2 ^ n) [] false c2 Hl2' Hv). cbn [fst].
  set (c3 := with_retry_welcome_loop _ c2).
  assert (Hf3 : fresh c3) by (apply (fresh_tables c2); auto).
  rewrite (knock_begin_session find_proto fill_error transport_error EMsgGCClientHello (Z.min (n + 1) 4) c3
             Hr2 eq_refl Hf3). cbn [fst].
  split; [exact Hr2|]. split; [reflexivity|]. split; [reflexivity|].
  cbn. rewrite Hs2. reflexivity.
Qed.

(** X15.  A status report that ends the session while the loop waits for
    [notready] starts the knocking again: the loop wakes with [n = 1],
    sleeps one second, and then sends one hello whose wait has the timeout
    [3 + 2^1 = 5], whatever [n] was before.  The hello is one that goes
    out. *)
Theorem session_loss_restarts_knocking (n : Z) (status : GCConnectionStatus)
  (c : Client)
  (Hready : ready c = true)
  (Hloop : _retry_welcome_loop c = Some (mkGreenlet false n AtLoopTop))
  (Hfresh : fresh c)
  (Hstatus : status_eqb status HAVE_SESSION = false) :
  let c1 := fst (knock_begin find_proto fill_error transport_error EMsgGCClientHello c) in
  let c2 := fst (_handle_conn_status status c1) in
  let c3 := fst (knock_wake false c2) in
  let c4 := fst (knock_wake true c3) in
  let c5 := fst (knock_begin find_proto fill_error transport_error EMsgGCClientHello c4) in
  sent c1 = sent c /\
  ready c2 = false /\
  _retry_welcome_loop c3 = Some (mkGreenlet false 1 (Sleeping 1)) /\
  sent c4 = sent c /\
  awaited_timeout c5 = Some 5 /\
  sent c5 = sent c ++ [(new_header EMsgGCClientHello, Filled CMsgClientHello hello_data)].
Proof.
  cbv zeta.
  rewrite (knock_begin_session find_proto fill_error transport_error EMsgGCClientHello n c Hready Hloop Hfresh).
  cbn [fst]. set (w := next_result c). set (c1 := with_retry_welcome_loop _ _).
  assert (Hf1 : fresh c1) by (unfold c1; apply registered_fresh; exact Hfresh).
  unfold _handle_conn_status.
  assert (Hv : lookup_result w (results (fst (_set_connection_status status c1))) = Some []).
  { apply (set_status_serves status w c1).
    - rewrite Hstatus. exact Hready.
    - rewrite Hstatus. unfold c1. cbn. apply in_or_app. right. left. reflexivity.
    - rewrite Hstatus. intros r Hin Hres. unfold c1 in Hin. cbn in Hin.
      apply (newest_result_only (KStr "notready") c r Hfresh Hin Hres).
    - unfold c1. cbn. apply (lookup_result_fresh _ Hfresh). }
  assert (Hf2 : fresh (fst (_set_connection_status status c1))).
  { apply (stable_set_status fresh emit_fresh fresh_tables). exact Hf1. }
  assert (Hc2 : ready (fst (_set_connection_status status c1)) = false /\
                _retry_welcome_loop (fst (_set_connection_status status c1)) =
                  _retry_welcome_loop c1 /\
                sent (fst (_set_connection_status status c1)) = sent c1).
  { destruct (_set_connection_status_spec status c1) as (cbs & rs & sp & E).
    rewrite E. cbn. rewrite Hstatus. repeat split. }
  destruct Hc2 as (Hr2 & Hl2 & Hs2).
  set (c2 := fst (_set_connection_status status c1)) in *.
  assert (Hl2' : _retry_welcome_loop c2 = Some (mkGreenlet false n (AwaitNotReady w))).
  { rewrite Hl2. reflexivity. }
  rewrite (knock_wake_session_lost n w [] false c2 Hl2' Hv). cbn [fst].
  set (c3 := with_retry_welcome_loop _ c2).
  rewrite (knock_wake_slept 1 1 c3 eq_refl). cbn [fst].
  set (c4 := with_retry_welcome_loop _ c3).
  assert (Hk4 : knocking 1 c4).
  { split; [exact Hr2|]. split; [reflexivity|].
    apply (fresh_tables c2); auto. }
  rewrite (knock_begin_no_session find_proto fill_error transport_error EMsgGCClientHello
             CMsgClientHello hello_registered hello_fills hello_accepted 1 c4 Hk4). cbn [fst].
  split; [reflexivity|]. split; [exact Hr2|]. split; [reflexivity|].
  split; [cbn; rewrite Hs2; reflexivity|]. split; [reflexivity|].
  cbn. rewrite Hs2. reflexivity.
Qed.

End Reconnect.

Section KnockUnresolved.

Variable find_proto : Z -> option Proto.
Variable decode_error : Proto -> bytes -> option PyExc.
Variable fill_error : Proto -> PyVal -> option PyExc.
Variable transport_error : SteamClient -> GCMsgHdrProto -> ProtoMessage -> option PyExc.
Variable EMsgGCClientHello : Z.
Hypothesis hello_unknown : find_proto EMsgGCClientHello = None.

(** X13.  When no message class is registered for the hello, the first
    step of the retry loop ends the loop: the exception of [send] stays in
    the greenlet, nothing is sent or emitted, and the dead loop takes no
    further step.  A later [launch] does not start a new loop while the
    app id is still among the games played. *)
Theorem knock_dies_without_hello_class (n : Z) (c : Client) (Hknock : knocking n c) :
  let out := knock_begin find_proto fill_error transport_error EMsgGCClientHello c in
  snd out = Return tt /\
  _retry_welcome_loop (fst out) = Some (mkGreenlet true n AtLoopTop) /\
  sent (fst out) = sent c /\ emitted (fst out) = emitted c /\
  callbacks (fst out) = callbacks c /\
  (forall steps,
     run_loop find_proto fill_error transport_error EMsgGCClientHello steps (fst out) = (fst out, Return tt)) /\
  (py_in 570 (current_games_played (steam c)) = true ->
   launch (fst out) = (fst out, Return tt)).
Proof.
  cbv zeta. destruct Hknock as (Hr & Hl & Hf).
  assert (E : knock_begin find_proto fill_error transport_error EMsgGCClientHello c =
              (with_retry_welcome_loop (Some (mkGreenlet true n AtLoopTop)) c, Return tt)).
  { unfold knock_begin. unfold bind at 1. unfold get at 1. cbv beta iota.
    rewrite Hl, Hr. cbn [negb].
    unfold send, _send. cbn [isinstance_dict hello_data negb].
    rewrite hello_unknown. reflexivity. }
  rewrite E. cbn [fst snd]. repeat split.
  - intros steps. apply run_loop_dead. reflexivity.
  - intros Hin. unfold launch, bind, get. cbv beta iota. cbn.
    change app_id with 570. rewrite Hin.
    destruct (negb (logged_on (steam c))); reflexivity.
Qed.

End KnockUnresolved.

Lemma knock_dies_without_hello_class_witness :
  _retry_welcome_loop
    (fst (knock_begin (fun _ => None) Demo.fill_error Demo.transport_error
            Demo.EMsgGCClientHello (fst (launch Demo.client))))
  = Some (mkGreenlet true 1 AtLoopTop).
Proof.
  exact (proj1 (proj2
    (knock_dies_without_hello_class (fun _ => None) Demo.fill_error Demo.transport_error
       Demo.EMsgGCClientHello eq_refl
       1 (fst (launch Demo.client)) launched_knocking))).
Defined.

Lemma unanswered_rounds_witness :
  List.length
    (sent (fst (run_loop Demo.find_proto Demo.fill_error Demo.transport_error Demo.EMsgGCClientHello
                  (List.concat (repeat [Begin; Wake true] 3)) (fst (launch Demo.client)))))
  = 3%nat.
Proof.
  rewrite (proj1 (unanswered_rounds Demo.find_proto Demo.fill_error Demo.transport_error
                    Demo.EMsgGCClientHello "CMsgClientHello" eq_refl eq_refl
                    (fun _ => eq_refl) 3 1 (fst (launch Demo.client))
                    launched_knocking)).
  reflexivity.
Defined.

Lemma welcome_stops_knocking_witness :
  ready (fst (_handle_client_welcome Demo.get_emsg_enum Demo.find_proto Demo.decode_error Demo.game_data
                Demo.extra_messages (Parsed "CMsgClientWelcome" [])
                (fst (knock_begin Demo.find_proto Demo.fill_error Demo.transport_error Demo.EMsgGCClientHello
                        (fst (launch Demo.client))))))
  = true.
Proof.
  exact (proj1 (welcome_stops_knocking Demo.get_emsg_enum Demo.find_proto
                  Demo.decode_error Demo.fill_error Demo.transport_error Demo.game_data
                  Demo.extra_messages Demo.EMsgGCClientHello "CMsgClientHello" eq_refl
                  eq_refl (fun _ => eq_refl)
                  1 (Parsed "CMsgClientWelcome" []) (fst (launch Demo.client))
                  launched_knocking)).
Defined.

Lemma in_session_fresh : fresh Demo.in_session.
Proof.
  split; vm_compute; repeat constructor; intros; discriminate.
Qed.

Lemma session_loss_restarts_knocking_witness :
  awaited_timeout
    (fst (knock_begin Demo.find_proto Demo.fill_error Demo.transport_error Demo.EMsgGCClientHello
       (fst (knock_wake true
          (fst (knock_wake false
             (fst (_handle_conn_status NO_SESSION
                (fst (knock_begin Demo.find_proto Demo.fill_error Demo.transport_error Demo.EMsgGCClientHello
                        Demo.in_session))))))))))
  = Some 5.
Proof.
  exact (proj1 (proj2 (proj2 (proj2 (proj2
    (session_loss_restarts_knocking Demo.find_proto Demo.fill_error Demo.transport_error
       Demo.EMsgGCClientHello "CMsgClientHello" eq_refl eq_refl (fun _ => eq_refl)
       2 NO_SESSION Demo.in_session
       eq_refl eq_refl in_session_fresh eq_refl)))))).
Defined.

(** ** A wait that times out *)

(** The call whose timer runs down while nothing arrives, in one piece. *)
Lemma wait_msg_timed_out event t raises c :
  fresh c ->
  wait_msg event (Some t) raises (repeat Tick t) c =
  (with_callbacks (callbacks c)
     (with_callbacks (callbacks c ++ [mkReg event (AsyncResult (next_result c)) true])
        (with_next_result (S (next_result c)) c)),
   if py_bool raises then Raise GeventTimeout else Return (Done None)).
Proof.
  intros Hf. rewrite (wait_msg_unfold _ _ _ _ _ Hf). cbv zeta.
  rewrite (wait_event_register_spec event c Hf). cbn [fst].
  rewrite park_only_ticks by (cbn; apply (lookup_result_fresh _ Hf)).
  rewrite Nat.leb_refl. cbn [results with_callbacks with_next_result].
  rewrite (lookup_result_fresh _ Hf).
  cbn [callbacks with_callbacks]. rewrite (filter_new_registration event c Hf).
  reflexivity.
Qed.

(** X17.  A [wait_msg] whose timeout runs down with nothing arriving
    leaves no listener behind: the table of listeners, the values held and
    the trace are as before the call, whichever form the timeout takes. *)
Theorem wait_msg_timeout_leaves_no_listener (event : Key) (t : nat)
  (raises : option bool) (c : Client) (Hfresh : fresh c) :
  let out := wait_msg event (Some t) raises (repeat Tick t) c in
  snd out = (if py_bool raises then Raise GeventTimeout else Return (Done None)) /\
  callbacks (fst out) = callbacks c /\
  pending_waits event (fst out) = pending_waits event c /\
  results (fst out) = results c /\
  emitted (fst out) = emitted c /\
  fresh (fst out).
Proof.
  cbv zeta. rewrite (wait_msg_timed_out event t raises c Hfresh). cbn [fst snd].
  repeat split.
  - destruct Hfresh as (H1 & _). cbn.
    eapply Forall_impl; [|exact H1]. cbv beta. intros r Hr w Hw. specialize (Hr w Hw). lia.
  - destruct Hfresh as (_ & H2). cbn.
    eapply Forall_impl; [|exact H2]. cbv beta. intros e He. lia.
Qed.

Lemma wait_msg_timeout_leaves_no_listener_witness :
  callbacks (fst (wait_msg (KStr "job_1") (Some 2%nat) None [Tick; Tick] Demo.client))
  = callbacks Demo.client.
Proof.
  exact (proj1 (proj2
    (wait_msg_timeout_leaves_no_listener (KStr "job_1") 2 None Demo.client
       (new_client_fresh _ _ _)))).
Defined.

Section JobTimeout.

Variable find_proto : Z -> option Proto.
Variable decode_error : Proto -> bytes -> option PyExc.
Variable fill_error : Proto -> PyVal -> option PyExc.
Variable transport_error : SteamClient -> GCMsgHdrProto -> ProtoMessage -> option PyExc.

(** X18.  A job that is sent and never answered.  When the arguments
    pass the guards of [_send] and the message is built and taken by the
    transport, [send_job_and_wait] with a timeout hands that one envelope
    with the new job id to the transport, and when the timeout has run down
    it returns [None], or raises the timeout when [raises] is set; no
    listener for the job is left. *)
Theorem send_job_and_wait_unanswered (emsg : Z) (data : PyVal) (proto : PyObj)
  (t : nat) (raises : bool) (p : Proto) (c : Client)
  (Hfresh : fresh c)
  (Hdata : isinstance_dict data = true)
  (Hclass : proto = ObjMessageClass p \/ proto = ObjNone /\ find_proto emsg = Some p)
  (Hsend : send_error fill_error transport_error c
             (send_header emsg (Some (next_jobid (current_jobid c)))) p data = None) :
  let out := send_job_and_wait find_proto fill_error transport_error emsg data proto (Some t) raises
               (repeat Tick t) c in
  let jobid := next_jobid (current_jobid c) in
  snd out = (if raises then Raise GeventTimeout else Return (Done None)) /\
  current_jobid (fst out) = jobid /\
  sent (fst out) =
    sent c ++ [({| hdr_msg := emsg; job_id_source := jobid; job_id_target := NO_JOB |},
                Filled p data)] /\
  listeners_of (KStr (job_key jobid)) (callbacks (fst out)) = [] /\
  emitted (fst out) = emitted c.
Proof.
  cbv zeta.
  pose proof (send_job_sends find_proto fill_error transport_error emsg data proto p c
                Hdata Hclass Hsend) as Es.
  cbv zeta in Es. unfold send_job_and_wait, bind. rewrite Es. clear Es.
  set (jobid := next_jobid (current_jobid c)).
  set (c1 := with_sent _ _).
  assert (Hf1 : fresh c1).
  { destruct Hfresh as (H1 & H2). split; [|exact H2]. cbn.
    apply Forall_forall. intros r Hr. apply filter_In in Hr.
    rewrite Forall_forall in H1. exact (H1 r (proj1 Hr)). }
  rewrite (wait_msg_timed_out (KStr (job_key jobid)) t (Some raises) c1 Hf1).
  cbn [fst snd py_bool]. split; [reflexivity|]. split; [reflexivity|].
  split; [reflexivity|]. split; [|reflexivity].
  cbn. apply listeners_of_removed.
Qed.

End JobTimeout.

Lemma send_job_and_wait_unanswered_witness :
  let out := send_job_and_wait Demo.find_proto Demo.fill_error Demo.transport_error
               Demo.EMsgGCClientHello hello_data ObjNone
               (Some 3%nat) false [Tick; Tick; Tick] Demo.client in
  snd out = Return (Done None) /\
  sent (fst out) = [(mkHdr Demo.EMsgGCClientHello 1 NO_JOB, Filled "CMsgClientHello" hello_data)].
Proof.
  pose proof (send_job_and_wait_unanswered Demo.find_proto Demo.fill_error
                Demo.transport_error Demo.EMsgGCClientHello hello_data
                ObjNone 3 false "CMsgClientHello" Demo.client (new_client_fresh _ _ _)
                eq_refl (or_intror (conj eq_refl eq_refl)) eq_refl) as (H1 & _ & H3 & _).
  split; [exact H1 | exact H3].
Defined.

(** ** The handlers registered at construction *)

Lemma persistent_inv r :
  persistent r = true ->
  reg_once r = false /\ (exists method, reg_callback r = Handler method) /\
  (exists emsg, reg_event r = KMsg emsg).
Proof.
  unfold persistent. intros H.
  apply andb_true_iff in H. destruct H as (H & He).
  apply andb_true_iff in H. destruct H as (Ho & Hc).
  split; [apply negb_true_iff; exact Ho|]. split.
  - destruct (reg_callback r); [eexists; reflexivity | discriminate].
  - destruct (reg_event r); [eexists; reflexivity | discriminate].
Qed.

Lemma kill_callbacks c : callbacks (kill c) = callbacks c.
Proof. unfold kill. destruct (_retry_welcome_loop c); reflexivity. Qed.

Section Handlers.

Variable get_emsg_enum : Z -> Z.
Variable find_proto : Z -> option Proto.
Variable decode_error : Proto -> bytes -> option PyExc.
Variable fill_error : Proto -> PyVal -> option PyExc.
Variable transport_error : SteamClient -> GCMsgHdrProto -> ProtoMessage -> option PyExc.
Variable game_data : ProtoMessage -> bytes.
Variable extra_messages : ProtoMessage -> list (Z * bytes).
Variable EMsgGCClientHello EMsgGCClientConnectionStatus EMsgGCClientWelcome : Z.

Variable r : Registration.
Hypothesis r_persistent : persistent r = true.

Lemma installed_emit event args c : installed r c -> installed r (fst (emit event args c)).
Proof.
  unfold installed. intros H. rewrite emit_callbacks. apply filter_In.
  split; [exact H|]. destruct (persistent_inv r r_persistent) as (-> & _).
  rewrite andb_false_r. reflexivity.
Qed.

Lemma installed_tables c c' :
  callbacks c' = callbacks c -> results c' = results c ->
  next_result c' = next_result c -> installed r c -> installed r c'.
Proof. unfold installed. intros -> _ _. auto. Qed.

Lemma installed_register event c :
  installed r c -> installed r (fst (wait_event_register event c)).
Proof.
  unfold installed, wait_event_register, on, bind, get, modify, ret. cbn.
  intros H. unfold register.
  destruct (persistent_inv r r_persistent) as (_ & (method & Ec) & _).
  destruct (existsb _ _).
  - apply in_map_iff. exists r. split; [|exact H].
    unfold same_registration. rewrite Ec. cbn. rewrite andb_false_r. reflexivity.
  - apply in_or_app. left. exact H.
Qed.

Lemma installed_wake event w raises expired c :
  installed r c -> installed r (fst (wait_event_wake event w raises expired c)).
Proof.
  unfold installed, wait_event_wake, remove_listener, bind, get, modify, ret, raise.
  cbv beta iota. intros H.
  destruct (lookup_result w (results c)); [exact H|].
  destruct expired; [|exact H].
  assert (Hin : In r (filter (fun r0 => negb (same_registration event (AsyncResult w) r0))
                             (callbacks c))).
  { apply filter_In. split; [exact H|].
    destruct (persistent_inv r r_persistent) as (_ & (method & Ec) & _).
    unfold same_registration. rewrite Ec. cbn. rewrite andb_false_r. reflexivity. }
  destruct raises; exact Hin.
Qed.

Lemma installed_send emsg data proto jobid c :
  installed r c -> installed r (fst (_send find_proto fill_error transport_error emsg data proto jobid c)).
Proof.
  intros H.
  destruct (_send_frame find_proto fill_error transport_error emsg data proto jobid c)
    as (snt & [[]|?] & E); rewrite E; exact H.
Qed.

Lemma installed_knock_begin c :
  installed r c -> installed r (fst (knock_begin find_proto fill_error transport_error EMsgGCClientHello c)).
Proof.
  intros H. unfold knock_begin, bind at 1, get at 1. cbv beta iota.
  destruct (_retry_welcome_loop c) as [[[] n p]|]; try exact H.
  destruct p; try exact H.
  destruct (negb (ready c)).
  - pose proof (installed_send EMsgGCClientHello hello_data ObjNone None c H) as Hs.
    unfold send.
    destruct (_send find_proto fill_error transport_error EMsgGCClientHello hello_data ObjNone None c) as [c1 [u|e]];
      cbn [fst] in Hs; [|exact Hs].
    unfold bind.
    pose proof (installed_register (KStr "ready") c1 Hs) as Hr.
    destruct (wait_event_register (KStr "ready") c1) as [c2 [w|e]]; exact Hr.
  - unfold bind.
    pose proof (installed_register (KStr "notready") c H) as Hr.
    destruct (wait_event_register (KStr "notready") c) as [c2 [w|e]]; exact Hr.
Qed.

Lemma installed_knock_wake expired c :
  installed r c -> installed r (fst (knock_wake expired c)).
Proof.
  intros H. unfold knock_wake, bind at 1, get at 1. cbv beta iota.
  destruct (_retry_welcome_loop c) as [[[] n p]|]; try exact H.
  destruct p as [|w t|w|s]; try exact H.
  - unfold bind.
    pose proof (installed_wake (KStr "ready") w false expired c H) as Hw.
    destruct (wait_event_wake (KStr "ready") w false expired c) as [c1 [[x|]|e]];
      exact Hw.
  - unfold bind.
    pose proof (installed_wake (KStr "notready") w false false c H) as Hw.
    destruct (wait_event_wake (KStr "notready") w false false c) as [c1 [[x|]|e]];
      exact Hw.
  - destruct expired; exact H.
Qed.

Lemma installed_perform call c :
  installed r c ->
  installed r (perform get_emsg_enum find_proto decode_error fill_error transport_error game_data extra_messages
               EMsgGCClientHello call c).
Proof.
  intros H. destruct call; cbn [perform].
  - apply (stable_set_status (installed r) installed_emit installed_tables). exact H.
  - unfold _handle_play_sess_state, bind, get. cbv beta iota.
    destruct (_ && _); [|exact H].
    apply (stable_set_status (installed r) installed_emit installed_tables). exact H.
  - unfold _handle_disconnect, bind, get, modify, ret. cbv beta iota.
    destruct (greenlet_bool _);
      apply (stable_set_status (installed r) installed_emit installed_tables);
      [unfold installed; rewrite kill_callbacks|]; exact H.
  - apply (stable_welcome get_emsg_enum find_proto decode_error game_data extra_messages
             (installed r) installed_emit installed_tables). exact H.
  - apply (stable_set_status (installed r) installed_emit installed_tables). exact H.
  - apply (stable_process get_emsg_enum find_proto decode_error (installed r) installed_emit). exact H.
  - apply installed_send. exact H.
  - destruct (send_job_cases find_proto fill_error transport_error emsg data proto c) as (_ & Hc & _).
    unfold installed. rewrite Hc. apply filter_In. split; [exact H|].
    destruct (persistent_inv r r_persistent) as (_ & _ & (e & ->)). reflexivity.
  - apply installed_register. exact H.
  - apply installed_wake. exact H.
  - apply installed_knock_begin. exact H.
  - apply installed_knock_wake. exact H.
  - unfold launch, bind, get, games_played, set_greenlet, modify, ret. cbv beta iota.
    destruct (negb (logged_on (steam c))); [exact H|].
    destruct (_ && _); exact H.
  - rewrite exit_unfold. cbv zeta.
    apply (stable_set_status (installed r) installed_emit installed_tables).
    assert (H1 : installed r (if greenlet_bool (_retry_welcome_loop c) then kill c else c)).
    { destruct (greenlet_bool _); [unfold installed; rewrite kill_callbacks|]; exact H. }
    destruct (py_in _ _); exact H1.
Qed.

Lemma installed_run calls : forall c,
  installed r c ->
  installed r (fold_left (fun c call =>
               perform get_emsg_enum find_proto decode_error fill_error transport_error game_data extra_messages
                 EMsgGCClientHello call c) calls c).
Proof.
  induction calls as [|call calls IH]; intros c H; [exact H|].
  cbn [fold_left]. apply IH. apply installed_perform. exact H.
Qed.

End Handlers.

Section HandlersSpawn.

Variable get_emsg_enum : Z -> Z.
Variable find_proto : Z -> option Proto.
Variable decode_error : Proto -> bytes -> option PyExc.
Variable fill_error : Proto -> PyVal -> option PyExc.
Variable transport_error : SteamClient -> GCMsgHdrProto -> ProtoMessage -> option PyExc.
Variable game_data : ProtoMessage -> bytes.
Variable extra_messages : ProtoMessage -> list (Z * bytes).
Variable EMsgGCClientHello EMsgGCClientConnectionStatus EMsgGCClientWelcome : Z.

Lemma process_spawns emsg header payload proto method once c :
  find_proto (get_emsg_enum emsg) = Some proto ->
  decode_error proto payload = None ->
  In (mkReg (KMsg (get_emsg_enum emsg)) (Handler method) once) (callbacks c) ->
  In (method, [ArgMsg (Parsed proto payload)])
     (spawned (fst (_process_gc_message get_emsg_enum find_proto decode_error emsg header payload c))).
Proof.
  intros Hf Hd Hin.
  unfold _process_gc_message, ParseFromString, header_job_id_target. rewrite Hf, Hd.
  unfold bind at 1, ret at 1. cbv beta iota. unfold bind at 1. rewrite emit_returns.
  pose proof (proj2 (emit_spawns (KMsg (get_emsg_enum emsg))
                       [ArgMsg (Parsed proto payload)] c) method once Hin) as Hs.
  destruct header as [h|h]; [|exact Hs].
  unfold bind, ret. destruct (negb _); [|exact Hs].
  apply (proj1 (emit_spawns _ _ _)). exact Hs.
Qed.

Lemma new_client_installed steam_client :
  installed (mkReg (KMsg EMsgGCClientWelcome) (Handler "_handle_client_welcome") false)
    (new_client EMsgGCClientConnectionStatus EMsgGCClientWelcome steam_client) /\
  installed (mkReg (KMsg EMsgGCClientConnectionStatus) (Handler "_handle_conn_status") false)
    (new_client EMsgGCClientConnectionStatus EMsgGCClientWelcome steam_client).
Proof.
  unfold installed, new_client. cbn [callbacks].
  assert (E : register (KMsg EMsgGCClientWelcome) (Handler "_handle_client_welcome") false
                (register (KMsg EMsgGCClientConnectionStatus)
                   (Handler "_handle_conn_status") false []) =
              [mkReg (KMsg EMsgGCClientConnectionStatus) (Handler "_handle_conn_status") false;
               mkReg (KMsg EMsgGCClientWelcome) (Handler "_handle_client_welcome") false]).
  { unfold register at 2. cbn [existsb app]. unfold register. cbn [existsb].
    unfold same_registration. cbn [reg_event reg_callback].
    replace (listener_eqb (Handler "_handle_conn_status") (Handler "_handle_client_welcome"))
      with false by reflexivity.
    rewrite andb_false_r. reflexivity. }
  rewrite E. split; [right; left | left]; reflexivity.
Qed.

(** X16.  The two handlers registered by [__init__] stay registered
    through everything the client does, so in every state it reaches an
    inbound welcome message whose payload decodes is handed to
    [_handle_client_welcome] and an inbound status message whose payload
    decodes to [_handle_conn_status], each spawned with the decoded message,
    whichever kind of header it comes with.  A payload that does not decode
    reaches no handler: the decode error leaves the router and the client is
    as it was. *)
Theorem control_messages_reach_handlers (calls : list Call) (steam_client : SteamClient)
  (emsg : Z) (header : GCHeader) (payload : bytes) (proto : Proto)
  (Hfind : find_proto (get_emsg_enum emsg) = Some proto) :
  let c := fold_left (fun c call =>
             perform get_emsg_enum find_proto decode_error fill_error transport_error game_data extra_messages
               EMsgGCClientHello call c) calls
             (new_client EMsgGCClientConnectionStatus EMsgGCClientWelcome steam_client) in
  let out := _process_gc_message get_emsg_enum find_proto decode_error emsg header payload c in
  match decode_error proto payload with
  | Some e => out = (c, Raise e)
  | None =>
      (get_emsg_enum emsg = EMsgGCClientWelcome ->
       In ("_handle_client_welcome", [ArgMsg (Parsed proto payload)]) (spawned (fst out))) /\
      (get_emsg_enum emsg = EMsgGCClientConnectionStatus ->
       In ("_handle_conn_status", [ArgMsg (Parsed proto payload)]) (spawned (fst out)))
  end.
Proof.
  cbv zeta. destruct (new_client_installed steam_client) as (Hw & Hc).
  destruct (decode_error proto payload) as [e|] eqn:Hd.
  { unfold _process_gc_message, ParseFromString, bind, raise. rewrite Hfind, Hd.
    reflexivity. }
  split; intros E.
  - apply (process_spawns emsg header payload proto "_handle_client_welcome" false);
      [exact Hfind|exact Hd|]. rewrite E.
    apply (installed_run get_emsg_enum find_proto decode_error fill_error transport_error
             game_data extra_messages
             EMsgGCClientHello
             (mkReg (KMsg EMsgGCClientWelcome) (Handler "_handle_client_welcome") false)
             eq_refl calls _ Hw).
  - apply (process_spawns emsg header payload proto "_handle_conn_status" false);
      [exact Hfind|exact Hd|]. rewrite E.
    apply (installed_run get_emsg_enum find_proto decode_error fill_error transport_error
             game_data extra_messages
             EMsgGCClientHello
             (mkReg (KMsg EMsgGCClientConnectionStatus) (Handler "_handle_conn_status") false)
             eq_refl calls _ Hc).
Qed.

End HandlersSpawn.

(** After a job has been sent, a welcome that decodes is handed to its
    handler, and one that does not decode is not. *)
Lemma control_messages_reach_handlers_witness :
  let c := fst (send_job Demo.find_proto Demo.fill_error Demo.transport_error
                  Demo.EMsgGCClientHello hello_data ObjNone Demo.client) in
  let dispatch := _process_gc_message Demo.get_emsg_enum Demo.find_proto Demo.decode_error
                    Demo.EMsgGCClientWelcome (HdrProto (new_header Demo.EMsgGCClientWelcome)) in
  In ("_handle_client_welcome", [ArgMsg (Parsed "CMsgClientWelcome" [Byte.x01])])
     (spawned (fst (dispatch [Byte.x01] c))) /\
  dispatch [Byte.xff] c = (c, Raise (DecodeError "Error parsing message")).
Proof.
  split.
  - exact (proj1
      (control_messages_reach_handlers Demo.get_emsg_enum Demo.find_proto
         Demo.decode_error Demo.fill_error Demo.transport_error Demo.game_data
         Demo.extra_messages Demo.EMsgGCClientHello Demo.EMsgGCClientConnectionStatus
         Demo.EMsgGCClientWelcome
         [Call_send_job Demo.EMsgGCClientHello hello_data ObjNone] Demo.steam_client
         Demo.EMsgGCClientWelcome (HdrProto (new_header Demo.EMsgGCClientWelcome))
         [Byte.x01] "CMsgClientWelcome" eq_refl) eq_refl).
  - exact (control_messages_reach_handlers Demo.get_emsg_enum Demo.find_proto
         Demo.decode_error Demo.fill_error Demo.transport_error Demo.game_data
         Demo.extra_messages Demo.EMsgGCClientHello Demo.EMsgGCClientConnectionStatus
         Demo.EMsgGCClientWelcome
         [Call_send_job Demo.EMsgGCClientHello hello_data ObjNone] Demo.steam_client
         Demo.EMsgGCClientWelcome (HdrProto (new_header Demo.EMsgGCClientWelcome))
         [Byte.xff] "CMsgClientWelcome" eq_refl).
Defined.

(** ** The ready events over the life of a client *)

Lemma ready_after_app was l1 : forall l2,
  ready_after was (l1 ++ l2) =
  match ready_after was l1 with
  | Some b => ready_after b l2
  | None => None
  end.
Proof.
  revert was. induction l1 as [|[k a] l1 IH]; intros was l2; [reflexivity|].
  cbn [app ready_after].
  destruct (key_eqb k (KStr "ready")); [destruct was; [reflexivity|apply IH]|].
  destruct (key_eqb k (KStr "notready")); [destruct was; [apply IH|reflexivity]|].
  apply IH.
Qed.

Lemma ready_history_refl c c' :
  emitted c' = emitted c -> ready c' = ready c -> ready_history_step c c'.
Proof. intros He Hr. exists []. rewrite app_nil_r, Hr. split; [exact He|reflexivity]. Qed.

Lemma ready_history_trans c1 c2 c3 :
  ready_history_step c1 c2 -> ready_history_step c2 c3 -> ready_history_step c1 c3.
Proof.
  intros (e1 & H1 & R1) (e2 & H2 & R2). exists (e1 ++ e2). split.
  - rewrite H2, H1, app_assoc. reflexivity.
  - rewrite ready_after_app, R1. exact R2.
Qed.

Lemma ready_history_set_status status c :
  ready_history_step c (fst (_set_connection_status status c)).
Proof.
  destruct (_set_connection_status_spec status c) as (cbs & rs & sp & E). rewrite E.
  eexists. split; [reflexivity|]. cbn [ready fst]. unfold status_events.
  destruct (status_eqb status (connection_status c));
    destruct (status_eqb status HAVE_SESSION), (ready c); reflexivity.
Qed.

Section ReadyHistory.

Variable get_emsg_enum : Z -> Z.
Variable find_proto : Z -> option Proto.
Variable decode_error : Proto -> bytes -> option PyExc.
Variable fill_error : Proto -> PyVal -> option PyExc.
Variable transport_error : SteamClient -> GCMsgHdrProto -> ProtoMessage -> option PyExc.
Variable game_data : ProtoMessage -> bytes.
Variable extra_messages : ProtoMessage -> list (Z * bytes).
Variable EMsgGCClientHello EMsgGCClientConnectionStatus EMsgGCClientWelcome : Z.

Lemma dispatch_events_neutral was emsg header payload :
  ready_after was (dispatch_events get_emsg_enum find_proto decode_error emsg header payload) = Some was.
Proof.
  unfold dispatch_events. destruct (find_proto (get_emsg_enum emsg)); [|reflexivity].
  destruct (decode_error _ _); [reflexivity|].
  destruct header as [h|h]; [|reflexivity].
  destruct (Z.eqb (job_id_target h) NO_JOB); reflexivity.
Qed.

Lemma ready_history_process emsg header payload c :
  ready_history_step c
    (fst (_process_gc_message get_emsg_enum find_proto decode_error emsg header payload c)).
Proof.
  destruct (_process_gc_message_spec get_emsg_enum find_proto decode_error emsg header payload c)
    as (cbs & rs & sp & E). rewrite E.
  eexists. split; [reflexivity|]. apply dispatch_events_neutral.
Qed.

Lemma ready_history_extras extras c :
  ready_history_step c
    (fst (for_each extras (fun extra =>
            _process_gc_message get_emsg_enum find_proto decode_error
              (fst extra) (HdrProto (new_header (fst extra))) (snd extra)) c)).
Proof.
  destruct (for_each_extras_spec get_emsg_enum find_proto decode_error extras c)
    as (cbs & rs & sp & E). rewrite E.
  eexists. split; [reflexivity|]. cbn [ready fst].
  generalize (ready c). clear E. induction extras as [|extra extras IH]; intros was.
  - reflexivity.
  - cbn [extras_events]. rewrite ready_after_app, dispatch_events_neutral.
    destruct (dispatch_result _ _ _ _ _ _); [apply IH|reflexivity].
Qed.

Lemma ready_history_welcome message c :
  ready_history_step c
    (fst (_handle_client_welcome get_emsg_enum find_proto decode_error game_data extra_messages
            message c)).
Proof.
  unfold _handle_client_welcome. unfold bind at 1.
  pose proof (ready_history_set_status HAVE_SESSION c) as H1.
  destruct (_set_connection_status_spec HAVE_SESSION c) as (cbs & rs & sp & E).
  rewrite E in *. cbn [fst] in H1. unfold ParseFromString, bind at 1.
  destruct (decode_error CMsgDOTAWelcome (game_data message)); [exact H1|].
  unfold ret at 1. cbv beta iota. unfold bind at 1.
  match goal with |- context [emit ?k ?a ?c0] =>
    pose proof (emit_returns k a c0) as Er;
    destruct (emit_spec k a c0) as (cbs' & rs' & sp' & E') end.
  rewrite Er. cbv beta iota.
  eapply ready_history_trans; [exact H1|].
  eapply ready_history_trans; [|apply ready_history_extras].
  rewrite E'. cbn [fst]. eexists. split; reflexivity.
Qed.

Lemma ready_history_send emsg data proto jobid c :
  ready_history_step c (fst (_send find_proto fill_error transport_error emsg data proto jobid c)).
Proof.
  destruct (_send_frame find_proto fill_error transport_error emsg data proto jobid c)
    as (snt & [[]|?] & E); rewrite E;
    apply ready_history_refl; reflexivity.
Qed.

Lemma ready_history_register event c :
  ready_history_step c (fst (wait_event_register event c)).
Proof. apply ready_history_refl; reflexivity. Qed.

Lemma ready_history_wake event w raises expired c :
  ready_history_step c (fst (wait_event_wake event w raises expired c)).
Proof.
  unfold wait_event_wake, remove_listener, bind, get, modify, ret, raise. cbv beta iota.
  destruct (lookup_result w (results c)); [apply ready_history_refl; reflexivity|].
  destruct expired; [|apply ready_history_refl; reflexivity].
  destruct raises; apply ready_history_refl; reflexivity.
Qed.

Lemma ready_history_with_loop g c c' :
  ready_history_step c c' -> ready_history_step c (with_retry_welcome_loop g c').
Proof. intros (e & H & R). exists e. split; [exact H | exact R]. Qed.

Lemma ready_history_knock_begin c :
  ready_history_step c (fst (knock_begin find_proto fill_error transport_error EMsgGCClientHello c)).
Proof.
  unfold knock_begin, bind at 1, get at 1. cbv beta iota.
  destruct (_retry_welcome_loop c) as [[[] n p]|];
    try (apply ready_history_refl; reflexivity).
  destruct p; try (apply ready_history_refl; reflexivity).
  destruct (negb (ready c)).
  - pose proof (ready_history_send EMsgGCClientHello hello_data ObjNone None c) as Hs.
    unfold send.
    destruct (_send find_proto fill_error transport_error EMsgGCClientHello hello_data ObjNone None c) as [c1 [u|e]];
      cbn [fst] in Hs.
    + unfold bind, wait_event_register, on, get, modify, ret, set_greenlet. cbv beta iota.
      cbn [fst]. destruct Hs as (ev & H & R). exists ev. split; [exact H | exact R].
    + cbn [fst]. apply ready_history_with_loop. exact Hs.
  - apply ready_history_refl; reflexivity.
Qed.

Lemma ready_history_knock_wake expired c :
  ready_history_step c (fst (knock_wake expired c)).
Proof.
  unfold knock_wake, bind at 1, get at 1. cbv beta iota.
  destruct (_retry_welcome_loop c) as [[[] n p]|];
    try (apply ready_history_refl; reflexivity).
  destruct p as [|w t|w|s]; try (apply ready_history_refl; reflexivity).
  - unfold bind.
    pose proof (ready_history_wake (KStr "ready") w false expired c) as H.
    destruct (wait_event_wake (KStr "ready") w false expired c) as [c1 [[x|]|e]];
      cbn [fst] in *; first [exact H | apply ready_history_with_loop; exact H].
  - unfold bind.
    pose proof (ready_history_wake (KStr "notready") w false false c) as H.
    destruct (wait_event_wake (KStr "notready") w false false c) as [c1 [[x|]|e]];
      cbn [fst] in *; first [exact H | apply ready_history_with_loop; exact H].
  - destruct expired; apply ready_history_refl; reflexivity.
Qed.

Lemma ready_history_perform call c :
  ready_history_step c
    (perform get_emsg_enum find_proto decode_error fill_error transport_error game_data extra_messages EMsgGCClientHello call c).
Proof.
  destruct call; cbn [perform].
  - apply ready_history_set_status.
  - unfold _handle_play_sess_state, bind, get. cbv beta iota.
    destruct (_ && _); [apply ready_history_set_status|].
    apply ready_history_refl; reflexivity.
  - unfold _handle_disconnect, bind, get, modify, ret. cbv beta iota.
    destruct (greenlet_bool _); [|apply ready_history_set_status].
    eapply ready_history_trans; [|apply ready_history_set_status].
    apply ready_history_refl; unfold kill; destruct (_retry_welcome_loop c); reflexivity.
  - apply ready_history_welcome.
  - apply ready_history_set_status.
  - apply ready_history_process.
  - apply ready_history_send.
  - unfold send_job, remove_all_listeners, bind, get, modify, ret. cbv beta iota zeta.
    match goal with |- context [_send _ _ _ ?e ?d ?p ?j ?c1] =>
      pose proof (ready_history_send e d p j c1) as H;
      destruct (_send find_proto fill_error transport_error e d p j c1) as [c2 [u|x]] end;
      cbn [fst] in *; exact H.
  - apply ready_history_register.
  - apply ready_history_wake.
  - apply ready_history_knock_begin.
  - apply ready_history_knock_wake.
  - unfold launch, bind, get, games_played, set_greenlet, modify, ret. cbv beta iota.
    destruct (negb (logged_on (steam c))); [apply ready_history_refl; reflexivity|].
    destruct (_ && _); apply ready_history_refl; reflexivity.
  - rewrite exit_unfold. cbv zeta.
    eapply ready_history_trans; [|apply ready_history_set_status].
    apply ready_history_refl;
      destruct (greenlet_bool _); unfold kill; destruct (_retry_welcome_loop c);
      destruct (py_in _ _); reflexivity.
Qed.

(** X20.  Over the whole life of a client, whatever it is made to do,
    [ready] and [notready] come strictly in turn in the trace of its
    events, [ready] first, and the last of them says what the ready flag
    is. *)
Theorem ready_events_alternate (calls : list Call) (steam_client : SteamClient) :
  let c := fold_left (fun c call =>
             perform get_emsg_enum find_proto decode_error fill_error transport_error game_data extra_messages
               EMsgGCClientHello call c) calls
             (new_client EMsgGCClientConnectionStatus EMsgGCClientWelcome steam_client) in
  ready_after false (emitted c) = Some (ready c).
Proof.
  cbv zeta.
  assert (H : ready_after false
                (emitted (new_client EMsgGCClientConnectionStatus EMsgGCClientWelcome
                            steam_client)) =
              Some (ready (new_client EMsgGCClientConnectionStatus EMsgGCClientWelcome
                             steam_client))) by reflexivity.
  revert H.
  generalize (new_client EMsgGCClientConnectionStatus EMsgGCClientWelcome steam_client).
  induction calls as [|call calls IH]; intros c Hc; [exact Hc|].
  cbn [fold_left]. apply IH.
  destruct (ready_history_perform call c) as (events & He & Hr).
  rewrite He, ready_after_app, Hc. exact Hr.
Qed.

(** X19.  A welcome that arrives when the client already has its session
    emits neither [connection_status] nor [ready] again.  When its
    [game_data] decodes it is passed on as [dota_welcome] and its extra
    messages are dispatched one after the other, up to the first whose
    payload does not decode; when its [game_data] does not decode the
    handler raises and nothing at all is emitted. *)
Theorem welcome_in_session (message : ProtoMessage) (c : Client)
  (Hstatus : connection_status c = HAVE_SESSION) (Hready : ready c = true) :
  let out := _handle_client_welcome get_emsg_enum find_proto decode_error game_data extra_messages
               message c in
  ready (fst out) = true /\ connection_status (fst out) = HAVE_SESSION /\
  match decode_error CMsgDOTAWelcome (game_data message) with
  | Some e => snd out = Raise e /\ emitted (fst out) = emitted c
  | None =>
      let submessage := Parsed CMsgDOTAWelcome (game_data message) in
      snd out = extras_result get_emsg_enum find_proto decode_error
                  (extra_messages submessage) /\
      emitted (fst out) =
        emitted c
        ++ [(KStr "dota_welcome", [ArgMsg submessage])]
        ++ extras_events get_emsg_enum find_proto decode_error (extra_messages submessage)
  end.
Proof.
  cbv zeta. unfold _handle_client_welcome, ParseFromString, bind, raise, ret.
  destruct (_set_connection_status_spec HAVE_SESSION c) as (cbs & rs & sp & E).
  rewrite E; simpl. rewrite Hstatus, Hready. unfold status_events. simpl.
  destruct (decode_error CMsgDOTAWelcome (game_data message)) as [e|].
  - simpl. rewrite app_nil_r. repeat split.
  - emit_step.
    match goal with |- context [for_each ?l ?f ?c1] =>
      destruct (for_each_extras_spec get_emsg_enum find_proto decode_error l c1)
        as (cbs' & rs' & sp' & E'); rewrite E'; simpl end.
    rewrite app_nil_r, <- app_assoc. repeat split.
Qed.

End ReadyHistory.

(** A welcome with two extras, on a client in session. *)
Lemma welcome_in_session_witness :
  emitted (fst (_handle_client_welcome Demo.get_emsg_enum Demo.find_proto Demo.decode_error
                  Demo.game_data Demo.extra_messages
                  (Parsed "CMsgClientWelcome" [Byte.x00; Byte.x01; Byte.x02])
                  Demo.in_session))
  = emitted Demo.in_session
    ++ [(KStr "dota_welcome",
         [ArgMsg (Parsed CMsgDOTAWelcome [Byte.x00; Byte.x01; Byte.x02])]);
        (KMsg 4009, [ArgMsg (Parsed "CMsgConnectionStatus" [Byte.x01])]);
        (KMsg 4009, [ArgMsg (Parsed "CMsgConnectionStatus" [Byte.x02])])].
Proof.
  exact (proj2 (proj2 (proj2
    (welcome_in_session Demo.get_emsg_enum Demo.find_proto Demo.decode_error
       Demo.game_data Demo.extra_messages
       (Parsed "CMsgClientWelcome" [Byte.x00; Byte.x01; Byte.x02]) Demo.in_session
       eq_refl eq_refl)))).
Defined.
